(** * indown-omw: the TSV repair script and the IWN -> ILI mapping pipeline

    A shallow embedding of [fix_malformed_tsv.py] and [map2ili.py], followed
    by the properties of the two programs.

    Conventions of the embedding.
    - A Python [str] is a [string]: the sequence of the bytes of its UTF-8
      encoding. The separators the code tests for (tab, newline, dash,
      quotation mark) are ASCII characters, which are single bytes and
      occur in no other character; the whitespace [strip()] and [split()]
      pass over is every character [str.isspace] holds of, the ASCII ones
      and the others, as their UTF-8 bytes ([Py.whitespace]); comparing
      strings byte by byte is comparing them code point by code point.
    - A Python exception is a value [Raise e] of the type [result]; a
      [try ... except E] is a match on it. Indexing, unpacking, [d[k]],
      [open], [int], [float], [max] and the database lookup raise as they
      do in Python.
    - A dict whose iteration order matters is an association list; a dict
      that is only read by key is a [gmap]. The entry dicts are records;
      the entry objects the groups refer to are positions in the list
      [entries], so that marking a group is seen through every reference.
    - The numeric conversions [int(_)] and [float(_)] of the interpreter are
      taken through the class [PyNum], and the properties hold for every
      instance; where the order of floats matters, [==] and [>] are those
      of the interpreter ([PyFloatOrder]): false on a NaN, a strict total
      order on the other floats. [AsciiNum] is the instance the examples
      are evaluated with, and [NanNum] the one of the examples with a NaN.
    - The [wn] package is outside the repository: the database is a finite
      map from synset identifiers to synsets.
    - [print] calls are left out: they change no value and cannot raise. *)

From Stdlib Require Import ZArith QArith Lqa String Ascii List Bool Lia Permutation Sorted.
From stdpp Require Import base option list strings pretty gmap fin_maps.

Local Open Scope string_scope.
Local Open Scope list_scope.
Local Open Scope nat_scope.

(* ===================================================================== *)
(** * Part I: definitions                                                 *)
(* ===================================================================== *)

(** ** Exceptions *)

Inductive exn : Type :=
| ValueError
| IndexError
| KeyError
| OSError
| WnError.

Inductive result (A : Type) : Type :=
| Ok (a : A)
| Raise (e : exn).
Arguments Ok {A} a.
Arguments Raise {A} e.

Definition result_bind {A B : Type} (f : A -> result B) (m : result A) : result B :=
  match m with
  | Ok a => f a
  | Raise e => Raise e
  end.

#[global] Instance result_mret : MRet result := fun A a => Ok a.
#[global] Instance result_mbind : MBind result := fun A B f m => result_bind f m.

(** ** The string methods the two scripts call *)

Module Py.

Definition tab : ascii := "009"%char.
Definition nl : ascii := "010"%char.
Definition dquote : ascii := "034"%char.
Definition dash : ascii := "-"%char.

(** The characters of a text. A [str] is held as its UTF-8 bytes: a byte
    below 192 is a character by itself (an ASCII character; or a stray
    byte, in a sequence of bytes that is no text); a first byte of 192..223
    takes the next byte with it, one of 224..239 the next two and one of
    240..255 the next three. *)
Fixpoint chars (s : string) : list string :=
  match s with
  | EmptyString => []
  | String c s1 =>
      let n := nat_of_ascii c in
      if n <? 192 then String c EmptyString :: chars s1
      else
        match s1 with
        | EmptyString => [String c EmptyString]
        | String c1 s2 =>
            if n <? 224 then String c (String c1 EmptyString) :: chars s2
            else
              match s2 with
              | EmptyString => [String c (String c1 EmptyString)]
              | String c2 s3 =>
                  if n <? 240
                  then String c (String c1 (String c2 EmptyString)) :: chars s3
                  else
                    match s3 with
                    | EmptyString => [String c (String c1 (String c2 EmptyString))]
                    | String c3 s4 =>
                        String c (String c1 (String c2 (String c3 EmptyString)))
                        :: chars s4
                    end
              end
        end
  end.

(** The character with the given UTF-8 bytes. *)
Definition bytes (l : list nat) : string := string_of_list_ascii (map ascii_of_nat l).

(** The characters [str.isspace] holds of, which [strip()] and [split()]
    pass over: U+0009..U+000D, U+001C..U+0020, U+0085, U+00A0, U+1680,
    U+2000..U+200A, U+2028, U+2029, U+202F, U+205F and U+3000. *)
Definition whitespace : list string :=
  map bytes
    [[9]; [10]; [11]; [12]; [13]; [28]; [29]; [30]; [31]; [32];
     [194; 133]; [194; 160]; [225; 154; 128];
     [226; 128; 128]; [226; 128; 129]; [226; 128; 130]; [226; 128; 131];
     [226; 128; 132]; [226; 128; 133]; [226; 128; 134]; [226; 128; 135];
     [226; 128; 136]; [226; 128; 137]; [226; 128; 138];
     [226; 128; 168]; [226; 128; 169]; [226; 128; 175];
     [226; 129; 159]; [227; 128; 128]].

(** [ch.isspace()] for one character. *)
Definition isspace (ch : string) : bool := existsb (String.eqb ch) whitespace.

(** The characters left when the whitespace at the head is passed over. *)
Fixpoint lstrip_chars (l : list string) : list string :=
  match l with
  | [] => []
  | ch :: l' => if isspace ch then lstrip_chars l' else l
  end.

Definition is_nl (c : ascii) : bool := Ascii.eqb c nl.

Fixpoint lstrip_by (p : ascii -> bool) (s : string) : string :=
  match s with
  | EmptyString => EmptyString
  | String c s' => if p c then lstrip_by p s' else s
  end.

Fixpoint rstrip_by (p : ascii -> bool) (s : string) : string :=
  match s with
  | EmptyString => EmptyString
  | String c s' =>
      match rstrip_by p s' with
      | EmptyString => if p c then EmptyString else String c EmptyString
      | r => String c r
      end
  end.

(** [s.strip()]: the text without the whitespace characters at its two
    ends. *)
Definition strip (s : string) : string :=
  fold_right String.append EmptyString
    (rev (lstrip_chars (rev (lstrip_chars (chars s))))).

(** [s.rstrip('\n')] *)
Definition rstrip_nl (s : string) : string := rstrip_by is_nl s.

(** [s.split(sep)] for a one-character separator: never the empty list. *)
Fixpoint split (sep : ascii) (s : string) : list string :=
  match s with
  | EmptyString => [EmptyString]
  | String c s' =>
      if Ascii.eqb c sep then EmptyString :: split sep s'
      else match split sep s' with
           | f :: fs => String c f :: fs
           | [] => [String c EmptyString]
           end
  end.

(** The words of a list of characters; [cur] is the word begun, empty
    when none is. *)
Fixpoint words (cur : string) (l : list string) : list string :=
  match l with
  | [] => if String.eqb cur EmptyString then [] else [cur]
  | ch :: l' =>
      if isspace ch
      then if String.eqb cur EmptyString then words EmptyString l'
           else cur :: words EmptyString l'
      else words (cur +:+ ch) l'
  end.

(** [s.split()]: the maximal runs of characters that are no whitespace. *)
Definition split_ws (s : string) : list string := words EmptyString (chars s).

Fixpoint rsplit_last (sep : ascii) (s : string) : option (string * string) :=
  match s with
  | EmptyString => None
  | String c s' =>
      match rsplit_last sep s' with
      | Some (a, b) => Some (String c a, b)
      | None => if Ascii.eqb c sep then Some (EmptyString, s') else None
      end
  end.

(** [s.rsplit(sep, 1)] *)
Definition rsplit1 (sep : ascii) (s : string) : list string :=
  match rsplit_last sep s with
  | Some (a, b) => [a; b]
  | None => [s]
  end.

(** [a, b = l]: unpacking into two names. *)
Definition unpack2 {A : Type} (l : list A) : result (A * A) :=
  match l with
  | [a; b] => Ok (a, b)
  | _ => Raise ValueError
  end.

(** [sep.join(l)] *)
Fixpoint join (sep : string) (l : list string) : string :=
  match l with
  | [] => EmptyString
  | x :: xs =>
      match xs with
      | [] => x
      | _ :: _ => x +:+ sep +:+ join sep xs
      end
  end.

(** [s.replace(a, b)] for one-character [a] and [b]. *)
Fixpoint replace_char (a b : ascii) (s : string) : string :=
  match s with
  | EmptyString => EmptyString
  | String c s' => String (if Ascii.eqb c a then b else c) (replace_char a b s')
  end.

(** [s.replace(old, new)] for a non-empty [old]: occurrences are replaced
    from the left and do not overlap; [skip] counts the characters of the
    occurrence just replaced that are still to be passed over. *)
Fixpoint replace_go (old new : string) (skip : nat) (s : string) : string :=
  match s with
  | EmptyString => EmptyString
  | String c s' =>
      match skip with
      | S k => replace_go old new k s'
      | O =>
          if String.prefix old s
          then new +:+ replace_go old new (String.length old - 1) s'
          else String c (replace_go old new 0 s')
      end
  end.

Definition replace (old new s : string) : string := replace_go old new 0 s.

(** [s.startswith(c)] for a one-character prefix. *)
Definition startswith (c : ascii) (s : string) : bool :=
  match s with
  | String c' _ => Ascii.eqb c' c
  | EmptyString => false
  end.

(** [s.endswith(suf)] *)
Fixpoint endswith (suf s : string) : bool :=
  if String.eqb s suf then true
  else match s with
       | EmptyString => false
       | String _ s' => endswith suf s'
       end.

(** [c in s] for a character. *)
Fixpoint contains (c : ascii) (s : string) : bool :=
  match s with
  | EmptyString => false
  | String c' s' => Ascii.eqb c' c || contains c s'
  end.

(** [l[i]] *)
Definition index {A : Type} (l : list A) (i : nat) : result A :=
  match l !! i with
  | Some x => Ok x
  | None => Raise IndexError
  end.

(** [l[-1]] *)
Definition index_last {A : Type} (l : list A) : result A :=
  match List.rev l with
  | x :: _ => Ok x
  | [] => Raise IndexError
  end.

(** [cols[-1] = x] on a non-empty list. *)
Definition set_last {A : Type} (l : list A) (x : A) : result (list A) :=
  match l with
  | [] => Raise IndexError
  | _ :: _ => Ok (removelast l ++ [x])
  end.

(** [bool(s)] for a string. *)
Definition truthy (s : string) : bool := negb (String.eqb s "").

(** [a > b] on strings: code-point order. *)
Definition str_gt (a b : string) : bool := String.ltb b a.

(** [f.readlines()], and the iteration [for line in f], over the text of a
    file (after the newline translation of text mode): every line keeps its
    final newline; the last one may have none. *)
Fixpoint readlines (s : string) : list string :=
  match s with
  | EmptyString => []
  | String c s' =>
      if is_nl c then String c EmptyString :: readlines s'
      else match readlines s' with
           | l :: ls => String c l :: ls
           | [] => [String c EmptyString]
           end
  end.

(** [f.writelines(l)] *)
Definition writelines (l : list string) : string := fold_right String.append "" l.

(** [f"{n}"] for a length or a line number. *)
Definition str_nat (n : nat) : string := pretty (N.of_nat n).

Fixpoint zeros (k : nat) : string :=
  match k with
  | O => EmptyString
  | S k' => String "0" (zeros k')
  end.

(** [f"{n:08d}"]: the sign, then the digits filled with zeros on the left
    up to a total width of 8. *)
Definition fmt_08d (n : Z) : string :=
  let digits := pretty (Z.abs_N n) in
  if (n <? 0)%Z
  then String "-" (zeros (7 - String.length digits) +:+ digits)
  else zeros (8 - String.length digits) +:+ digits.

End Py.

(** ** The numeric conversions of the interpreter *)

Class PyNum : Type := {
  (** [int(s)]: [None] stands for [ValueError]. *)
  py_int : string -> option Z;
  (** The values [float(s)] returns, with [==] and [>] on them. *)
  float : Type;
  py_float : string -> option float;
  float_eq : float -> float -> bool;
  float_gt : float -> float -> bool
}.

(** [x != x]: the float is a NaN. *)
Definition is_nan `{PyNum} (x : float) : bool := negb (float_eq x x).

(** [==] and [>] on floats: a comparison with a NaN is false, and on the
    other floats they are those of a strict total order. *)
Class PyFloatOrder `{PyNum} : Prop := {
  float_eq_sym : forall x y, float_eq x y = true -> float_eq y x = true;
  float_eq_trans : forall x y z,
    float_eq x y = true -> float_eq y z = true -> float_eq x z = true;
  float_gt_irrefl : forall x y, float_eq x y = true -> float_gt x y = false;
  float_gt_trans : forall x y z,
    float_gt x y = true -> float_gt y z = true -> float_gt x z = true;
  float_gt_eq_l : forall x y z,
    float_eq x y = true -> float_gt x z = float_gt y z;
  float_gt_eq_r : forall x y z,
    float_eq x y = true -> float_gt z x = float_gt z y;
  float_gt_number : forall x y,
    float_gt x y = true -> is_nan x = false /\ is_nan y = false;
  float_total : forall x y,
    is_nan x = false -> is_nan y = false ->
    float_eq x y = false -> float_gt x y = true \/ float_gt y x = true
}.

Module AsciiNumDefs.

Definition digit_val (c : ascii) : option Z :=
  let n := nat_of_ascii c in
  if (48 <=? n) && (n <=? 57) then Some (Z.of_nat (n - 48)) else None.

(** Decimal digits, single underscores allowed between two digits. *)
Fixpoint int_digits (acc : Z) (after_digit : bool) (s : string) : option Z :=
  match s with
  | EmptyString => if after_digit then Some acc else None
  | String c s' =>
      match digit_val c with
      | Some d => int_digits (10 * acc + d)%Z true s'
      | None =>
          if Ascii.eqb c "_" && after_digit then int_digits acc false s' else None
      end
  end.

(** The whitespace [int] and [float] pass over at both ends of ASCII
    text: TAB..CR and the space. *)
Definition is_c_space (c : ascii) : bool :=
  let n := nat_of_ascii c in
  ((9 <=? n) && (n <=? 13)) || (n =? 32).

Definition strip_c (s : string) : string :=
  Py.lstrip_by is_c_space (Py.rstrip_by is_c_space s).

Definition signed (s : string) : bool * string :=
  match s with
  | String "-" s' => (true, s')
  | String "+" s' => (false, s')
  | _ => (false, s)
  end.

(** [int(s)] on ASCII text: surrounding whitespace, an optional sign, digits. *)
Definition int_of_str (s : string) : option Z :=
  let '(neg, body) := signed (strip_c s) in
  match int_digits 0 false body with
  | Some n => Some (if neg then (- n)%Z else n)
  | None => None
  end.

(** The fraction digits of a decimal literal: numerator and number of digits. *)
Fixpoint frac_digits (num : Z) (k : nat) (s : string) : option (Z * nat) :=
  match s with
  | EmptyString => Some (num, k)
  | String c s' =>
      match digit_val c with
      | Some d => frac_digits (10 * num + d)%Z (S k) s'
      | None => None
      end
  end.

Fixpoint dec_digits (num : Z) (seen : bool) (s : string) : option (Z * nat) :=
  match s with
  | EmptyString => if seen then Some (num, O) else None
  | String c s' =>
      match digit_val c with
      | Some d => dec_digits (10 * num + d)%Z true s'
      | None =>
          if Ascii.eqb c "."
          then match s' with
               | EmptyString => if seen then Some (num, O) else None
               | _ => frac_digits num O s'
               end
          else None
      end
  end.

(** [float(s)] on plain decimal literals ([12], [0.95], [.5], [3.]), with
    the exact value of the literal; every other text is refused (the
    interpreter reads more: exponents, underscores, [inf], [nan]). *)
Definition dec_of_str (s : string) : option Q :=
  let '(neg, body) := signed (strip_c s) in
  match dec_digits 0 false body with
  | Some (num, k) =>
      let q := Qmake num (Pos.pow 10 (Pos.of_nat k)) in
      let q := match k with O => inject_Z num | S _ => q end in
      Some (if neg then Qopp q else q)
  | None => None
  end.

End AsciiNumDefs.

(** The instance the examples are evaluated with. *)
Definition AsciiNum : PyNum := {|
  py_int := AsciiNumDefs.int_of_str;
  float := Q;
  py_float := AsciiNumDefs.dec_of_str;
  float_eq := Qeq_bool;
  float_gt := fun x y => negb (Qle_bool x y)
|}.

(** An instance with a NaN: the floats are the decimals of [AsciiNum] and
    one more value, [None], which [float] returns for the text [nan] and
    on which every comparison is false. *)
Definition NanNum : PyNum := {|
  py_int := AsciiNumDefs.int_of_str;
  float := option Q;
  py_float := fun s =>
    match AsciiNumDefs.dec_of_str s with
    | Some q => Some (Some q)
    | None => if String.eqb (AsciiNumDefs.strip_c s) "nan" then Some None else None
    end;
  float_eq := fun x y =>
    match x, y with
    | Some a, Some b => Qeq_bool a b
    | _, _ => false
    end;
  float_gt := fun x y =>
    match x, y with
    | Some a, Some b => negb (Qle_bool a b)
    | _, _ => false
    end
|}.

(** ** fix_malformed_tsv.py *)

Module FixTsv.
Import Py.

Record Stats : Type := {
  total_lines : nat;
  merged_lines : nat;
  fixed_wordn : nat;
  output_lines : nat
}.

(** The state of the [while] loop besides the index [i]: [fixed_lines] and
    the two counters of [stats] the loop updates. *)
Record Loop : Type := {
  fixed_lines : list string;
  n_merged : nat;
  n_wordn : nat
}.

Definition cols_of (line : string) : list string := split tab (rstrip_nl line).

(** The test of the look-ahead: the line has 7 or 8 columns, and the next
    one has two, the first starting with a quotation mark. *)
Definition is_split_pair (cols next_cols : list string) : bool :=
  (length cols <? 9) && (7 <=? length cols)
  && (length next_cols =? 2)
  && match next_cols with
     | c0 :: _ => startswith dquote c0
     | [] => false
     end.

(** [cols[-1] = merged_gloss; cols.append(next_cols[1]); '\t'.join(cols) + '\n'] *)
Definition merge_pair (cols next_cols : list string) : result string :=
  last_col ← index_last cols;
  c0 ← index next_cols 0;
  let merged_gloss := replace_char nl " " (last_col +:+ String nl c0) in
  cols' ← set_last cols merged_gloss;
  c1 ← index next_cols 1;
  Ok (join (String tab "") (cols' ++ [c1]) +:+ String nl "").

(** [fixed_lines.append(line + '\n')] *)
Definition append_line (line : string) (st : Loop) : Loop :=
  {| fixed_lines := fixed_lines st ++ [line +:+ String nl ""];
     n_merged := n_merged st;
     n_wordn := n_wordn st |}.

(** The part of the loop body below the split-line check: a [WordN]
    relation in a line of 9 columns or more becomes [Hypernymy]; the line
    is appended. *)
Definition fix_single (line : string) (cols : list string) (st : Loop) : result Loop :=
  if 9 <=? length cols
  then
    last_col ← index_last cols;
    if String.eqb (strip last_col) "WordN"
    then
      cols' ← set_last cols "Hypernymy";
      Ok (append_line (join (String tab "") cols')
            {| fixed_lines := fixed_lines st;
               n_merged := n_merged st;
               n_wordn := S (n_wordn st) |})
    else Ok (append_line line st)
  else Ok (append_line line st).

(** [while i < len(lines)]: the argument is [lines[i:]]; a merge continues
    with [lines[i+2:]], every other step with [lines[i+1:]]. *)
Fixpoint fix_loop (lines : list string) (st : Loop) : result Loop :=
  match lines with
  | [] => Ok st
  | l :: rest =>
      let line := rstrip_nl l in
      let cols := split tab line in
      match rest with
      | next :: rest' =>
          if is_split_pair cols (cols_of next)
          then
            merged_line ← merge_pair cols (cols_of next);
            fix_loop rest' {| fixed_lines := fixed_lines st ++ [merged_line];
                              n_merged := S (n_merged st);
                              n_wordn := n_wordn st |}
          else
            st' ← fix_single line cols st;
            fix_loop rest st'
      | [] =>
          st' ← fix_single line cols st;
          fix_loop rest st'
      end
  end.

Definition loop_init : Loop := {| fixed_lines := []; n_merged := 0; n_wordn := 0 |}.

(** A line as [fix_tsv] writes them: it ends with its only newline. *)
Definition is_out_line (l : string) : Prop :=
  exists x, contains nl x = false /\ l = x +:+ String nl "".

(** A loop state after [out] more lines, [m] more merges and [w] more
    [WordN] fixes. *)
Definition extend (st : Loop) (out : list string) (m w : nat) : Loop :=
  {| fixed_lines := fixed_lines st ++ out;
     n_merged := n_merged st + m;
     n_wordn := n_wordn st + w |}.

(** The line two split lines are merged into: the continuation joined onto
    the last column with a space, and the relation appended. *)
Definition merged_of (cols : list string) (c0 c1 : string) : list string :=
  removelast cols ++ [List.last cols "" +:+ " " +:+ c0; c1].

(** [fix_tsv(input_path, output_path)] on the text of the input file: the
    statistics it returns and the text it writes. *)
Definition fix_tsv (input : string) : result (Stats * string) :=
  let lines := readlines input in
  st ← fix_loop lines loop_init;
  Ok ({| total_lines := length lines;
         merged_lines := n_merged st;
         fixed_wordn := n_wordn st;
         output_lines := length (fixed_lines st) |},
      writelines (fixed_lines st)).

End FixTsv.

(** ** map2ili.py *)

(** [for x in l: s = f(s, x)], stopping at the first exception. *)
Fixpoint foldM {A St : Type} (f : St -> A -> result St) (s : St) (l : list A) : result St :=
  match l with
  | [] => Ok s
  | x :: xs => s' ← f s x; foldM f s' xs
  end.

(** [for i, x in enumerate(l, start)] *)
Fixpoint foldM_i {A St : Type} (f : nat -> St -> A -> result St) (i : nat) (s : St)
    (l : list A) : result St :=
  match l with
  | [] => Ok s
  | x :: xs => s' ← f i s x; foldM_i f (S i) s' xs
  end.

Fixpoint mapM_result {A B : Type} (f : A -> result B) (l : list A) : result (list B) :=
  match l with
  | [] => Ok []
  | x :: xs => y ← f x; ys ← mapM_result f xs; Ok (y :: ys)
  end.

Definition is_some {A : Type} (o : option A) : bool :=
  match o with
  | Some _ => true
  | None => false
  end.

Module Map2ili.
Import Py.

Definition IWN_EN_DATA : string := "etc/IWN-En/data/english-hindi-linked-fixed.tsv".
Definition PWN_MAP_DIR : string := "etc/mappings-upc-2007/mapping-21-30/".

Definition PosTag : gmap string string :=
  <["NOUN" := "n"]> (<["VERB" := "v"]> (<["ADVERB" := "r"]> (<["ADJECTIVE" := "a"]> ∅))).

(** [d[k]] *)
Definition dict_get {V : Type} (d : gmap string V) (k : string) : result V :=
  match d !! k with
  | Some v => Ok v
  | None => Raise KeyError
  end.

(** [open(path)] and the text read from it: the files are a map from paths
    to texts; a path that is not there raises. *)
Definition open_read (fs : gmap string string) (path : string) : result string :=
  match fs !! path with
  | Some text => Ok text
  | None => Raise OSError
  end.

(** *** The wordnet database (the [wn] package)

    Only what the script reads of it: [ewn.synset(id=...)] returns a synset
    or raises [wn.Error]; a synset has an [ili], which may be [None]; an ILI
    has an [id], which is [None] for a proposed ILI. Synset and ILI objects
    are truthy. *)

Record ILI : Type := { ili_id : option string }.
Record Synset : Type := { synset_ili : option ILI }.

Definition ewn_synset (ewn : gmap string Synset) (id : string) : result Synset :=
  match ewn !! id with
  | Some s => Ok s
  | None => Raise WnError
  end.

(** The same call, with the identifiers asked for so far. *)
Definition ewn_synset_log (ewn : gmap string Synset) (id : string) (log : list string)
    : result Synset * list string :=
  (ewn_synset ewn id, log ++ [id]).

(** *** load_pwn_map *)

Definition files : list (string * string) :=
  [("wn21-30.adj", "a"); ("wn21-30.adv", "r"); ("wn21-30.noun", "n"); ("wn21-30.verb", "v")].

(** [max(l)]: the first element is kept until a greater one comes. *)
Definition py_max {A : Type} (gt : A -> A -> bool) (l : list A) : result A :=
  match l with
  | [] => Raise ValueError
  | x :: xs => Ok (fold_left (fun best y => if gt y best then y else best) xs x)
  end.

Section Versions.
Context {PN : PyNum}.

(** [(float(parts[i+1]), parts[i]) for i in range(1, len(parts), 2)]; the
    argument is [parts[i:]]. *)
Fixpoint pairs_of (rest : list string) : result (list (float * string)) :=
  match rest with
  | [] => Ok []
  | off :: rest' =>
      match rest' with
      | [] => Raise IndexError
      | sc :: rest'' =>
          match py_float sc with
          | None => Raise ValueError
          | Some x => ps ← pairs_of rest''; Ok ((x, off) :: ps)
          end
      end
  end.

(** [a > b] on tuples [(float, str)]: the first component that differs
    decides. *)
Definition pair_gt (a b : float * string) : bool :=
  if float_eq a.1 b.1
  then if String.eqb a.2 b.2 then false else str_gt a.2 b.2
  else float_gt a.1 b.1.

(** [a <= b] in the order in which tuples sort: a lower score, or the same
    score and a string that is not greater. *)
Definition pair_le (a b : float * string) : Prop :=
  float_gt b.1 a.1 = true \/ (float_eq a.1 b.1 = true /\ String.leb a.2 b.2 = true).

(** The fields of a line of a mapping file: the older offset, then the
    newer offset and the score of every candidate. *)
Definition line_parts (offset_21 : string) (cands : list (string * string)) : list string :=
  offset_21 :: flat_map (fun c => [c.1; c.2]) cands.

(** The body of the loop over the lines of one mapping file. *)
Definition pwn_line (pos : string) (map2130 : gmap string string) (line : string)
    : result (gmap string string) :=
  let parts := split_ws (strip line) in
  if length parts <? 3 then Ok map2130
  else
    offset_21 ← index parts 0;
    pairs ← pairs_of (drop 1 parts);
    best ← py_max pair_gt pairs;
    let best_offset_30 := best.2 in
    let key := offset_21 +:+ "-" +:+ pos in
    let val := best_offset_30 +:+ "-" +:+ pos in
    Ok (<[key := val]> map2130).

Definition pwn_file (fs : gmap string string) (map2130 : gmap string string)
    (file : string * string) : result (gmap string string) :=
  let '(filename, pos) := file in
  text ← open_read fs (PWN_MAP_DIR +:+ filename);
  foldM (pwn_line pos) map2130 (readlines text).

Definition load_pwn_map (fs : gmap string string) : result (gmap string string) :=
  foldM (pwn_file fs) ∅ files.

End Versions.

(** *** lookup_synset *)

(** With the log of the identifiers asked of the database. *)
Definition lookup_synset_log (ewn : gmap string Synset) (pwn30_key : string)
    (log : list string) : result (option Synset * option string) * list string :=
  match unpack2 (rsplit1 dash pwn30_key) with
  | Raise e => (Raise e, log)
  | Ok (offset, pos) =>
      let omw_id := "omw-en-" +:+ pwn30_key in
      match ewn_synset_log ewn omw_id log with
      | (Ok synset, log1) => (Ok (Some synset, Some pwn30_key), log1)
      | (Raise WnError, log1) =>
          if String.eqb pos "a"
          then
            let sat_key := offset +:+ "-s" in
            let omw_id := "omw-en-" +:+ sat_key in
            match ewn_synset_log ewn omw_id log1 with
            | (Ok synset, log2) => (Ok (Some synset, Some sat_key), log2)
            | (Raise WnError, log2) => (Ok (None, None), log2)
            | (Raise e, log2) => (Raise e, log2)
            end
          else (Ok (None, None), log1)
      | (Raise e, log1) => (Raise e, log1)
      end
  end.

Definition lookup_synset (ewn : gmap string Synset) (pwn30_key : string)
    : result (option Synset * option string) :=
  (lookup_synset_log ewn pwn30_key []).1.

(** *** Records and issues *)

(** One entry dict. The keys [ili] and [pwn30_key] are added by the
    duplicate detector: [None] is a missing key, [Some None] the value
    [None]. *)
Record Entry : Type := {
  iwn_id : string;
  iwn_pos : string;
  pwn21_offset : string;
  pwn21_pos : string;
  english_lemmas : string;
  english_gloss : string;
  hindi_lemmas : string;
  hindi_gloss : string;
  original_rel : string;
  rel : string;
  iwn_key : string;
  pwn21_key : string;
  ili : option (option string);
  pwn30_key : option (option string)
}.

Definition set_rel (r : string) (e : Entry) : Entry :=
  {| iwn_id := iwn_id e; iwn_pos := iwn_pos e; pwn21_offset := pwn21_offset e;
     pwn21_pos := pwn21_pos e; english_lemmas := english_lemmas e;
     english_gloss := english_gloss e; hindi_lemmas := hindi_lemmas e;
     hindi_gloss := hindi_gloss e; original_rel := original_rel e;
     rel := r; iwn_key := iwn_key e; pwn21_key := pwn21_key e;
     ili := ili e; pwn30_key := pwn30_key e |}.

Definition set_ili (i : option string) (e : Entry) : Entry :=
  {| iwn_id := iwn_id e; iwn_pos := iwn_pos e; pwn21_offset := pwn21_offset e;
     pwn21_pos := pwn21_pos e; english_lemmas := english_lemmas e;
     english_gloss := english_gloss e; hindi_lemmas := hindi_lemmas e;
     hindi_gloss := hindi_gloss e; original_rel := original_rel e;
     rel := rel e; iwn_key := iwn_key e; pwn21_key := pwn21_key e;
     ili := Some i; pwn30_key := pwn30_key e |}.

Definition set_pwn30_key (k : option string) (e : Entry) : Entry :=
  {| iwn_id := iwn_id e; iwn_pos := iwn_pos e; pwn21_offset := pwn21_offset e;
     pwn21_pos := pwn21_pos e; english_lemmas := english_lemmas e;
     english_gloss := english_gloss e; hindi_lemmas := hindi_lemmas e;
     hindi_gloss := hindi_gloss e; original_rel := original_rel e;
     rel := rel e; iwn_key := iwn_key e; pwn21_key := pwn21_key e;
     ili := ili e; pwn30_key := Some k |}.

(** [entry.get('ili')] when it is truthy: a non-empty string. *)
Definition get_ili (e : Entry) : option string :=
  match ili e with
  | Some (Some i) => if truthy i then Some i else None
  | _ => None
  end.

(** The four text fields every missing-link issue copies. *)
Record Texts : Type := {
  t_english_lemmas : string;
  t_english_gloss : string;
  t_hindi_lemmas : string;
  t_hindi_gloss : string
}.

Definition texts_of (e : Entry) : Texts :=
  {| t_english_lemmas := english_lemmas e; t_english_gloss := english_gloss e;
     t_hindi_lemmas := hindi_lemmas e; t_hindi_gloss := hindi_gloss e |}.

Record Malformed : Type := {
  line_number : nat;
  error : string;
  original_line : string
}.

Record IwnRef : Type := {
  ref_iwn_id : string;
  ref_hindi_lemmas : string;
  ref_hindi_gloss : string
}.

Record DuplicateIli : Type := {
  dup_ili : string;
  dup_pwn30_key : option string;
  dup_english_lemmas : string;
  dup_english_gloss : string;
  iwn_entries : list IwnRef
}.

(** The optional key [rel] is ['hyper'] in the issues of the final mapping
    builder and missing in those of the duplicate detector. *)
Record MissingPwn30 : Type := {
  mp_iwn_id : string;
  mp_pwn21_key : string;
  mp_rel : option string;
  mp_texts : Texts
}.

Record MissingOmw : Type := {
  mo_iwn_id : string;
  mo_pwn21_key : string;
  mo_pwn30_key : string;
  mo_omw_id_tried : list string;
  mo_rel : option string;
  mo_texts : Texts
}.

Record MissingIli : Type := {
  mi_iwn_id : string;
  mi_pwn21_key : string;
  mi_pwn30_key : option string;
  mi_omw_id : string;
  mi_rel : option string;
  mi_texts : Texts
}.

Record Issues : Type := {
  malformed_lines : list Malformed;
  duplicate_ili : list DuplicateIli;
  missing_pwn30 : list MissingPwn30;
  missing_omw : list MissingOmw;
  missing_ili : list MissingIli
}.

Definition no_issues : Issues :=
  {| malformed_lines := []; duplicate_ili := []; missing_pwn30 := [];
     missing_omw := []; missing_ili := [] |}.

Definition add_malformed (x : Malformed) (i : Issues) : Issues :=
  {| malformed_lines := malformed_lines i ++ [x]; duplicate_ili := duplicate_ili i;
     missing_pwn30 := missing_pwn30 i; missing_omw := missing_omw i;
     missing_ili := missing_ili i |}.

Definition add_duplicate_ili (x : DuplicateIli) (i : Issues) : Issues :=
  {| malformed_lines := malformed_lines i; duplicate_ili := duplicate_ili i ++ [x];
     missing_pwn30 := missing_pwn30 i; missing_omw := missing_omw i;
     missing_ili := missing_ili i |}.

Definition add_missing_pwn30 (x : MissingPwn30) (i : Issues) : Issues :=
  {| malformed_lines := malformed_lines i; duplicate_ili := duplicate_ili i;
     missing_pwn30 := missing_pwn30 i ++ [x]; missing_omw := missing_omw i;
     missing_ili := missing_ili i |}.

Definition add_missing_omw (x : MissingOmw) (i : Issues) : Issues :=
  {| malformed_lines := malformed_lines i; duplicate_ili := duplicate_ili i;
     missing_pwn30 := missing_pwn30 i; missing_omw := missing_omw i ++ [x];
     missing_ili := missing_ili i |}.

Definition add_missing_ili (x : MissingIli) (i : Issues) : Issues :=
  {| malformed_lines := malformed_lines i; duplicate_ili := duplicate_ili i;
     missing_pwn30 := missing_pwn30 i; missing_omw := missing_omw i;
     missing_ili := missing_ili i ++ [x] |}.

(** [f"{x}"] for a value that is a string or [None]. *)
Definition fmt_opt (o : option string) : string :=
  match o with
  | Some s => s
  | None => "None"
  end.

(** The list under [omw_id_tried]. *)
Definition omw_id_tried (pwn30_key : string) : list string :=
  if endswith "-a" pwn30_key
  then ["omw-en-" +:+ pwn30_key; "omw-en-" +:+ replace "-a" "-s" pwn30_key]
  else ["omw-en-" +:+ pwn30_key].

(** *** load_iwn_map *)

Definition reject (lineno : nat) (msg line : string) (st : list Entry * Issues)
    : list Entry * Issues :=
  (st.1, add_malformed {| line_number := lineno; error := msg;
                          original_line := rstrip_nl line |} st.2).

(** [rel_type == 'Direct'], [elif rel_type == 'Hypernymy'], [else]. *)
Definition rel_of (rel_type : string) : option string :=
  if String.eqb rel_type "Direct" then Some "equal"
  else if String.eqb rel_type "Hypernymy" then Some "hyper"
  else None.

Section Parser.
Context {PN : PyNum}.

(** The body of the loop over the lines of the TSV file; the state is the
    list [entries] and the dict [issues]. *)
Definition load_line (lineno : nat) (st : list Entry * Issues) (line : string)
    : result (list Entry * Issues) :=
  let row := split tab (strip line) in
  row0 ← index row 0;
  if String.eqb row0 "iwn_id" then Ok st
  else if length row <? 9
  then Ok (reject lineno ("only " +:+ str_nat (length row) +:+ " columns") line st)
  else
    last ← index_last row;
    let rel_type := strip last in
    match rel_of rel_type with
    | None => Ok (reject lineno ("unknown rel '" +:+ rel_type +:+ "'") line st)
    | Some rel =>
        row1 ← index row 1;
        match PosTag !! row1 with
        | None => Ok (reject lineno ("unknown IWN POS '" +:+ row1 +:+ "'") line st)
        | Some _ =>
            row3 ← index row 3;
            match PosTag !! row3 with
            | None => Ok (reject lineno ("unknown PWN POS '" +:+ row3 +:+ "'") line st)
            | Some _ =>
                row2 ← index row 2;
                match py_int row2 with
                | None =>
                    Ok (reject lineno ("invalid PWN offset '" +:+ row2 +:+ "'") line st)
                | Some pwn_offset =>
                    row4 ← index row 4;
                    row5 ← index row 5;
                    row6 ← index row 6;
                    row7 ← index row 7;
                    tag1 ← dict_get PosTag row1;
                    tag3 ← dict_get PosTag row3;
                    let entry :=
                      {| iwn_id := row0; iwn_pos := row1; pwn21_offset := row2;
                         pwn21_pos := row3; english_lemmas := row4;
                         english_gloss := row5; hindi_lemmas := row6;
                         hindi_gloss := row7; original_rel := rel_type; rel := rel;
                         iwn_key := row0 +:+ "_" +:+ tag1;
                         pwn21_key := fmt_08d pwn_offset +:+ "-" +:+ tag3;
                         ili := None; pwn30_key := None |} in
                    Ok (st.1 ++ [entry], st.2)
                end
            end
        end
    end.

(** What the parser asks of a row to make a record of it: at least 9
    columns, a last column that is [Direct] or [Hypernymy] once stripped, a
    POS tag of [PosTag] in the second and in the fourth column, and a third
    column that [int] reads. *)
Definition well_formed_row (row : list string) : bool :=
  (9 <=? length row)
  && is_some (rel_of (strip (List.last row "")))
  && is_some (PosTag !! nth 1 row "")
  && is_some (PosTag !! nth 3 row "")
  && is_some (py_int (nth 2 row "")).

(** The record of a well-formed row. *)
Definition entry_of_row (row : list string) : Entry :=
  {| iwn_id := nth 0 row ""; iwn_pos := nth 1 row "";
     pwn21_offset := nth 2 row ""; pwn21_pos := nth 3 row "";
     english_lemmas := nth 4 row ""; english_gloss := nth 5 row "";
     hindi_lemmas := nth 6 row ""; hindi_gloss := nth 7 row "";
     original_rel := strip (List.last row "");
     rel := default "" (rel_of (strip (List.last row "")));
     iwn_key := nth 0 row "" +:+ "_" +:+ default "" (PosTag !! nth 1 row "");
     pwn21_key := fmt_08d (default 0%Z (py_int (nth 2 row "")))
                  +:+ "-" +:+ default "" (PosTag !! nth 3 row "");
     ili := None; pwn30_key := None |}.

Definition load_iwn_map (fs : gmap string string) (issues : Issues)
    : result (list Entry * Issues) :=
  text ← open_read fs IWN_EN_DATA;
  foldM_i load_line 1 ([], issues) (readlines text).

End Parser.

(** *** detect_and_mark_dupes *)

(** One duplicate group; its entries are references to the entry objects,
    that is positions in the list [entries]. *)
Record DupeGroup : Type := {
  group_ili : string;
  group_entries : list nat
}.

(** [actual_key or pwn30_key] *)
Definition py_or (a : option string) (b : string) : string :=
  match a with
  | Some s => if truthy s then s else b
  | None => b
  end.

(** First pass, one entry: the ILI of a Direct entry is resolved. *)
Definition first_pass_entry (map2130 : gmap string string) (ewn : gmap string Synset)
    (entry : Entry) (issues : Issues) : result (Entry * Issues) :=
  if negb (String.eqb (rel entry) "equal") then Ok (entry, issues)
  else
    let k21 := pwn21_key entry in
    match map2130 !! k21 with
    | None =>
        Ok (set_pwn30_key None (set_ili None entry),
            add_missing_pwn30
              {| mp_iwn_id := iwn_id entry; mp_pwn21_key := k21; mp_rel := None;
                 mp_texts := texts_of entry |} issues)
    | Some k30 =>
        '(synset, actual_key) ← lookup_synset ewn k30;
        let entry := set_pwn30_key (Some (py_or actual_key k30)) entry in
        match synset with
        | Some synset =>
            let i := synset_ili synset in
            let entry :=
              set_ili (match i with Some i => ili_id i | None => None end) entry in
            match i with
            | Some _ => Ok (entry, issues)
            | None =>
                Ok (entry,
                    add_missing_ili
                      {| mi_iwn_id := iwn_id entry; mi_pwn21_key := k21;
                         mi_pwn30_key := actual_key;
                         mi_omw_id := "omw-en-" +:+ fmt_opt actual_key;
                         mi_rel := None; mi_texts := texts_of entry |} issues)
            end
        | None =>
            Ok (set_ili None entry,
                add_missing_omw
                  {| mo_iwn_id := iwn_id entry; mo_pwn21_key := k21;
                     mo_pwn30_key := k30; mo_omw_id_tried := omw_id_tried k30;
                     mo_rel := None; mo_texts := texts_of entry |} issues)
        end
    end.

(** The loop of the first pass: the entries already visited, and the issues. *)
Definition first_pass_step (map2130 : gmap string string) (ewn : gmap string Synset)
    (st : list Entry * Issues) (entry : Entry) : result (list Entry * Issues) :=
  '(entry', issues') ← first_pass_entry map2130 ewn entry st.2;
  Ok (st.1 ++ [entry'], issues').

(** [d[k].append(j)] on a [defaultdict(list)], which keeps the order in
    which its keys were first used. *)
Fixpoint dd_append (d : list (string * list nat)) (k : string) (j : nat)
    : list (string * list nat) :=
  match d with
  | [] => [(k, [j])]
  | (k', js) :: d' =>
      if String.eqb k' k then (k', js ++ [j]) :: d'
      else (k', js) :: dd_append d' k j
  end.

(** Second pass: the Direct entries with an ILI, grouped by it; [j] is the
    position of the first entry of the list. *)
Fixpoint group_from (j : nat) (entries : list Entry) (d : list (string * list nat))
    : list (string * list nat) :=
  match entries with
  | [] => d
  | entry :: rest =>
      group_from (S j) rest
        (if String.eqb (rel entry) "equal"
         then match get_ili entry with
              | Some i => dd_append d i j
              | None => d
              end
         else d)
  end.

(** [sorted(l, key=...)] is stable: among equal keys the earlier stays first. *)
Fixpoint insert_by_key (x : Z * nat) (l : list (Z * nat)) : list (Z * nat) :=
  match l with
  | [] => [x]
  | y :: l' => if (y.1 <? x.1)%Z then y :: insert_by_key x l' else x :: y :: l'
  end.

Definition sort_by_key (l : list (Z * nat)) : list (Z * nat) :=
  fold_right insert_by_key [] l.

Record Marking : Type := {
  m_entries : list Entry;
  m_groups : list DupeGroup;
  m_issues : Issues
}.

Definition iwn_ref (e : Entry) : IwnRef :=
  {| ref_iwn_id := iwn_id e; ref_hindi_lemmas := hindi_lemmas e;
     ref_hindi_gloss := hindi_gloss e |}.

(** [for entry in ili_entries: entry['rel'] = 'dupe'] *)
Definition mark_dupes (ili_entries : list nat) (entries : list Entry) : list Entry :=
  fold_left (fun es j => alter (set_rel "dupe") j es) ili_entries entries.

Section Detector.
Context {PN : PyNum}.

(** [int(e['iwn_id'])], the key of the sort, with the reference it is for. *)
Definition sort_key (entries : list Entry) (j : nat) : result (Z * nat) :=
  e ← index entries j;
  match py_int (iwn_id e) with
  | Some z => Ok (z, j)
  | None => Raise ValueError
  end.

(** Third pass, one group. *)
Definition third_pass_step (st : Marking) (g : string * list nat) : result Marking :=
  let '(ili_id, ili_entries) := g in
  if 1 <? length ili_entries
  then
    keyed ← mapM_result (sort_key (m_entries st)) ili_entries;
    let sorted_entries := (sort_by_key keyed).*2 in
    first ← index sorted_entries 0;
    e0 ← index (m_entries st) first;
    refs ← mapM_result (fun j => e ← index (m_entries st) j; Ok (iwn_ref e)) sorted_entries;
    Ok {| m_entries := mark_dupes ili_entries (m_entries st);
          m_groups := m_groups st
                      ++ [{| group_ili := ili_id; group_entries := sorted_entries |}];
          m_issues :=
            add_duplicate_ili
              {| dup_ili := ili_id;
                 dup_pwn30_key := match pwn30_key e0 with
                                  | Some v => v
                                  | None => Some ""
                                  end;
                 dup_english_lemmas := english_lemmas e0;
                 dup_english_gloss := english_gloss e0;
                 iwn_entries := refs |} (m_issues st) |}
  else Ok st.

Definition detect_and_mark_dupes (entries : list Entry) (map2130 : gmap string string)
    (ewn : gmap string Synset) (issues : Issues)
    : result (list Entry * list DupeGroup * Issues) :=
  '(entries1, issues1) ← foldM (first_pass_step map2130 ewn) ([], issues) entries;
  let ili_to_entries := group_from 0 entries1 [] in
  st ← foldM third_pass_step
         {| m_entries := entries1; m_groups := []; m_issues := issues1 |}
         ili_to_entries;
  Ok (m_entries st, m_groups st, m_issues st).

End Detector.

(** *** The vocabulary of the detector's properties *)

(** The interlingual identity the first pass stores in a record, when it is
    one that the second pass groups by (a non-empty string). *)
Definition resolved_ili (map2130 : gmap string string) (ewn : gmap string Synset)
    (e : Entry) : option string :=
  match first_pass_entry map2130 ewn e no_issues with
  | Ok (e1, _) => get_ili e1
  | Raise _ => None
  end.

(** The record is a Direct one and resolves to the identity [i]. *)
Definition reaches (map2130 : gmap string string) (ewn : gmap string Synset)
    (i : string) (e : Entry) : bool :=
  String.eqb (rel e) "equal"
  && match resolved_ili map2130 ewn e with
     | Some i' => String.eqb i' i
     | None => false
     end.

(** The positions, from [j] on, of the entries that satisfy [p]. *)
Fixpoint positions (p : Entry -> bool) (j : nat) (entries : list Entry) : list nat :=
  match entries with
  | [] => []
  | e :: rest => if p e then j :: positions p (S j) rest else positions p (S j) rest
  end.

(** The records that reach the identity [i]: its duplicate group when
    there is more than one. *)
Definition members (map2130 : gmap string string) (ewn : gmap string Synset)
    (i : string) (entries : list Entry) : list nat :=
  positions (reaches map2130 ewn i) 0 entries.

(** The test of the second pass, for one key of the dict. *)
Definition grouped_under (k : string) (e : Entry) : bool :=
  String.eqb (rel e) "equal"
  && match get_ili e with
     | Some i => String.eqb i k
     | None => false
     end.

(** [d[k]], the empty list when the key is not there. *)
Fixpoint dd_get (d : list (string * list nat)) (k : string) : list nat :=
  match d with
  | [] => []
  | (k', js) :: d' => if String.eqb k' k then js else dd_get d' k
  end.

(** The groups the third pass marks. *)
Definition is_big (g : string * list nat) : bool := 1 <? length g.2.

(** The entries [refs] points to, in [entries]. *)
Definition deref (entries : list Entry) (refs : list nat) (es : list Entry) : Prop :=
  Forall2 (fun j e => entries !! j = Some e) refs es.

(** Every value of the version map is a key [offset-pos]: it holds a dash,
    as the values [load_pwn_map] writes do. *)
Definition dashed_values (map2130 : gmap string string) : Prop :=
  forall k v, map2130 !! k = Some v -> contains dash v = true.

(** The third pass over the dict [d], as far as the entries go. *)
Definition mark_groups (d : list (string * list nat)) (entries : list Entry) : list Entry :=
  fold_left (fun es g => if is_big g then mark_dupes g.2 es else es) d entries.

(** [j] is in a group of [d] that the third pass marks. *)
Definition in_big_group (d : list (string * list nat)) (j : nat) : bool :=
  existsb (fun g => is_big g && bool_decide (j ∈ g.2)) d.

Section IssueOf.
Context {PN : PyNum}.

(** The duplicate-issue entry [D] is the one of the group [g] of the
    entries [E]: it names the ILI of the group and lists every member of
    the group once, by ascending [int(iwn_id)]. *)
Definition issue_of (E : list Entry) (g : string * list nat) (D : DuplicateIli) : Prop :=
  dup_ili D = g.1 /\
  exists sorted keys,
    Permutation sorted g.2 /\
    Forall2 (fun j r => exists e, E !! j = Some e /\ iwn_ref e = r) sorted (iwn_entries D) /\
    Forall2 (fun r z => py_int (ref_iwn_id r) = Some z) (iwn_entries D) keys /\
    Sorted Z.le keys.

(** [int] reads the source identifier of every record. *)
Definition numeric_ids (entries : list Entry) : Prop :=
  Forall (fun e => is_Some (py_int (iwn_id e))) entries.

End IssueOf.

(** *** build_final_mapping *)

Record Final : Type := {
  iwn_to_ili : gmap string (gmap string (option string));
  stats : gmap string nat;
  f_issues : Issues
}.

(** [iwn_to_ili[rel][iwn_key] = v] on a [defaultdict(dict)] *)
Definition set_item2 (r k : string) (v : option string)
    (m : gmap string (gmap string (option string)))
    : gmap string (gmap string (option string)) :=
  <[r := <[k := v]> (default ∅ (m !! r))]> m.

(** [iwn_to_ili[r][k]], when both keys are there. *)
Definition get_item2 (r k : string) (m : gmap string (gmap string (option string)))
    : option (option string) :=
  match m !! r with
  | Some d => d !! k
  | None => None
  end.

(** [stats[k] += 1] on a [defaultdict(int)] *)
Definition incr (k : string) (s : gmap string nat) : gmap string nat :=
  <[k := S (default 0 (s !! k))]> s.

Definition final_step (map2130 : gmap string string) (ewn : gmap string Synset)
    (st : Final) (entry : Entry) : result Final :=
  let r := rel entry in
  let key := iwn_key entry in
  let is_hyper := String.eqb (rel entry) "hyper" in
  match get_ili entry with
  | Some i =>
      Ok {| iwn_to_ili := set_item2 r key (Some i) (iwn_to_ili st);
            stats := incr r (stats st); f_issues := f_issues st |}
  | None =>
      let k21 := pwn21_key entry in
      match map2130 !! k21 with
      | None =>
          Ok {| iwn_to_ili := iwn_to_ili st;
                stats := incr "missing_30" (stats st);
                f_issues :=
                  if is_hyper
                  then add_missing_pwn30
                         {| mp_iwn_id := iwn_id entry; mp_pwn21_key := k21;
                            mp_rel := Some "hyper"; mp_texts := texts_of entry |}
                         (f_issues st)
                  else f_issues st |}
      | Some k30 =>
          '(synset, actual_key) ← lookup_synset ewn k30;
          match synset with
          | Some synset =>
              match synset_ili synset with
              | Some i =>
                  Ok {| iwn_to_ili := set_item2 r key (ili_id i) (iwn_to_ili st);
                        stats := incr r (stats st); f_issues := f_issues st |}
              | None =>
                  Ok {| iwn_to_ili := iwn_to_ili st;
                        stats := incr "missing_ili" (stats st);
                        f_issues :=
                          if is_hyper
                          then add_missing_ili
                                 {| mi_iwn_id := iwn_id entry; mi_pwn21_key := k21;
                                    mi_pwn30_key := actual_key;
                                    mi_omw_id := "omw-en-" +:+ fmt_opt actual_key;
                                    mi_rel := Some "hyper";
                                    mi_texts := texts_of entry |} (f_issues st)
                          else f_issues st |}
              end
          | None =>
              Ok {| iwn_to_ili := iwn_to_ili st;
                    stats := incr "missing_omw" (stats st);
                    f_issues :=
                      if is_hyper
                      then add_missing_omw
                             {| mo_iwn_id := iwn_id entry; mo_pwn21_key := k21;
                                mo_pwn30_key := k30;
                                mo_omw_id_tried := omw_id_tried k30;
                                mo_rel := Some "hyper"; mo_texts := texts_of entry |}
                             (f_issues st)
                      else f_issues st |}
          end
      end
  end.

Definition build_final_mapping (entries : list Entry) (map2130 : gmap string string)
    (ewn : gmap string Synset) (issues : Issues) : result Final :=
  foldM (final_step map2130 ewn)
        {| iwn_to_ili := ∅; stats := ∅; f_issues := issues |} entries.

(** *** The script *)

Record Run : Type := {
  run_entries : list Entry;
  run_dupe_groups : list DupeGroup;
  run_iwn_to_ili : gmap string (gmap string (option string));
  run_issues : Issues
}.

(** [wn.Wordnet(lexicon='omw-en:1.4')]: the database, when it is installed. *)
Definition open_wordnet (db : option (gmap string Synset)) : result (gmap string Synset) :=
  match db with
  | Some ewn => Ok ewn
  | None => Raise WnError
  end.

Section Script.
Context {PN : PyNum}.

(** The statements of the script from the opening of the database to the
    final mapping (lines 417 to 425); the writes that follow are in
    [script]. *)
Definition main (fs : gmap string string) (db : option (gmap string Synset)) : result Run :=
  ewn ← open_wordnet db;
  map2130 ← load_pwn_map fs;
  '(entries, issues) ← load_iwn_map fs no_issues;
  '(entries, dupe_groups, issues) ← detect_and_mark_dupes entries map2130 ewn issues;
  fin ← build_final_mapping entries map2130 ewn issues;
  Ok {| run_entries := entries; run_dupe_groups := dupe_groups;
        run_iwn_to_ili := iwn_to_ili fin; run_issues := f_issues fin |}.

End Script.

End Map2ili.

(** ** The inputs of the examples *)

Module Examples.
Import Py.

(** One line of a TSV file. *)
Definition tsv_line (cols : list string) : string :=
  join (String tab "") cols +:+ String nl "".

(** A gloss cut in two by a quotation mark: the first line is left with 8
    columns. *)
Definition split8_first : string :=
  tsv_line ["3784"; "NOUN"; "9738708"; "NOUN"; "American"; "a native of America";
            "amerikii"; "amerika ka nivasi"].

Definition split_second : string :=
  tsv_line [String dquote "vah amerikii hai"; "Direct"].

Definition split8_input : string := split8_first +:+ split_second.

(** The same with 7 columns in the first line. *)
Definition split7_first : string :=
  tsv_line ["3784"; "NOUN"; "9738708"; "NOUN"; "American"; "a native of America";
            "amerikii"].

Definition split7_input : string := split7_first +:+ split_second.

Definition ten_columns : string :=
  tsv_line ["12"; "NOUN"; "1740"; "NOUN"; "cat"; "feline mammal"; "billi";
            "ek janvar"; "checked"; "Direct"].

Definition upc_line : string := "12345678 00001740 0.9 00001741 0.95" +:+ String nl "".

(** Three Direct records; the first two have the same older offset. *)
Definition direct_entry (id offset gloss : string) : Map2ili.Entry :=
  {| Map2ili.iwn_id := id; Map2ili.iwn_pos := "NOUN";
     Map2ili.pwn21_offset := offset; Map2ili.pwn21_pos := "NOUN";
     Map2ili.english_lemmas := "cat"; Map2ili.english_gloss := "feline mammal";
     Map2ili.hindi_lemmas := gloss; Map2ili.hindi_gloss := gloss;
     Map2ili.original_rel := "Direct"; Map2ili.rel := "equal";
     Map2ili.iwn_key := id +:+ "_n";
     Map2ili.pwn21_key := "0000" +:+ offset +:+ "-n";
     Map2ili.ili := None; Map2ili.pwn30_key := None |}.

Definition dup_entries : list Map2ili.Entry :=
  [direct_entry "20" "1740" "billi"; direct_entry "3" "1740" "bilaav";
   direct_entry "7" "1750" "kutta"].

Definition dup_map : gmap string string :=
  <["00001740-n" := "00001741-n"]> (<["00001750-n" := "00001751-n"]> ∅).

Definition synset_of (i : string) : Map2ili.Synset :=
  {| Map2ili.synset_ili := Some {| Map2ili.ili_id := Some i |} |}.

Definition dup_db : gmap string Map2ili.Synset :=
  <["omw-en-00001741-n" := synset_of "i12345"]>
    (<["omw-en-00001751-n" := synset_of "i777"]> ∅).

(** The files of the end-to-end example: one mapping line for nouns, and
    one row under the header of the TSV file. *)
Definition header : string :=
  tsv_line ["iwn_id"; "iwn_pos"; "pwn21_offset"; "pwn21_pos"; "english_lemmas";
            "english_gloss"; "hindi_lemmas"; "hindi_gloss"; "relation"].

Definition files_with (tsv : string) : gmap string string :=
  <[Map2ili.IWN_EN_DATA := tsv]>
    (<[Map2ili.PWN_MAP_DIR +:+ "wn21-30.noun" := "00001740 00001741 0.9" +:+ String nl ""]>
       (<[Map2ili.PWN_MAP_DIR +:+ "wn21-30.adj" := ""]>
          (<[Map2ili.PWN_MAP_DIR +:+ "wn21-30.adv" := ""]>
             (<[Map2ili.PWN_MAP_DIR +:+ "wn21-30.verb" := ""]> ∅)))).

(** The row with the POS of the fourth column as the parser reads it. *)
Definition e2e_fs : gmap string string :=
  files_with
    (header +:+ tsv_line ["IWN1"; "NOUN"; "1740"; "NOUN"; "cat"; "..."; "..."; "...";
                          "Direct"]).

(** The row as the spec writes it: [n] in the fourth column. *)
Definition e2e_literal_fs : gmap string string :=
  files_with
    (header +:+ tsv_line ["IWN1"; "NOUN"; "1740"; "n"; "cat"; "..."; "..."; "...";
                          "Direct"]).

(** Two Direct rows for the same offset, with identifiers that are no
    numbers. *)
Definition named_ids_fs : gmap string string :=
  files_with
    (header
     +:+ tsv_line ["IWN1"; "NOUN"; "1740"; "NOUN"; "cat"; "..."; "..."; "..."; "Direct"]
     +:+ tsv_line ["IWN2"; "NOUN"; "1740"; "NOUN"; "puss"; "..."; "..."; "..."; "Direct"]).

Definition e2e_db : gmap string Map2ili.Synset :=
  <["omw-en-00001741-n" := synset_of "i900"]> ∅.

(** The entries of [dup_entries] as the detector leaves them. *)
Definition resolved_entry (id offset gloss r i k30 : string) : Map2ili.Entry :=
  Map2ili.set_rel r
    (Map2ili.set_ili (Some i)
       (Map2ili.set_pwn30_key (Some k30) (direct_entry id offset gloss))).

Definition marked_entries : list Map2ili.Entry :=
  [resolved_entry "20" "1740" "billi" "dupe" "i12345" "00001741-n";
   resolved_entry "3" "1740" "bilaav" "dupe" "i12345" "00001741-n";
   resolved_entry "7" "1750" "kutta" "equal" "i777" "00001751-n"].

(** The records of [dup_entries], as rows of a TSV file. *)
Definition dup_fs : gmap string string :=
  files_with
    (header
     +:+ tsv_line ["20"; "NOUN"; "1740"; "NOUN"; "cat"; "..."; "billi"; "..."; "Direct"]
     +:+ tsv_line ["3"; "NOUN"; "1740"; "NOUN"; "cat"; "..."; "bilaav"; "..."; "Direct"]
     +:+ tsv_line ["7"; "NOUN"; "1750"; "NOUN"; "dog"; "..."; "kutta"; "..."; "Hypernymy"]).

End Examples.

(** ** More vocabulary for fix_malformed_tsv.py *)

Module FixTsvWords.
Import Py FixTsv.

(** The text with a newline after its last line, when it has none. *)
Fixpoint ensure_nl (s : string) : string :=
  match s with
  | EmptyString => EmptyString
  | String c s' =>
      match s' with
      | EmptyString => if is_nl c then s else String c (String nl EmptyString)
      | String _ _ => String c (ensure_nl s')
      end
  end.

(** The line [fix_tsv] writes for a line of 9 columns or more. *)
Definition fixed_long_line (l : string) : string :=
  if String.eqb (strip (List.last (cols_of l) "")) "WordN"
  then join (String tab "") (removelast (cols_of l) ++ ["Hypernymy"]) +:+ String nl ""
  else rstrip_nl l +:+ String nl "".

End FixTsvWords.

(** ** More vocabulary for map2ili.py *)

Module Map2iliMore.
Import Py Map2ili.

(** [enumerate(l, i)] *)
Fixpoint enumerate {A : Type} (i : nat) (l : list A) : list (nat * A) :=
  match l with
  | [] => []
  | x :: xs => (i, x) :: enumerate (S i) xs
  end.

(** [line.strip().split('\t')] *)
Definition row_of (line : string) : list string := split tab (strip line).

(** [row[0] == 'iwn_id'] *)
Definition is_header (line : string) : bool :=
  String.eqb (nth 0 (row_of line) "") "iwn_id".

Section Rows.
Context {PN : PyNum}.

(** The lines the parser makes a record of, and those it reports. *)
Definition is_record (line : string) : bool :=
  negb (is_header line) && well_formed_row (row_of line).

Definition is_rejected (line : string) : bool :=
  negb (is_header line) && negb (well_formed_row (row_of line)).

End Rows.

(** The issues with more malformed lines. *)
Definition with_malformed (new : list Malformed) (i : Issues) : Issues :=
  {| malformed_lines := malformed_lines i ++ new; duplicate_ili := duplicate_ili i;
     missing_pwn30 := missing_pwn30 i; missing_omw := missing_omw i;
     missing_ili := missing_ili i |}.

Section Records.
Context {PN : PyNum}.

(** What holds of every record the parser makes. *)
Definition record_ok (e : Entry) : Prop :=
  ((original_rel e = "Direct" /\ rel e = "equal") \/
   (original_rel e = "Hypernymy" /\ rel e = "hyper")) /\
  (exists t, PosTag !! iwn_pos e = Some t /\ iwn_key e = iwn_id e +:+ "_" +:+ t) /\
  (exists t z, PosTag !! pwn21_pos e = Some t /\ py_int (pwn21_offset e) = Some z /\
               pwn21_key e = fmt_08d z +:+ "-" +:+ t) /\
  iwn_id e <> "iwn_id" /\ ili e = None /\ pwn30_key e = None.

End Records.

Section MappingFiles.
Context {PN : PyNum}.

(** A line of a mapping file that [load_pwn_map] reads without raising:
    fewer than three fields, or an offset followed by one or more pairs of
    an offset and a score that [float] reads. *)
Definition mapping_line_ok (line : string) : Prop :=
  let parts := split_ws (strip line) in
  length parts < 3 \/
  exists offset_21 cands,
    parts = line_parts offset_21 cands /\ cands <> [] /\
    Forall (fun c => is_Some (py_float c.2)) cands.

(** The line is one that writes a translation for the offset: it has
    three fields or more, and the offset is the first. *)
Definition writes_offset (offset_21 line : string) : Prop :=
  let parts := split_ws (strip line) in
  3 <= length parts /\ head parts = Some offset_21.

(** The four mapping files are there, and every line of them is such a
    line. *)
Definition mapping_files_ok (fs : gmap string string) : Prop :=
  forall filename pos, In (filename, pos) files ->
    exists text, fs !! (PWN_MAP_DIR +:+ filename) = Some text /\
                 Forall mapping_line_ok (readlines text).

End MappingFiles.

(** The fields of a record that the parser fills and nothing writes
    afterwards. *)
Definition source_fields (e : Entry) : list string :=
  [iwn_id e; iwn_pos e; pwn21_offset e; pwn21_pos e; english_lemmas e; english_gloss e;
   hindi_lemmas e; hindi_gloss e; original_rel e; iwn_key e; pwn21_key e].

(** The record is a Direct one, and the identity it resolves to is reached
    by more than one record of [entries]. *)
Definition in_duplicate_group (map2130 : gmap string string) (ewn : gmap string Synset)
    (entries : list Entry) (e : Entry) : bool :=
  String.eqb (rel e) "equal"
  && match resolved_ili map2130 ewn e with
     | Some i => 1 <? length (members map2130 ewn i entries)
     | None => false
     end.

(** [l] is [l0] with more at its end. *)
Definition grows {A : Type} (l0 l : list A) : Prop := exists new, l = l0 ++ new.

(** The identities of the records whose relation is [equal], in the order
    of the records. *)
Definition equal_ilis (entries : list Entry) : list string :=
  omap (fun e => if String.eqb (rel e) "equal" then get_ili e else None) entries.

(** The duplicate-issue entry [D] is the report of the duplicate group [G]
    of the entries [E]: it has the identity of the group, names the members
    of the group in the order of the group, and copies the newer key and
    the English text from the first of them. *)
Definition reports (E : list Entry) (G : DupeGroup) (D : DuplicateIli) : Prop :=
  dup_ili D = group_ili G /\
  Forall2 (fun j r => exists e, E !! j = Some e /\ iwn_ref e = r)
    (group_entries G) (iwn_entries D) /\
  exists first e0,
    group_entries G !! 0 = Some first /\ E !! first = Some e0 /\
    dup_pwn30_key D = match pwn30_key e0 with Some v => v | None => Some "" end /\
    dup_english_lemmas D = english_lemmas e0 /\
    dup_english_gloss D = english_gloss e0.

(** The members of a duplicate group: more than one, each once, each a
    record marked [dupe] whose identity is the one of the group. *)
Definition group_ok (E : list Entry) (G : DupeGroup) : Prop :=
  1 < length (group_entries G) /\ NoDup (group_entries G) /\
  Forall (fun j => exists e, E !! j = Some e /\ rel e = "dupe" /\
                             get_ili e = Some (group_ili G)) (group_entries G).

(** Where the chain of lookups for a record ends:
    [map2130.get(pwn21_key)], [lookup_synset], [synset.ili]. *)
Inductive Outcome : Type :=
  | Found (v : option string)
  | NoPwn30
  | NoOmw
  | NoIli
  | Fails.

Definition resolve (map2130 : gmap string string) (ewn : gmap string Synset)
    (e : Entry) : Outcome :=
  match map2130 !! pwn21_key e with
  | None => NoPwn30
  | Some k30 =>
      match lookup_synset ewn k30 with
      | Raise _ => Fails
      | Ok (None, _) => NoOmw
      | Ok (Some synset, _) =>
          match synset_ili synset with
          | Some i => Found (ili_id i)
          | None => NoIli
          end
      end
  end.

(** What the final mapping builder writes for a record, when it writes:
    the ILI the record carries, or else the one the lookups end with. *)
Definition final_value (map2130 : gmap string string) (ewn : gmap string Synset)
    (e : Entry) : option (option string) :=
  match get_ili e with
  | Some i => Some (Some i)
  | None =>
      match resolve map2130 ewn e with
      | Found v => Some v
      | _ => None
      end
  end.

(** The key of [stats] a record is counted under. *)
Definition stat_key (map2130 : gmap string string) (ewn : gmap string Synset)
    (e : Entry) : string :=
  match get_ili e with
  | Some _ => rel e
  | None =>
      match resolve map2130 ewn e with
      | Found _ => rel e
      | NoPwn30 => "missing_30"
      | NoOmw => "missing_omw"
      | NoIli => "missing_ili"
      | Fails => ""
      end
  end.

(** [stats[k]] on a [defaultdict(int)] *)
Definition stat (k : string) (s : gmap string nat) : nat := default 0 (s !! k).

(** The summary block of [write_issues]. *)
Record Summary : Type := {
  s_malformed_lines : nat;
  s_duplicate_ili : nat;
  s_duplicate_ili_entries : nat;
  s_missing_pwn30 : nat;
  s_missing_omw : nat;
  s_missing_ili : nat
}.

Definition summary (issues : Issues) : Summary :=
  {| s_malformed_lines := length (malformed_lines issues);
     s_duplicate_ili := length (duplicate_ili issues);
     s_duplicate_ili_entries :=
       sum_list_with (fun d => length (iwn_entries d)) (duplicate_ili issues);
     s_missing_pwn30 := length (missing_pwn30 issues);
     s_missing_omw := length (missing_omw issues);
     s_missing_ili := length (missing_ili issues) |}.

(** [open(path, 'w')]: the file is made in the directory the path names,
    which has to be there; [dirs] are the directories that are. *)
Definition open_write (dirs : list string) (path : string) : result unit :=
  match rsplit_last "/" path with
  | Some (dir, _) => if bool_decide (dir ∈ dirs) then Ok tt else Raise OSError
  | None => Ok tt
  end.

(** [write_issues(issues)]: the document given to [yaml.dump]. *)
Definition write_issues (dirs : list string) (issues : Issues) : result (Summary * Issues) :=
  let summary := summary issues in
  _ ← open_write dirs "build/iwn_issues.yaml";
  Ok (summary, issues).

(** The two documents the script writes. *)
Record Written : Type := {
  mapping_file : gmap string (gmap string (option string));
  issues_file : Summary * Issues
}.

Section WholeScript.
Context {PN : PyNum}.

(** The script: the statements of [main], then the two files are written
    (lines 426 to 430); what is printed after that raises nothing. *)
Definition script (fs : gmap string string) (dirs : list string)
    (db : option (gmap string Synset)) : result (Run * Written) :=
  run ← main fs db;
  _ ← open_write dirs "build/iwn2ili.jaml";
  doc ← write_issues dirs (run_issues run);
  Ok (run, {| mapping_file := run_iwn_to_ili run; issues_file := doc |}).

End WholeScript.

(** [sum(len(g['entries']) for g in dupe_groups)] *)
Definition group_sizes (groups : list DupeGroup) : nat :=
  sum_list_with (fun g => length (group_entries g)) groups.

Definition is_dupe (e : Entry) : bool := String.eqb (rel e) "dupe".





(** The groups of the second pass, over the entries [es]: their keys are
    distinct, and the members of each are Direct records with the identity
    of the group, each once. *)
Definition groups_of (d : list (string * list nat)) (es : list Entry) : Prop :=
  NoDup d.*1 /\
  Forall (fun g => NoDup g.2 /\
                   Forall (fun j => exists e, es !! j = Some e /\ rel e = "equal" /\
                                              get_ili e = Some g.1) g.2) d.




Section Ids.
Context {PN : PyNum}.

(** [int(e['iwn_id']) == z] for the entry at the position [j]. *)
Definition id_is (E : list Entry) (z : Z) (j : nat) : bool :=
  match E !! j with
  | Some e =>
      match py_int (iwn_id e) with
      | Some z' => Z.eqb z' z
      | None => false
      end
  | None => false
  end.

End Ids.


End Map2iliMore.

(** ** More inputs of the examples *)

Module MoreExamples.
Import Py Examples.

(** A row whose relation is the label [WordN], between the header and a
    row of ten columns. *)
Definition wordn_line : string :=
  tsv_line ["5474"; "NOUN"; "407535"; "NOUN"; "gaming"; "the act of playing";
            "geming"; "khel"; "WordN"].

Definition wordn_input : string := header +:+ wordn_line +:+ ten_columns.

(** A TSV file with a header, a Direct row, a row of seven columns, a
    second header and a Hypernymy row. *)
Definition mixed_tsv : string :=
  header
  +:+ tsv_line ["20"; "NOUN"; "1740"; "NOUN"; "cat"; "..."; "billi"; "..."; "Direct"]
  +:+ split7_first
  +:+ header
  +:+ tsv_line ["7"; "NOUN"; "1750"; "NOUN"; "dog"; "..."; "kutta"; "..."; "Hypernymy"].

Definition mixed_fs : gmap string string := files_with mixed_tsv.

(** The character U+00A0, a space that is no ASCII character. *)
Definition nbsp : string := bytes [194; 160].

(** A noun mapping file with two lines for the same offset, the second
    being the line of [upc_line]. *)
Definition upc_fs : gmap string string :=
  <[Map2ili.PWN_MAP_DIR +:+ "wn21-30.noun"
    := "12345678 00001999 0.99" +:+ String nl "" +:+ upc_line]> e2e_fs.

(** Two noun mapping files with one line each: the same two candidates,
    one of which has the score [nan], in the two orders. *)
Definition nan_first_fs : gmap string string :=
  <[Map2ili.PWN_MAP_DIR +:+ "wn21-30.noun"
    := "12345678 00000002 nan 00000003 0.5" +:+ String nl ""]> e2e_fs.

Definition nan_last_fs : gmap string string :=
  <[Map2ili.PWN_MAP_DIR +:+ "wn21-30.noun"
    := "12345678 00000003 0.5 00000002 nan" +:+ String nl ""]> e2e_fs.

(** Three Direct records for the same older offset; the last two have
    the identifier 3, written in two ways. *)
Definition same_id_entries : list Map2ili.Entry :=
  [direct_entry "20" "1740" "billi"; direct_entry "3" "1740" "bilaav";
   direct_entry "03" "1740" "maarjaar"].



End MoreExamples.

(* ===================================================================== *)
(** * Part II: properties                                                 *)
(* ===================================================================== *)

Lemma bind_ok {A B : Type} (a : A) (f : A -> result B) : (Ok a ≫= f) = f a.
Proof. reflexivity. Qed.

Lemma bind_raise {A B : Type} (e : exn) (f : A -> result B) : (Raise e ≫= f) = Raise e.
Proof. reflexivity. Qed.

(** ** Strings *)

Module PyFacts.
Import Py.

Lemma app_cons (c : ascii) (a b : string) : String c a +:+ b = String c (a +:+ b).
Proof. reflexivity. Qed.

Lemma app_empty_l (b : string) : "" +:+ b = b.
Proof. reflexivity. Qed.

Lemma app_empty_r (a : string) : a +:+ "" = a.
Proof. induction a as [|c a IH]; [reflexivity|]. rewrite app_cons, IH. reflexivity. Qed.

Lemma app_assoc_str (a b c : string) : (a +:+ b) +:+ c = a +:+ (b +:+ c).
Proof. induction a as [|x a IH]; [reflexivity|]. rewrite !app_cons, IH. reflexivity. Qed.

Lemma contains_app (c : ascii) (a b : string) :
  contains c (a +:+ b) = contains c a || contains c b.
Proof.
  induction a as [|x a IH]; [reflexivity|].
  rewrite app_cons. simpl. rewrite IH. apply orb_assoc.
Qed.

Lemma split_nonempty (sep : ascii) (s : string) : split sep s <> [].
Proof.
  destruct s as [|c s]; simpl; [discriminate|].
  destruct (Ascii.eqb c sep); [discriminate|].
  destruct (split sep s); discriminate.
Qed.

Lemma split_length_pos (sep : ascii) (s : string) : 0 < length (split sep s).
Proof. pose proof (split_nonempty sep s). destruct (split sep s); simpl; [congruence|lia]. Qed.

(** A field of [s.split(sep)] holds no separator, and no character that
    [s] does not hold. *)
Lemma split_fields (sep c : ascii) (s : string) :
  (c = sep \/ contains c s = false) ->
  Forall (fun f => contains c f = false) (split sep s).
Proof.
  induction s as [|x s IH]; intros Hc.
  - simpl. constructor; [reflexivity|constructor].
  - simpl. destruct (Ascii.eqb x sep) eqn:Hx.
    + constructor; [reflexivity|]. apply IH.
      destruct Hc as [->|Hc]; [by left|]. right.
      simpl in Hc. by apply orb_false_elim in Hc as [_ ?].
    + assert (Hx' : Ascii.eqb x c = false).
      { destruct Hc as [->|Hc]; [done|]. simpl in Hc. by apply orb_false_elim in Hc as [? _]. }
      assert (Hs : c = sep \/ contains c s = false).
      { destruct Hc as [->|Hc]; [by left|]. right.
        simpl in Hc. by apply orb_false_elim in Hc as [_ ?]. }
      specialize (IH Hs). pose proof (split_nonempty sep s) as Hne.
      destruct (split sep s) as [|f fs]; [done|].
      inversion IH; subst. constructor; [|done]. simpl. by rewrite Hx'.
Qed.

Lemma split_one (sep : ascii) (s : string) :
  contains sep s = false -> split sep s = [s].
Proof.
  induction s as [|x s IH]; intros H; [reflexivity|].
  simpl in *. apply orb_false_elim in H as [Hx Hs].
  rewrite Hx, (IH Hs). reflexivity.
Qed.

Lemma split_app_sep (sep : ascii) (a b : string) :
  contains sep a = false ->
  split sep (a +:+ String sep b) = a :: split sep b.
Proof.
  induction a as [|x a IH]; intros H.
  - rewrite app_empty_l. simpl. by rewrite Ascii.eqb_refl.
  - simpl in H. apply orb_false_elim in H as [Hx Ha].
    rewrite app_cons. simpl. rewrite Hx, (IH Ha). reflexivity.
Qed.

(** Splitting what was joined gives the fields back. *)
Lemma split_join (sep : ascii) (l : list string) :
  l <> [] -> Forall (fun f => contains sep f = false) l ->
  split sep (join (String sep "") l) = l.
Proof.
  induction l as [|x l IH]; intros Hne Hall; [done|].
  inversion Hall as [|? ? Hx Hl]; subst.
  destruct l as [|y l].
  - simpl. by apply split_one.
  - change (join (String sep "") (x :: y :: l))
      with (x +:+ String sep "" +:+ join (String sep "") (y :: l)).
    rewrite app_cons, app_empty_l, split_app_sep by done.
    f_equal. by apply IH.
Qed.

Lemma contains_join (c : ascii) (sep : string) (l : list string) :
  contains c sep = false -> Forall (fun f => contains c f = false) l ->
  contains c (join sep l) = false.
Proof.
  intros Hsep. induction l as [|x l IH]; intros Hall; [reflexivity|].
  inversion Hall as [|? ? Hx Hl]; subst.
  destruct l as [|y l]; [done|].
  change (join sep (x :: y :: l)) with (x +:+ sep +:+ join sep (y :: l)).
  rewrite !contains_app, Hx, Hsep, (IH Hl). reflexivity.
Qed.

Lemma rstrip_nl_none (s : string) : contains nl s = false -> rstrip_nl s = s.
Proof.
  unfold rstrip_nl. induction s as [|x s IH]; intros H; [reflexivity|].
  simpl in *. apply orb_false_elim in H as [Hx Hs].
  rewrite (IH Hs). destruct s; [|reflexivity].
  unfold is_nl. by rewrite Hx.
Qed.

Lemma rstrip_nl_app_nl (s : string) :
  contains nl s = false -> rstrip_nl (s +:+ String nl "") = s.
Proof.
  unfold rstrip_nl. induction s as [|x s IH]; intros H.
  - reflexivity.
  - simpl in H. apply orb_false_elim in H as [Hx Hs].
    rewrite app_cons. simpl. rewrite (IH Hs).
    destruct s; [|reflexivity]. unfold is_nl. by rewrite Hx.
Qed.

Lemma replace_char_none (a b : ascii) (s : string) :
  contains a s = false -> replace_char a b s = s.
Proof.
  induction s as [|x s IH]; intros H; [reflexivity|].
  simpl in *. apply orb_false_elim in H as [Hx Hs]. by rewrite Hx, (IH Hs).
Qed.

Lemma replace_char_app (a b : ascii) (s t : string) :
  replace_char a b (s +:+ t) = replace_char a b s +:+ replace_char a b t.
Proof.
  induction s as [|x s IH]; [reflexivity|].
  rewrite app_cons. simpl. rewrite IH. reflexivity.
Qed.

(** A line that [readlines] returns holds a newline at its end at most. *)
Lemma readlines_line (s l : string) :
  In l (readlines s) ->
  exists x, contains nl x = false /\ (l = x \/ l = x +:+ String nl "").
Proof.
  revert l. induction s as [|c s IH]; intros l Hin; [destruct Hin|].
  simpl in Hin. destruct (is_nl c) eqn:Hc.
  - destruct Hin as [<-|Hin]; [|by apply IH].
    exists "". split; [reflexivity|]. right.
    unfold is_nl in Hc. apply Ascii.eqb_eq in Hc. by subst.
  - destruct (readlines s) as [|l0 ls] eqn:Hr.
    + destruct Hin as [<-|[]]. exists (String c ""). split; [|by left].
      simpl. unfold is_nl in Hc. by rewrite Hc.
    + destruct Hin as [<-|Hin]; [|apply IH; by right].
      destruct (IH l0 (or_introl eq_refl)) as (x & Hx & Hl).
      exists (String c x). split.
      * simpl. unfold is_nl in Hc. by rewrite Hc, Hx.
      * destruct Hl as [->| ->]; [by left|by right].
Qed.

Lemma rstrip_nl_readlines (s l : string) :
  In l (readlines s) -> contains nl (rstrip_nl l) = false.
Proof.
  intros Hin. destruct (readlines_line s l Hin) as (x & Hx & [->| ->]).
  - by rewrite rstrip_nl_none.
  - by rewrite rstrip_nl_app_nl.
Qed.

End PyFacts.

(** ** fix_malformed_tsv.py *)

Module FixTsvFacts.
Import Py PyFacts FixTsv.

Lemma index_last_snoc {A : Type} (l : list A) (x : A) : index_last (l ++ [x]) = Ok x.
Proof. unfold index_last. by rewrite rev_unit. Qed.

Lemma index_last_ok (l : list string) :
  l <> [] -> index_last l = Ok (List.last l "").
Proof.
  intros Hne. destruct (exists_last Hne) as (body & x & ->).
  by rewrite index_last_snoc, last_last.
Qed.

Lemma set_last_ok {A : Type} (l : list A) (x : A) :
  l <> [] -> set_last l x = Ok (removelast l ++ [x]).
Proof. by destruct l. Qed.

Lemma extend_extend (st : Loop) (out1 out2 : list string) (m1 m2 w1 w2 : nat) :
  extend (extend st out1 m1 w1) out2 m2 w2 = extend st (out1 ++ out2) (m1 + m2) (w1 + w2).
Proof. unfold extend. simpl. f_equal; [by rewrite app_assoc|lia|lia]. Qed.

Lemma extend_init (st : Loop) : extend loop_init (fixed_lines st) (n_merged st) (n_wordn st) = st.
Proof. by destruct st. Qed.

(** The text of a merged line. *)
Lemma merge_pair_ok (cols : list string) (c0 c1 : string) :
  cols <> [] ->
  merge_pair cols [c0; c1]
  = Ok (join (String tab "")
          (removelast cols
             ++ [replace_char nl " " (List.last cols "" +:+ String nl c0); c1])
        +:+ String nl "").
Proof.
  intros Hne. unfold merge_pair.
  rewrite (index_last_ok _ Hne). simpl.
  rewrite (set_last_ok _ _ Hne). simpl.
  by rewrite <- app_assoc.
Qed.

(** One line that is not merged gives one output line. *)
Lemma fix_single_ok (line : string) (cols : list string) :
  cols <> [] ->
  exists x w, forall st, fix_single line cols st = Ok (extend st [x] 0 w).
Proof.
  intros Hne. unfold fix_single.
  destruct (9 <=? length cols).
  - rewrite (index_last_ok _ Hne). simpl.
    destruct (String.eqb (strip (List.last cols "")) "WordN").
    + rewrite (set_last_ok _ _ Hne). simpl.
      eexists _, 1. intros st. unfold append_line, extend. simpl.
      do 2 f_equal; lia.
    + eexists _, 0. intros st. unfold append_line, extend. simpl.
      do 2 f_equal; lia.
  - eexists _, 0. intros st. unfold append_line, extend. simpl.
    do 2 f_equal; lia.
Qed.

Lemma is_split_pair_two (cols next_cols : list string) :
  is_split_pair cols next_cols = true ->
  cols <> [] /\ exists c0 c1, next_cols = [c0; c1] /\ startswith dquote c0 = true.
Proof.
  unfold is_split_pair. intros H.
  apply andb_prop in H as [H Hq]. apply andb_prop in H as [H H2].
  apply andb_prop in H as [_ H7].
  apply Nat.leb_le in H7. apply Nat.eqb_eq in H2.
  split; [destruct cols; simpl in *; [lia|done]|].
  destruct next_cols as [|c0 [|c1 [|? ?]]]; simpl in H2; try lia.
  by exists c0, c1.
Qed.

(** The loop never raises; it writes one line per input line, less one per
    merge, whatever the state it starts from. *)
Lemma fix_loop_run (lines : list string) :
  exists out m w,
    length out + m = length lines /\
    forall st, fix_loop lines st = Ok (extend st out m w).
Proof.
  remember (length lines) as n eqn:Hn.
  revert lines Hn. induction n as [n IH] using lt_wf_ind. intros lines ->.
  destruct lines as [|l rest].
  - exists [], 0, 0. split; [done|]. intros st. simpl. unfold extend.
    rewrite app_nil_r, !Nat.add_0_r. by destruct st.
  - assert (Hcols : split tab (rstrip_nl l) <> []) by apply split_nonempty.
    destruct (fix_single_ok (rstrip_nl l) _ Hcols) as (x & w1 & Hsingle).
    assert (Hplain : exists out m w,
               length out + m = length (l :: rest) /\
               forall st, (st' ← fix_single (rstrip_nl l) (split tab (rstrip_nl l)) st;
                           fix_loop rest st') = Ok (extend st out m w)).
    { destruct (IH (length rest) ltac:(simpl; lia) rest eq_refl)
        as (out & m & w & Hlen & Hrun).
      exists (x :: out), m, (w1 + w). split; [simpl; lia|].
      intros st. rewrite Hsingle. simpl. rewrite Hrun, extend_extend. done. }
    destruct rest as [|next rest'].
    + exact Hplain.
    + simpl. destruct (is_split_pair _ (cols_of next)) eqn:Hpair; [|exact Hplain].
      destruct (is_split_pair_two _ _ Hpair) as (_ & c0 & c1 & Hnext & _).
      rewrite Hnext, (merge_pair_ok _ _ _ Hcols). simpl.
      destruct (IH (length rest') ltac:(simpl; lia) rest' eq_refl)
        as (out & m & w & Hlen & Hrun).
      eexists (_ :: out), (S m), w. split; [simpl; lia|].
      intros st. rewrite Hrun. unfold extend. simpl.
      f_equal. f_equal; [by rewrite <- app_assoc|lia].
Qed.

Lemma fix_loop_total (lines : list string) (st : Loop) :
  exists st', fix_loop lines st = Ok st'.
Proof. destruct (fix_loop_run lines) as (out & m & w & _ & H). eauto. Qed.

Lemma fix_loop_from (lines : list string) (st0 st : Loop) :
  fix_loop lines loop_init = Ok st0 ->
  fix_loop lines st = Ok (extend st (fixed_lines st0) (n_merged st0) (n_wordn st0)).
Proof.
  destruct (fix_loop_run lines) as (out & m & w & _ & H).
  rewrite !H. intros [= <-]. simpl. done.
Qed.

(** A line with other than two columns ends what the loop does with the
    lines before it: the loop over the whole is the loop over the lines
    before, then the loop over the rest. *)
Lemma fix_loop_app (pre rest : list string) (st : Loop) :
  match rest with
  | [] => True
  | l :: _ => length (cols_of l) <> 2
  end ->
  fix_loop (pre ++ rest) st = (st' ← fix_loop pre st; fix_loop rest st').
Proof.
  intros Hrest. remember (length pre) as n eqn:Hn.
  revert pre Hn st. induction n as [n IH] using lt_wf_ind. intros pre Hn st.
  destruct pre as [|l pre]; [reflexivity|].
  assert (Hcols : split tab (rstrip_nl l) <> []) by apply split_nonempty.
  destruct (fix_single_ok (rstrip_nl l) _ Hcols) as (x & w1 & Hsingle).
  destruct pre as [|next pre'].
  - change (([l] ++ rest)) with (l :: rest). simpl.
    destruct rest as [|r rest'].
    + rewrite Hsingle. reflexivity.
    + assert (Hno : is_split_pair (split tab (rstrip_nl l)) (cols_of r) = false).
      { destruct (is_split_pair _ (cols_of r)) eqn:Hp; [|done].
        destruct (is_split_pair_two _ _ Hp) as (_ & c0 & c1 & Hr & _).
        rewrite Hr in Hrest. done. }
      rewrite Hno, Hsingle. reflexivity.
  - change ((l :: next :: pre') ++ rest) with (l :: next :: (pre' ++ rest)).
    simpl. destruct (is_split_pair _ (cols_of next)) eqn:Hpair.
    + destruct (is_split_pair_two _ _ Hpair) as (_ & c0 & c1 & Hnext & _).
      rewrite Hnext, (merge_pair_ok _ _ _ Hcols). simpl.
      apply (IH (length pre')); [simpl in Hn; lia|done].
    + rewrite Hsingle. simpl.
      apply (IH (length (next :: pre')) ltac:(simpl in *; lia) (next :: pre') eq_refl).
Qed.

Lemma cols_of_fields (c : ascii) (l : string) :
  (c = tab \/ contains c (rstrip_nl l) = false) ->
  Forall (fun f => contains c f = false) (cols_of l).
Proof. apply split_fields. Qed.

Lemma cols_split_last (cols : list string) :
  cols <> [] -> cols = removelast cols ++ [List.last cols ""].
Proof. intros. by apply app_removelast_last. Qed.

Lemma merged_of_length (cols : list string) (c0 c1 : string) :
  cols <> [] -> length (merged_of cols c0 c1) = S (length cols).
Proof.
  intros Hne. unfold merged_of.
  destruct (exists_last Hne) as (body & x & ->).
  rewrite removelast_last, !length_app. simpl. lia.
Qed.

Lemma merged_of_fields (c : ascii) (cols : list string) (c0 c1 : string) :
  cols <> [] -> contains c " " = false ->
  Forall (fun f => contains c f = false) cols ->
  contains c c0 = false -> contains c c1 = false ->
  Forall (fun f => contains c f = false) (merged_of cols c0 c1).
Proof.
  intros Hne Hsp Hcols H0 H1. unfold merged_of.
  rewrite (cols_split_last cols Hne) in Hcols.
  apply Forall_app in Hcols as [Hbody Hlast].
  inversion Hlast as [|? ? Hl _]; subst.
  apply Forall_app. split; [done|].
  constructor; [|constructor; [done|constructor]].
  by rewrite !contains_app, Hl, Hsp, H0.
Qed.

(** The merged gloss is the last column, a space and the continuation. *)
Lemma merged_gloss (a b : string) :
  contains nl a = false -> contains nl b = false ->
  replace_char nl " " (a +:+ String nl b) = a +:+ " " +:+ b.
Proof.
  intros Ha Hb. rewrite replace_char_app, (replace_char_none _ _ a Ha).
  simpl. by rewrite (replace_char_none _ _ b Hb).
Qed.

Lemma readlines_out_line (x rest : string) :
  contains nl x = false ->
  readlines (x +:+ String nl rest) = (x +:+ String nl "") :: readlines rest.
Proof.
  induction x as [|c x IH]; intros H.
  - rewrite !app_empty_l. reflexivity.
  - simpl in H. apply orb_false_elim in H as [Hc Hx].
    rewrite !app_cons. simpl. unfold is_nl. rewrite Hc, (IH Hx). reflexivity.
Qed.

Lemma readlines_writelines (ls : list string) :
  Forall is_out_line ls -> readlines (writelines ls) = ls.
Proof.
  induction 1 as [|l ls (x & Hx & ->) _ IH]; [reflexivity|].
  simpl. rewrite app_assoc_str, app_cons, app_empty_l.
  rewrite (readlines_out_line _ _ Hx). by rewrite IH.
Qed.

Lemma fix_single_out_line (line : string) (cols : list string) (st st' : Loop) :
  contains nl line = false ->
  Forall (fun f => contains nl f = false) cols ->
  Forall is_out_line (fixed_lines st) ->
  fix_single line cols st = Ok st' ->
  Forall is_out_line (fixed_lines st').
Proof.
  intros Hline Hcols Hst. unfold fix_single.
  assert (Hplain : Forall is_out_line (fixed_lines (append_line line st))).
  { simpl. apply Forall_app. split; [done|]. constructor; [|constructor]. by exists line. }
  destruct (9 <=? length cols) eqn:H9; [|by intros [= <-]].
  assert (Hne : cols <> []) by (destruct cols; [done|done]).
  rewrite (index_last_ok _ Hne). simpl.
  destruct (String.eqb _ "WordN"); [|by intros [= <-]].
  rewrite (set_last_ok _ _ Hne). simpl. intros [= <-]. simpl.
  apply Forall_app. split; [done|]. constructor; [|constructor].
  eexists. split; [|reflexivity].
  apply contains_join; [reflexivity|].
  rewrite (cols_split_last cols Hne) in Hcols.
  apply Forall_app in Hcols as [Hbody _].
  apply Forall_app. split; [done|]. by constructor.
Qed.

Lemma fix_loop_out_lines (lines : list string) (st st' : Loop) :
  Forall (fun l => contains nl (rstrip_nl l) = false) lines ->
  Forall is_out_line (fixed_lines st) ->
  fix_loop lines st = Ok st' ->
  Forall is_out_line (fixed_lines st').
Proof.
  remember (length lines) as n eqn:Hn.
  revert lines Hn st st'. induction n as [n IH] using lt_wf_ind.
  intros lines -> st st' Hlines Hst.
  destruct lines as [|l rest]; [by intros [= <-]|].
  inversion Hlines as [|? ? Hl Hrest]; subst.
  assert (Hcols : Forall (fun f => contains nl f = false) (split tab (rstrip_nl l))).
  { apply split_fields. by right. }
  assert (Hplain : forall st1,
             (st1' ← fix_single (rstrip_nl l) (split tab (rstrip_nl l)) st; fix_loop rest st1')
             = Ok st1 -> Forall is_out_line (fixed_lines st1)).
  { intros st1 H. destruct (fix_single _ _ st) as [st1'|] eqn:Hs; [|done].
    simpl in H. eapply (IH (length rest)); [simpl; lia|reflexivity|done| |exact H].
    eapply fix_single_out_line; eauto. }
  destruct rest as [|next rest']; [exact (Hplain st')|].
  simpl. destruct (is_split_pair _ (cols_of next)) eqn:Hpair; [|exact (Hplain st')].
  destruct (is_split_pair_two _ _ Hpair) as (Hne & c0 & c1 & Hnext & _).
  inversion Hrest as [|? ? Hn' Hrest']; subst.
  assert (Hnc : Forall (fun f => contains nl f = false) (cols_of next)).
  { apply cols_of_fields. by right. }
  rewrite Hnext in Hnc |- *. inversion Hnc as [|? ? H0 Hnc']; subst.
  inversion Hnc' as [|? ? H1 _]; subst.
  rewrite (merge_pair_ok _ _ _ Hne). simpl.
  apply (IH (length rest')); [simpl; lia|reflexivity|done|].
  simpl. apply Forall_app. split; [done|]. constructor; [|constructor].
  eexists. split; [|reflexivity].
  apply contains_join; [reflexivity|].
  rewrite merged_gloss; [..|done].
  - apply (merged_of_fields nl); done.
  - rewrite (cols_split_last _ Hne) in Hcols.
    apply Forall_app in Hcols as [_ Hlast]. by inversion Hlast.
Qed.

(** C7, as the code has it: [fix_tsv] never raises; the [WordN] fix keeps
    the number of lines and every merge of a split pair takes one line
    away, so the lines written are the lines read less the merges
    ([output_lines + merged_lines = total_lines]); the text written has
    exactly [output_lines] lines. *)
Theorem fix_tsv_line_count (input : string) :
  exists stats text,
    fix_tsv input = Ok (stats, text) /\
    total_lines stats = length (readlines input) /\
    output_lines stats + merged_lines stats = total_lines stats /\
    length (readlines text) = output_lines stats /\
    (merged_lines stats = 0 -> output_lines stats = total_lines stats).
Proof.
  unfold fix_tsv.
  destruct (fix_loop_run (readlines input)) as (out & m & w & Hlen & Hrun).
  rewrite Hrun. simpl. eexists _, _. split; [reflexivity|]. simpl.
  split; [reflexivity|]. split; [lia|]. split; [|lia].
  rewrite readlines_writelines; [reflexivity|].
  change out with (fixed_lines (extend loop_init out m w)).
  eapply (fix_loop_out_lines (readlines input) loop_init); [|constructor|apply Hrun].
  apply Forall_forall. intros l Hl. apply (rstrip_nl_readlines input).
  by apply list_elem_of_In.
Qed.

(** C6, as the code has it: two consecutive lines of the input, the first
    with 7 or 8 columns and the second with exactly two columns of which
    the first starts with a quotation mark, are both consumed and give
    exactly one line of the output, between what the loop writes for the
    lines before and for the lines after. The merged line has the columns
    of the first line, with the continuation joined onto the last one with
    a space, and the relation of the second line as one more column: one
    column more than the first line (9 for 8, 8 for 7). *)
Theorem fix_tsv_merges_split_pair (input : string) (pre post : list string)
    (l1 l2 c0 c1 : string) :
  readlines input = pre ++ l1 :: l2 :: post ->
  length (cols_of l1) = 7 \/ length (cols_of l1) = 8 ->
  cols_of l2 = [c0; c1] ->
  startswith dquote c0 = true ->
  exists st_pre st_post stats merged,
    fix_loop pre loop_init = Ok st_pre /\
    fix_loop post loop_init = Ok st_post /\
    fix_tsv input
    = Ok (stats, writelines (fixed_lines st_pre ++ [merged] ++ fixed_lines st_post)) /\
    merged_lines stats = n_merged st_pre + 1 + n_merged st_post /\
    merged = join (String tab "") (merged_of (cols_of l1) c0 c1) +:+ String nl "" /\
    cols_of merged = merged_of (cols_of l1) c0 c1 /\
    length (cols_of merged) = S (length (cols_of l1)).
Proof.
  intros Hlines Hlen Hl2 Hq.
  assert (Hne : cols_of l1 <> []) by apply split_nonempty.
  assert (Hin1 : In l1 (readlines input)).
  { rewrite Hlines. apply in_or_app. right. by left. }
  assert (Hin2 : In l2 (readlines input)).
  { rewrite Hlines. apply in_or_app. right. right. by left. }
  pose proof (rstrip_nl_readlines _ _ Hin1) as Hnl1.
  pose proof (rstrip_nl_readlines _ _ Hin2) as Hnl2.
  pose proof (cols_of_fields nl l1 (or_intror Hnl1)) as Hf1.
  pose proof (cols_of_fields nl l2 (or_intror Hnl2)) as Hf2.
  pose proof (cols_of_fields tab l1 (or_introl eq_refl)) as Ht1.
  pose proof (cols_of_fields tab l2 (or_introl eq_refl)) as Ht2.
  rewrite Hl2 in Hf2, Ht2.
  inversion Hf2 as [|? ? Hn0 Hf2']; subst. inversion Hf2' as [|? ? Hn1 _]; subst.
  inversion Ht2 as [|? ? Ht0 Ht2']; subst. inversion Ht2' as [|? ? Htc1 _]; subst.
  assert (Hlast : contains nl (List.last (cols_of l1) "") = false).
  { rewrite (cols_split_last _ Hne) in Hf1.
    apply Forall_app in Hf1 as [_ Hl]. by inversion Hl. }
  destruct (fix_loop_total pre loop_init) as [st_pre Hpre].
  destruct (fix_loop_total post loop_init) as [st_post Hpost].
  set (merged := join (String tab "") (merged_of (cols_of l1) c0 c1) +:+ String nl "").
  assert (Hjoin_nl : contains nl (join (String tab "") (merged_of (cols_of l1) c0 c1)) = false).
  { apply contains_join; [reflexivity|]. by apply merged_of_fields. }
  assert (Hcols : cols_of merged = merged_of (cols_of l1) c0 c1).
  { unfold merged. unfold cols_of at 1. rewrite rstrip_nl_app_nl by exact Hjoin_nl.
    apply split_join; [|by apply merged_of_fields].
    unfold merged_of. by destruct (removelast (cols_of l1)). }
  exists st_pre, st_post. eexists _, merged.
  split; [done|]. split; [done|].
  split; [|split; [|split; [reflexivity|split; [done|]]]].
  - unfold fix_tsv. rewrite Hlines.
    rewrite fix_loop_app by (simpl; lia).
    rewrite Hpre. simpl.
    assert (Hpair : is_split_pair (split tab (rstrip_nl l1)) (cols_of l2) = true).
    { unfold is_split_pair. rewrite Hl2. fold (cols_of l1). simpl. rewrite Hq.
      destruct Hlen as [-> | ->]; reflexivity. }
    rewrite Hpair, Hl2. fold (cols_of l1).
    rewrite (merge_pair_ok _ _ _ Hne), merged_gloss by done. simpl.
    fold (merged_of (cols_of l1) c0 c1). fold merged.
    erewrite fix_loop_from by exact Hpost. simpl.
    rewrite <- app_assoc. reflexivity.
  - simpl. unfold fix_tsv in *. lia.
  - rewrite Hcols. by apply merged_of_length.
Qed.

Lemma fix_tsv_merges_split_pair_witness :
  exists st_pre st_post stats merged,
    fix_loop [] loop_init = Ok st_pre /\
    fix_loop [] loop_init = Ok st_post /\
    fix_tsv Examples.split8_input
    = Ok (stats, writelines (fixed_lines st_pre ++ [merged] ++ fixed_lines st_post)) /\
    merged_lines stats = n_merged st_pre + 1 + n_merged st_post /\
    merged = join (String tab "")
               (merged_of (cols_of Examples.split8_first)
                  (String dquote "vah amerikii hai") "Direct") +:+ String nl "" /\
    cols_of merged
    = merged_of (cols_of Examples.split8_first) (String dquote "vah amerikii hai") "Direct" /\
    length (cols_of merged) = S (length (cols_of Examples.split8_first)).
Proof.
  apply (fix_tsv_merges_split_pair Examples.split8_input [] []
           Examples.split8_first Examples.split_second
           (String dquote "vah amerikii hai") "Direct").
  - vm_compute. reflexivity.
  - right. vm_compute. reflexivity.
  - vm_compute. reflexivity.
  - reflexivity.
Defined.

(** C6 as the spec states it fails on a first line of 7 columns: the two
    lines are merged into one line of 8 columns, not 9. *)
Lemma fix_tsv_merge_of_seven_columns :
  length (cols_of Examples.split7_first) = 7 /\
  exists stats merged,
    fix_tsv Examples.split7_input = Ok (stats, merged) /\
    merged_lines stats = 1 /\
    readlines merged = [merged] /\
    length (cols_of merged) = 8.
Proof.
  split; [vm_compute; reflexivity|].
  eexists _, _. split; [vm_compute; reflexivity|].
  split; [reflexivity|]. split; vm_compute; reflexivity.
Qed.

(** C7 as the spec states it fails on every input with a split pair: two
    lines are read and one is written. *)
Lemma fix_tsv_merge_drops_a_line :
  exists stats text,
    fix_tsv Examples.split8_input = Ok (stats, text) /\
    length (readlines Examples.split8_input) = 2 /\
    total_lines stats = 2 /\
    output_lines stats = 1 /\
    length (readlines text) = 1.
Proof.
  eexists _, _. split; [vm_compute; reflexivity|].
  repeat split; vm_compute; reflexivity.
Qed.

End FixTsvFacts.

(** ** map2ili.py: the row parser *)

Module ParserFacts.
Import Py PyFacts Map2ili.

Lemma index_nth {A : Type} (l : list A) (i : nat) (d : A) :
  i < length l -> index l i = Ok (nth i l d).
Proof.
  intros Hi. unfold index.
  destruct (l !! i) as [x|] eqn:Hx.
  - f_equal. symmetry. by apply nth_lookup_Some with (d := d) in Hx.
  - apply lookup_ge_None in Hx. lia.
Qed.

Lemma index_last_nonempty (l : list string) :
  l <> [] -> index_last l = Ok (List.last l "").
Proof.
  intros Hne. destruct (exists_last Hne) as (body & x & ->).
  unfold index_last. by rewrite rev_unit, last_last.
Qed.

Lemma dict_get_some {V : Type} (d : gmap string V) (k : string) (v : V) :
  d !! k = Some v -> dict_get d k = Ok v.
Proof. unfold dict_get. by intros ->. Qed.

Section Parser.
Context {PN : PyNum}.

(** The parser never raises, whatever the line. *)
Lemma load_line_total (lineno : nat) (st : list Entry * Issues) (line : string) :
  exists st', load_line lineno st line = Ok st'.
Proof.
  unfold load_line.
  pose proof (split_length_pos tab (strip line)) as Hpos.
  set (row := split tab (strip line)) in *.
  rewrite (index_nth row 0 "") by done. simpl.
  destruct (String.eqb _ "iwn_id"); [eauto|].
  destruct (length row <? 9) eqn:H9; [eauto|].
  apply Nat.ltb_ge in H9.
  rewrite index_last_nonempty by (intros ->; simpl in *; lia). simpl.
  destruct (rel_of _); [|eauto].
  rewrite (index_nth row 1 "") by lia. simpl.
  destruct (PosTag !! nth 1 row "") as [t1|] eqn:Ht1; [|eauto].
  rewrite (index_nth row 3 "") by lia. simpl.
  destruct (PosTag !! nth 3 row "") as [t3|] eqn:Ht3; [|eauto].
  rewrite (index_nth row 2 "") by lia. simpl.
  destruct (py_int _); [|eauto].
  rewrite (index_nth row 4 ""), (index_nth row 5 ""), (index_nth row 6 ""),
    (index_nth row 7 "") by lia. simpl.
  rewrite (dict_get_some _ _ _ Ht1), (dict_get_some _ _ _ Ht3). simpl. eauto.
Qed.

Lemma last_of_nine (row : list string) :
  length row = 9 -> List.last row "" = nth 8 row "".
Proof.
  intros H. do 9 (destruct row as [|? row]; [done|]).
  destruct row; [reflexivity|done].
Qed.

(** C5, as the code has it. The columns of a line are those of the line
    stripped of the whitespace at its ends. A header line changes nothing.
    Every other line gives exactly one record when it is well formed, and
    exactly one entry of the malformed-lines list otherwise; nothing is
    raised. The record keeps the first eight columns as they are, and the
    relation label of the last column, stripped (the ninth column, on a
    line of nine columns); its keys are [{iwn_id}_{pos}] and
    [{offset:08d}-{pos}]. *)
Theorem load_line_outcome (lineno : nat) (entries : list Entry) (issues : Issues)
    (line : string) :
  let row := split tab (strip line) in
  if String.eqb (nth 0 row "") "iwn_id"
  then load_line lineno (entries, issues) line = Ok (entries, issues)
  else if well_formed_row row
  then load_line lineno (entries, issues) line
       = Ok (entries ++ [entry_of_row row], issues) /\
       (length row = 9 -> original_rel (entry_of_row row) = strip (nth 8 row ""))
  else exists msg,
      load_line lineno (entries, issues) line
      = Ok (entries,
            add_malformed
              {| line_number := lineno; error := msg;
                 original_line := rstrip_nl line |} issues).
Proof.
  intros row. unfold load_line, well_formed_row. fold row.
  pose proof (split_length_pos tab (strip line)) as Hpos. fold row in Hpos.
  rewrite (index_nth row 0 "") by done. rewrite bind_ok.
  destruct (String.eqb _ "iwn_id"); [done|].
  destruct (length row <? 9) eqn:H9.
  { apply Nat.ltb_lt in H9. apply Nat.leb_gt in H9. rewrite H9.
    rewrite !andb_false_l. eauto. }
  apply Nat.ltb_ge in H9. rewrite (proj2 (Nat.leb_le _ _) H9).
  rewrite andb_true_l.
  rewrite index_last_nonempty by (intros Hr; rewrite Hr in H9; simpl in H9; lia).
  rewrite bind_ok.
  destruct (rel_of _) as [r|] eqn:Hr; cbn [is_some andb default]; [|eauto].
  rewrite (index_nth row 1 "") by lia. rewrite bind_ok.
  destruct (PosTag !! nth 1 row "") as [t1|] eqn:Ht1; cbn [is_some andb default]; [|eauto].
  rewrite (index_nth row 3 "") by lia. rewrite bind_ok.
  destruct (PosTag !! nth 3 row "") as [t3|] eqn:Ht3; cbn [is_some andb default]; [|eauto].
  rewrite (index_nth row 2 "") by lia. rewrite bind_ok.
  destruct (py_int _) as [n|] eqn:Hn; cbn [is_some andb default]; [|eauto].
  rewrite (index_nth row 4 ""), (index_nth row 5 ""), (index_nth row 6 ""),
    (index_nth row 7 "") by lia. rewrite !bind_ok.
  rewrite (dict_get_some _ _ _ Ht1), (dict_get_some _ _ _ Ht3). rewrite !bind_ok.
  split.
  - unfold entry_of_row. rewrite Hr, Ht1, Ht3, Hn. reflexivity.
  - intros H. unfold entry_of_row. cbn [original_rel]. by rewrite (last_of_nine _ H).
Qed.

End Parser.

(** C5 as the spec states it fails on a line of more than nine columns: the
    relation is read from the last column, and the ninth column is in no
    field of the record. *)
Lemma load_line_ten_columns :
  nth 8 (split tab (strip Examples.ten_columns)) "" = "checked" /\
  load_line (PN := AsciiNum) 2 ([], no_issues) Examples.ten_columns
  = Ok ([{| iwn_id := "12"; iwn_pos := "NOUN"; pwn21_offset := "1740";
            pwn21_pos := "NOUN"; english_lemmas := "cat";
            english_gloss := "feline mammal"; hindi_lemmas := "billi";
            hindi_gloss := "ek janvar"; original_rel := "Direct"; rel := "equal";
            iwn_key := "12_n"; pwn21_key := "00001740-n";
            ili := None; pwn30_key := None |}], no_issues).
Proof. split; vm_compute; reflexivity. Qed.

End ParserFacts.

(** ** map2ili.py: the synset resolver *)

Module ResolverFacts.
Import Py PyFacts Map2ili.

Lemma rsplit_last_none (sep : ascii) (s : string) :
  contains sep s = false -> rsplit_last sep s = None.
Proof.
  induction s as [|c s IH]; intros H; [reflexivity|].
  simpl in *. apply orb_false_elim in H as [Hc Hs]. by rewrite (IH Hs), Hc.
Qed.

(** [rsplit] cuts at the last separator. *)
Lemma rsplit_last_app (sep : ascii) (a b : string) :
  contains sep b = false -> rsplit_last sep (a +:+ String sep b) = Some (a, b).
Proof.
  intros Hb. induction a as [|c a IH].
  - rewrite app_empty_l. simpl. by rewrite (rsplit_last_none _ _ Hb), Ascii.eqb_refl.
  - rewrite app_cons. simpl. by rewrite IH.
Qed.

Lemma unpack_key (offset pos : string) :
  contains dash pos = false ->
  unpack2 (rsplit1 dash (offset +:+ "-" +:+ pos)) = Ok (offset, pos).
Proof.
  intros Hpos. unfold rsplit1.
  change ("-" +:+ pos) with (String dash pos).
  by rewrite (rsplit_last_app _ _ _ Hpos).
Qed.

(** A key that is in the database is found at the first lookup. *)
Lemma lookup_synset_direct (ewn : gmap string Synset) (offset pos : string) (s : Synset) :
  contains dash pos = false ->
  ewn !! ("omw-en-" +:+ offset +:+ "-" +:+ pos) = Some s ->
  lookup_synset ewn (offset +:+ "-" +:+ pos)
  = Ok (Some s, Some (offset +:+ "-" +:+ pos)).
Proof.
  intros Hpos Hs. unfold lookup_synset, lookup_synset_log.
  rewrite (unpack_key _ _ Hpos). unfold ewn_synset_log, ewn_synset.
  by rewrite Hs.
Qed.

(** C4: for a key [offset-pos] the resolver asks the database for
    [omw-en-offset-pos]; when that is there it returns the synset and the
    key; when it is not and the POS is [a], it asks exactly once more, for
    [omw-en-offset-s], and returns the synset with the key [offset-s] when
    that is there; for every other POS it asks nothing more. The result is
    the pair of [None] exactly when every lookup made has failed. *)
Theorem lookup_synset_fallback (ewn : gmap string Synset) (offset pos : string)
    (log : list string) :
  contains dash pos = false ->
  let key := offset +:+ "-" +:+ pos in
  let direct := "omw-en-" +:+ key in
  let sat_key := offset +:+ "-s" in
  let sat := "omw-en-" +:+ sat_key in
  exists res queries,
    lookup_synset_log ewn key log = (Ok res, log ++ queries) /\
    lookup_synset ewn key = Ok res /\
    (forall s, ewn !! direct = Some s -> res = (Some s, Some key) /\ queries = [direct]) /\
    (ewn !! direct = None -> pos = "a" ->
       queries = [direct; sat] /\
       (forall s, ewn !! sat = Some s -> res = (Some s, Some sat_key)) /\
       (ewn !! sat = None -> res = (None, None))) /\
    (ewn !! direct = None -> pos <> "a" -> queries = [direct] /\ res = (None, None)) /\
    (pos = "a" -> (res = (None, None) <-> ewn !! direct = None /\ ewn !! sat = None)).
Proof.
  intros Hpos key direct sat_key sat.
  pose proof (unpack_key offset pos Hpos) as Hk. fold key in Hk.
  unfold lookup_synset, lookup_synset_log. rewrite Hk. fold direct.
  unfold ewn_synset_log, ewn_synset.
  destruct (ewn !! direct) as [s|] eqn:Hd.
  - exists (Some s, Some key), [direct]. naive_solver.
  - destruct (String.eqb pos "a") eqn:Ha.
    + apply String.eqb_eq in Ha. fold sat_key. fold sat.
      destruct (ewn !! sat) as [s|] eqn:Hs.
      * exists (Some s, Some sat_key), [direct; sat].
        rewrite <- !app_assoc. naive_solver.
      * exists (None, None), [direct; sat].
        rewrite <- !app_assoc. naive_solver.
    + apply String.eqb_neq in Ha.
      exists (None, None), [direct]. naive_solver.
Qed.

Lemma lookup_synset_fallback_witness :
  exists res queries,
    lookup_synset_log
      {[ "omw-en-00001740-s" := {| synset_ili := Some {| ili_id := Some "i35" |} |} ]}
      "00001740-a" [] = (Ok res, queries) /\
    res = (Some {| synset_ili := Some {| ili_id := Some "i35" |} |}, Some "00001740-s") /\
    queries = ["omw-en-00001740-a"; "omw-en-00001740-s"].
Proof.
  destruct (lookup_synset_fallback
              {[ "omw-en-00001740-s" := {| synset_ili := Some {| ili_id := Some "i35" |} |} ]}
              "00001740" "a" [] eq_refl)
    as (res & queries & Hrun & _ & _ & Hsat & _).
  exists res, queries. split; [exact Hrun|].
  destruct (Hsat eq_refl eq_refl) as (Hq & Hfound & _).
  split; [|exact Hq]. apply Hfound. reflexivity.
Defined.

End ResolverFacts.

(** ** map2ili.py: the version mapper *)

Module VersionFacts.
Import Py PyFacts Map2ili.

Lemma str_gt_leb (a b : string) : str_gt a b = negb (String.leb a b).
Proof.
  unfold str_gt, String.ltb, String.leb.
  rewrite (String.compare_antisym a b).
  by destruct (String.compare b a).
Qed.

Lemma leb_trans (a b c : string) :
  String.leb a b = true -> String.leb b c = true -> String.leb a c = true.
Proof.
  intros Hab Hbc. apply Is_true_true_1.
  apply Is_true_true_2 in Hab. apply Is_true_true_2 in Hbc.
  exact (transitivity (R := String.le) Hab Hbc).
Qed.

Lemma leb_false_flip (a b : string) : String.leb a b = false -> String.leb b a = true.
Proof. intros H. destruct (String.leb_total a b) as [H'|H']; congruence. Qed.

Section Order.
Context {PN : PyNum} {PO : PyFloatOrder}.

Lemma float_eq_number (x : float) : is_nan x = false -> float_eq x x = true.
Proof. unfold is_nan. by intros ->%negb_false_iff. Qed.

Lemma float_gt_asym (x y : float) : float_gt x y = true -> float_gt y x = false.
Proof.
  intros H. destruct (float_gt y x) eqn:H'; [|done].
  pose proof (float_gt_trans _ _ _ H H') as Hxx.
  destruct (float_gt_number _ _ H) as [Hx _].
  by rewrite (float_gt_irrefl _ _ (float_eq_number x Hx)) in Hxx.
Qed.

Lemma float_gt_neq (x y : float) : float_gt x y = true -> float_eq x y = false.
Proof.
  intros H. destruct (float_eq x y) eqn:He; [|done].
  by rewrite (float_gt_irrefl _ _ He) in H.
Qed.

Lemma float_eq_false_l (x y z : float) :
  float_eq x y = true -> float_eq y z = false -> float_eq x z = false.
Proof.
  intros Hxy Hyz. destruct (float_eq x z) eqn:Hxz; [|done].
  by rewrite (float_eq_trans _ _ _ (float_eq_sym _ _ Hxy) Hxz) in Hyz.
Qed.

Lemma float_eq_false_r (x y z : float) :
  float_eq x y = false -> float_eq y z = true -> float_eq x z = false.
Proof.
  intros Hxy Hyz. destruct (float_eq x z) eqn:Hxz; [|done].
  by rewrite (float_eq_trans _ _ _ Hxz (float_eq_sym _ _ Hyz)) in Hxy.
Qed.

(** [not (x > y)] is transitive through a number. *)
Lemma float_le_trans (x y z : float) :
  is_nan y = false ->
  float_gt x y = false -> float_gt y z = false -> float_gt x z = false.
Proof.
  intros Hy Hxy Hyz. destruct (float_gt x z) eqn:Hxz; [|done].
  destruct (float_gt_number _ _ Hxz) as [Hx _].
  destruct (float_eq x y) eqn:He.
  - by rewrite <- (float_gt_eq_l _ _ z He), Hxz in Hyz.
  - destruct (float_total _ _ Hx Hy He) as [H|H]; [congruence|].
    by rewrite (float_gt_trans _ _ _ H Hxz) in Hyz.
Qed.

(** What [a > b] on tuples computes. *)
Lemma pair_gt_unfold (a b : float * string) :
  pair_gt a b = if float_eq a.1 b.1 then negb (String.leb a.2 b.2) else float_gt a.1 b.1.
Proof.
  unfold pair_gt. destruct (float_eq a.1 b.1); [|done].
  rewrite str_gt_leb. destruct (String.eqb a.2 b.2) eqn:He; [|done].
  apply String.eqb_eq in He. rewrite He.
  destruct (String.leb_total b.2 b.2) as [->| ->]; done.
Qed.

Lemma pair_gt_trans (a b c : float * string) :
  pair_gt a b = true -> pair_gt b c = true -> pair_gt a c = true.
Proof.
  rewrite !pair_gt_unfold.
  destruct (float_eq a.1 b.1) eqn:Hab, (float_eq b.1 c.1) eqn:Hbc.
  - rewrite (float_eq_trans _ _ _ Hab Hbc). intros H1 H2.
    apply negb_true_iff in H1, H2. apply negb_true_iff.
    destruct (String.leb a.2 c.2) eqn:Hac; [|done].
    pose proof (leb_trans _ _ _ Hac (leb_false_flip _ _ H2)). congruence.
  - rewrite (float_eq_false_l _ _ _ Hab Hbc). intros _ H.
    by rewrite (float_gt_eq_l _ _ c.1 Hab).
  - rewrite (float_eq_false_r _ _ _ Hab Hbc). intros H _.
    by rewrite <- (float_gt_eq_r _ _ a.1 Hbc).
  - intros H1 H2. pose proof (float_gt_trans _ _ _ H1 H2) as H.
    by rewrite (float_gt_neq _ _ H).
Qed.

(** [not (a > b)] on tuples of numbers is transitive. *)
Lemma pair_le_trans (a b c : float * string) :
  is_nan a.1 = false -> is_nan b.1 = false -> is_nan c.1 = false ->
  pair_gt a b = false -> pair_gt b c = false -> pair_gt a c = false.
Proof.
  intros Na Nb Nc. rewrite !pair_gt_unfold.
  destruct (float_eq a.1 b.1) eqn:Hab, (float_eq b.1 c.1) eqn:Hbc.
  - rewrite (float_eq_trans _ _ _ Hab Hbc). intros H1 H2.
    apply negb_false_iff in H1, H2. apply negb_false_iff. eauto using leb_trans.
  - rewrite (float_eq_false_l _ _ _ Hab Hbc). intros _ H.
    by rewrite (float_gt_eq_l _ _ c.1 Hab).
  - rewrite (float_eq_false_r _ _ _ Hab Hbc). intros H _.
    by rewrite <- (float_gt_eq_r _ _ a.1 Hbc).
  - intros H1 H2. pose proof (float_le_trans _ _ _ Nb H1 H2) as H.
    destruct (float_eq a.1 c.1) eqn:Hac; [|done].
    destruct (float_total _ _ Na Nb Hab) as [H'|H']; [congruence|].
    destruct (float_total _ _ Nb Nc Hbc) as [H''|H'']; [congruence|].
    pose proof (float_gt_trans _ _ _ H'' H') as Hca.
    by rewrite (float_gt_irrefl _ _ (float_eq_sym _ _ Hac)) in Hca.
Qed.

Lemma pair_gt_false_le (a b : float * string) :
  is_nan a.1 = false -> is_nan b.1 = false -> pair_gt a b = false -> pair_le a b.
Proof.
  intros Na Nb. rewrite pair_gt_unfold. unfold pair_le.
  destruct (float_eq a.1 b.1) eqn:He.
  - intros H. apply negb_false_iff in H. by right.
  - intros H. destruct (float_total _ _ Na Nb He) as [H'|H']; [congruence|by left].
Qed.

Lemma pair_gt_refl_false (a : float * string) : is_nan a.1 = false -> pair_gt a a = false.
Proof.
  intros Na. rewrite pair_gt_unfold, (float_eq_number _ Na).
  destruct (String.leb_total a.2 a.2) as [->| ->]; done.
Qed.

(** [max] of tuples whose scores are numbers returns an element that none
    is greater than. *)
Lemma fold_max_spec (xs : list (float * string)) (x : float * string) :
  List.Forall (fun p => is_nan p.1 = false) (x :: xs) ->
  let best := fold_left (fun best y => if pair_gt y best then y else best) xs x in
  In best (x :: xs) /\ forall p, In p (x :: xs) -> pair_gt p best = false.
Proof.
  revert x. induction xs as [|y xs IH]; intros x Hnum.
  - simpl. split; [by left|]. intros p [<-|[]]. apply pair_gt_refl_false.
    by inversion Hnum.
  - assert (Nx : is_nan x.1 = false) by (by inversion Hnum).
    assert (Ny : is_nan y.1 = false).
    { inversion Hnum as [|? ? _ H]. by inversion H. }
    assert (Hnum' : List.Forall (fun p => is_nan p.1 = false)
                      ((if pair_gt y x then y else x) :: xs)).
    { inversion Hnum as [|? ? _ H]. inversion H. constructor; [|done].
      by destruct (pair_gt y x). }
    simpl. destruct (IH (if pair_gt y x then y else x) Hnum') as [Hin Hmax].
    set (best := fold_left _ xs _) in *.
    assert (Nbest : is_nan best.1 = false).
    { rewrite List.Forall_forall in Hnum'. by apply Hnum'. }
    split.
    + destruct Hin as [Hb|Hb]; [|by right; right].
      destruct (pair_gt y x); rewrite <- Hb; [right; by left|by left].
    + intros p [<-|[<-|Hp]].
      * destruct (pair_gt y x) eqn:Hyx.
        -- pose proof (Hmax y (or_introl eq_refl)) as Hy.
           destruct (pair_gt x best) eqn:Hpb; [|done].
           by rewrite (pair_gt_trans _ _ _ Hyx Hpb) in Hy.
        -- apply Hmax. by left.
      * destruct (pair_gt y x) eqn:Hyx.
        -- apply Hmax. by left.
        -- eapply (pair_le_trans y x best); [done..|exact Hyx|]. apply Hmax. by left.
      * apply Hmax. by right.
Qed.

Lemma py_max_spec (l : list (float * string)) :
  l <> [] ->
  List.Forall (fun p => is_nan p.1 = false) l ->
  exists best, py_max pair_gt l = Ok best /\ In best l /\ forall p, In p l -> pair_le p best.
Proof.
  destruct l as [|x xs]; [done|]. intros _ Hnum.
  destruct (fold_max_spec xs x Hnum) as [Hin Hmax].
  eexists. split; [reflexivity|]. split; [exact Hin|].
  intros p Hp. rewrite List.Forall_forall in Hnum.
  apply pair_gt_false_le; [by apply Hnum|by apply Hnum|by apply Hmax].
Qed.

(** The comprehension reads the candidates two fields at a time. *)
Lemma pairs_of_parts (cands : list (string * string)) (pairs : list (float * string)) :
  Forall2 (fun c p => py_float c.2 = Some p.1 /\ p.2 = c.1) cands pairs ->
  pairs_of (flat_map (fun c => [c.1; c.2]) cands) = Ok pairs.
Proof.
  induction 1 as [|c p cands pairs [Hf Ho] _ IH]; [reflexivity|].
  simpl. rewrite Hf, IH. rewrite bind_ok. destruct p as [x o]. simpl in *. by subst.
Qed.

(** One line: a line that is an older offset followed by one or more pairs
    of a newer offset and a score, none a NaN, gives the older offset
    (with the POS of the file) the newer offset of a candidate that no
    candidate sorts after: a candidate of maximal score and, among those
    of that score, of the greatest offset string. *)
Lemma pwn_line_max (pos line offset_21 : string)
    (map2130 : gmap string string) (cands : list (string * string))
    (pairs : list (float * string)) :
  split_ws (strip line) = line_parts offset_21 cands ->
  cands <> [] ->
  Forall2 (fun c p => py_float c.2 = Some p.1 /\ p.2 = c.1) cands pairs ->
  List.Forall (fun p => is_nan p.1 = false) pairs ->
  exists best,
    pwn_line pos map2130 line
    = Ok (<[offset_21 +:+ "-" +:+ pos := best.2 +:+ "-" +:+ pos]> map2130) /\
    In best pairs /\
    (forall p, In p pairs -> pair_le p best).
Proof.
  intros Hparts Hne Hpairs Hnum.
  assert (Hpne : pairs <> []).
  { intros ->. inversion Hpairs. by subst. }
  destruct (py_max_spec pairs Hpne Hnum) as (best & Hmax & Hin & Hle).
  exists best. split; [|split; [exact Hin|exact Hle]].
  unfold pwn_line. rewrite Hparts. unfold line_parts.
  destruct cands as [|c cands]; [done|].
  cbn [flat_map length app Nat.ltb Nat.leb drop].
  unfold index. cbn [lookup list_lookup]. rewrite bind_ok.
  change (c.1 :: c.2 :: flat_map (fun c => [c.1; c.2]) cands)
    with (flat_map (fun c => [c.1; c.2]) (c :: cands)).
  rewrite (pairs_of_parts _ _ Hpairs), bind_ok, Hmax, bind_ok. reflexivity.
Qed.

End Order.

(** The decimals of [AsciiNum] are ordered as floats are. *)

Lemma dec_gt_iff (x y : Q) : negb (Qle_bool x y) = true <-> (y < x)%Q.
Proof.
  rewrite negb_true_iff. split.
  - intros H. apply Qnot_le_lt. intros Hle. apply Qle_bool_iff in Hle. congruence.
  - intros H. destruct (Qle_bool x y) eqn:E; [|done].
    apply Qle_bool_iff in E. lra.
Qed.

Lemma dec_gt_false_iff (x y : Q) : negb (Qle_bool x y) = false <-> (x <= y)%Q.
Proof. rewrite negb_false_iff. apply Qle_bool_iff. Qed.

Lemma AsciiNum_order : @PyFloatOrder AsciiNum.
Proof.
  constructor; unfold is_nan; cbn [float float_eq float_gt AsciiNum].
  - intros x y H. apply Qeq_bool_iff in H. apply Qeq_bool_iff. lra.
  - intros x y z H1 H2. apply Qeq_bool_iff in H1, H2. apply Qeq_bool_iff. lra.
  - intros x y H. apply Qeq_bool_iff in H. apply dec_gt_false_iff. lra.
  - intros x y z H1 H2. apply dec_gt_iff in H1, H2. apply dec_gt_iff. lra.
  - intros x y z H. apply Qeq_bool_iff in H.
    destruct (negb (Qle_bool y z)) eqn:E.
    + apply dec_gt_iff in E. apply dec_gt_iff. lra.
    + apply dec_gt_false_iff in E. apply dec_gt_false_iff. lra.
  - intros x y z H. apply Qeq_bool_iff in H.
    destruct (negb (Qle_bool z y)) eqn:E.
    + apply dec_gt_iff in E. apply dec_gt_iff. lra.
    + apply dec_gt_false_iff in E. apply dec_gt_false_iff. lra.
  - intros x y _. split; apply negb_false_iff, Qeq_bool_iff; lra.
  - intros x y _ _ H. apply Qeq_bool_neq in H.
    destruct (Qlt_le_dec y x) as [Hlt|Hle].
    + left. by apply dec_gt_iff.
    + right. apply dec_gt_iff. apply Qle_lt_or_eq in Hle as [Hlt|Heq]; [done|].
      exfalso. apply H. done.
Qed.

(** The floats of [NanNum] compare as the interpreter's do. *)
Lemma NanNum_order : @PyFloatOrder NanNum.
Proof.
  pose proof AsciiNum_order as [Hsym Htrans Hirr Hgt Hl Hr _ Htot].
  unfold is_nan in *. cbn [float float_eq float_gt AsciiNum] in *.
  constructor; unfold is_nan; cbn [float float_eq float_gt NanNum].
  - intros [x|] [y|]; try done. apply Hsym.
  - intros [x|] [y|] [z|]; try done. apply Htrans.
  - intros [x|] [y|]; try done. apply Hirr.
  - intros [x|] [y|] [z|]; try done. apply Hgt.
  - intros [x|] [y|] [z|]; try done. apply Hl.
  - intros [x|] [y|] [z|]; try done. apply Hr.
  - intros [x|] [y|]; try done. intros _.
    split; apply negb_false_iff, Qeq_bool_iff; lra.
  - intros [x|] [y|]; try done. intros Hx Hy. by apply Htot.
Qed.

End VersionFacts.

(** ** map2ili.py: the duplicate detector *)

Module DetectorFacts.
Import Py PyFacts Map2ili.

(** *** Loops *)

Lemma foldM_cons {A St : Type} (f : St -> A -> result St) (s : St) (x : A) (l : list A) :
  foldM f s (x :: l) = (s' ← f s x; foldM f s' l).
Proof. reflexivity. Qed.

Lemma foldM_app {A St : Type} (f : St -> A -> result St) (s : St) (l1 l2 : list A) :
  foldM f s (l1 ++ l2) = (s' ← foldM f s l1; foldM f s' l2).
Proof.
  revert s. induction l1 as [|x l1 IH]; intros s; [reflexivity|].
  simpl. destruct (f s x) as [s'|e]; [|reflexivity]. simpl. apply IH.
Qed.

Lemma mapM_result_ok {A B : Type} (f : A -> result B) (l : list A) (ys : list B) :
  mapM_result f l = Ok ys <-> Forall2 (fun x y => f x = Ok y) l ys.
Proof.
  revert ys. induction l as [|x l IH]; intros ys; simpl.
  - split; [intros [= <-]; constructor|intros H; by inversion H].
  - destruct (f x) as [y|e] eqn:Hx; simpl.
    + destruct (mapM_result f l) as [ys'|e] eqn:Hl; simpl.
      * split.
        -- intros [= <-]. constructor; [done|]. by apply IH.
        -- intros H. inversion H as [|? y' ? ys'' Hy Hys]; subst.
           apply IH in Hys. congruence.
      * split; [done|]. intros H. inversion H as [|? y' ? ys'' Hy Hys]; subst.
        apply IH in Hys. done.
    + split; [done|]. intros H. inversion H; subst. congruence.
Qed.

(** *** The stable sort *)

Lemma insert_by_key_perm (x : Z * nat) (l : list (Z * nat)) :
  Permutation (insert_by_key x l) (x :: l).
Proof.
  induction l as [|y l IH]; simpl; [done|].
  destruct (y.1 <? x.1)%Z; [|done].
  rewrite IH. apply perm_swap.
Qed.

Lemma sort_by_key_perm (l : list (Z * nat)) : Permutation (sort_by_key l) l.
Proof.
  induction l as [|x l IH]; simpl; [done|].
  rewrite insert_by_key_perm. by constructor.
Qed.

Lemma insert_by_key_sorted (x : Z * nat) (l : list (Z * nat)) :
  Sorted Z.le l.*1 -> Sorted Z.le (insert_by_key x l).*1.
Proof.
  induction l as [|y l IH]; intros Hs; simpl.
  - repeat constructor.
  - destruct (y.1 <? x.1)%Z eqn:Hlt.
    + apply Z.ltb_lt in Hlt. simpl.
      inversion Hs as [|? ? Hs' Hhd]; subst. constructor; [by apply IH|].
      destruct l as [|z l]; simpl.
      * constructor. lia.
      * destruct (z.1 <? x.1)%Z eqn:Hz; simpl; constructor.
        -- by inversion Hhd.
        -- lia.
    + apply Z.ltb_ge in Hlt. simpl. constructor; [done|]. by constructor.
Qed.

Lemma sort_by_key_sorted (l : list (Z * nat)) : Sorted Z.le (sort_by_key l).*1.
Proof.
  induction l as [|x l IH]; simpl; [constructor|]. by apply insert_by_key_sorted.
Qed.

Lemma insert_by_key_filter (z : Z) (x : Z * nat) (l : list (Z * nat)) :
  List.filter (fun y => (y.1 =? z)%Z) (insert_by_key x l)
  = List.filter (fun y => (y.1 =? z)%Z) (x :: l).
Proof.
  induction l as [|y l IH]; [reflexivity|].
  cbn [insert_by_key]. destruct (y.1 <? x.1)%Z eqn:Hlt; [|reflexivity].
  apply Z.ltb_lt in Hlt. cbn [List.filter] in *. rewrite IH.
  destruct (y.1 =? z)%Z eqn:Hy; [|reflexivity].
  apply Z.eqb_eq in Hy. destruct (x.1 =? z)%Z eqn:Hx; [|reflexivity].
  apply Z.eqb_eq in Hx. lia.
Qed.

(** The sort is stable: the entries of one key stay in their order. *)
Lemma sort_by_key_stable (z : Z) (l : list (Z * nat)) :
  List.filter (fun y => (y.1 =? z)%Z) (sort_by_key l)
  = List.filter (fun y => (y.1 =? z)%Z) l.
Proof.
  induction l as [|x l IH]; [reflexivity|].
  cbn [sort_by_key fold_right]. fold (sort_by_key l).
  rewrite insert_by_key_filter. cbn [List.filter]. by rewrite IH.
Qed.

(** *** The dict of the second pass *)

Lemma dd_get_append (d : list (string * list nat)) (k k' : string) (j : nat) :
  dd_get (dd_append d k j) k'
  = if String.eqb k k' then dd_get d k' ++ [j] else dd_get d k'.
Proof.
  induction d as [|[k0 js] d IH]; simpl.
  - destruct (String.eqb k k'); reflexivity.
  - destruct (String.eqb k0 k) eqn:H0; simpl.
    + apply String.eqb_eq in H0. subst k0.
      destruct (String.eqb k k'); reflexivity.
    + destruct (String.eqb k0 k') eqn:H0'; [|exact IH].
      apply String.eqb_eq in H0'. subst k0. by rewrite String.eqb_sym, H0.
Qed.

Lemma dd_append_keys (d : list (string * list nat)) (k : string) (j : nat) :
  (dd_append d k j).*1 = d.*1 \/
  ((dd_append d k j).*1 = d.*1 ++ [k] /\ ~ In k d.*1).
Proof.
  induction d as [|[k0 js] d IH]; cbn [dd_append].
  - right. split; [reflexivity|]. simpl. tauto.
  - destruct (String.eqb k0 k) eqn:H0; [by left|].
    apply String.eqb_neq in H0. rewrite !fmap_cons. cbn [fst].
    destruct IH as [->|[-> Hk]]; [by left|]. right. split; [reflexivity|].
    intros [?|?]; done.
Qed.

Lemma dd_append_NoDup (d : list (string * list nat)) (k : string) (j : nat) :
  NoDup d.*1 -> NoDup (dd_append d k j).*1.
Proof.
  intros Hd. destruct (dd_append_keys d k j) as [->|[-> Hk]]; [done|].
  apply NoDup_app. split; [done|]. split; [|apply NoDup_singleton].
  intros x Hx Hx'. apply list_elem_of_In in Hx.
  apply list_elem_of_singleton in Hx'. by subst.
Qed.

Lemma dd_get_in (d : list (string * list nat)) (k : string) (js : list nat) :
  NoDup d.*1 -> In (k, js) d -> dd_get d k = js.
Proof.
  induction d as [|[k0 js0] d IH]; intros Hd Hin; [done|].
  simpl in *. apply NoDup_cons in Hd as [Hk0 Hd].
  destruct Hin as [[= -> ->]|Hin].
  - by rewrite String.eqb_refl.
  - destruct (String.eqb k0 k) eqn:H0; [|by apply IH].
    apply String.eqb_eq in H0. subst k0. exfalso. apply Hk0.
    apply list_elem_of_In. change k with (k, js).1. by apply in_map.
Qed.

Lemma dd_get_nonempty_in (d : list (string * list nat)) (k : string) :
  dd_get d k <> [] -> In (k, dd_get d k) d.
Proof.
  induction d as [|[k0 js0] d IH]; intros H; [done|].
  simpl in *. destruct (String.eqb k0 k) eqn:H0.
  - apply String.eqb_eq in H0. subst. by left.
  - right. by apply IH.
Qed.

(** What the second pass builds: no key twice, and under a key the
    positions, in order, of the Direct entries with that ILI. *)
Lemma group_from_spec (entries : list Entry) (j : nat) (d : list (string * list nat)) :
  NoDup d.*1 ->
  NoDup (group_from j entries d).*1 /\
  forall k, dd_get (group_from j entries d) k
            = dd_get d k ++ positions (grouped_under k) j entries.
Proof.
  revert j d. induction entries as [|e rest IH]; intros j d Hd.
  - simpl. split; [done|]. intros k. by rewrite app_nil_r.
  - simpl. unfold grouped_under at 1.
    destruct (String.eqb (rel e) "equal") eqn:Hrel; simpl.
    + destruct (get_ili e) as [i|] eqn:Hi.
      * destruct (IH (S j) (dd_append d i j) (dd_append_NoDup _ _ _ Hd)) as [Hnd Hget].
        split; [done|]. intros k. rewrite Hget, dd_get_append.
        destruct (String.eqb i k); [by rewrite <- app_assoc|done].
      * destruct (IH (S j) d Hd) as [Hnd Hget]. split; [done|]. intros k. apply Hget.
    + destruct (IH (S j) d Hd) as [Hnd Hget]. split; [done|]. intros k. apply Hget.
Qed.

(** *** The first pass *)

(** The first pass changes [ili] and [pwn30_key] only, and no list of
    issues but the three of the missing links. *)
Lemma first_pass_entry_keeps (map2130 : gmap string string) (ewn : gmap string Synset)
    (e e1 : Entry) (iss iss1 : Issues) :
  first_pass_entry map2130 ewn e iss = Ok (e1, iss1) ->
  rel e1 = rel e /\ iwn_ref e1 = iwn_ref e /\ iwn_key e1 = iwn_key e /\
  pwn21_key e1 = pwn21_key e /\
  duplicate_ili iss1 = duplicate_ili iss /\ malformed_lines iss1 = malformed_lines iss.
Proof.
  unfold first_pass_entry.
  destruct (negb (String.eqb (rel e) "equal")); [by intros [= <- <-]|].
  destruct (map2130 !! pwn21_key e) as [k30|]; [|by intros [= <- <-]].
  destruct (lookup_synset ewn k30) as [[syn key]|]; [|done]. rewrite bind_ok.
  destruct syn as [syn|]; [|by intros [= <- <-]].
  destruct (synset_ili syn); by intros [= <- <-].
Qed.

Lemma first_pass_entry_other (map2130 : gmap string string) (ewn : gmap string Synset)
    (e : Entry) (iss : Issues) :
  rel e <> "equal" -> first_pass_entry map2130 ewn e iss = Ok (e, iss).
Proof.
  intros H. unfold first_pass_entry.
  apply String.eqb_neq in H. by rewrite H.
Qed.

(** The record the first pass returns does not depend on the issues. *)
Lemma first_pass_entry_issues (map2130 : gmap string string) (ewn : gmap string Synset)
    (e e1 : Entry) (iss iss1 iss' : Issues) :
  first_pass_entry map2130 ewn e iss = Ok (e1, iss1) ->
  exists iss1', first_pass_entry map2130 ewn e iss' = Ok (e1, iss1').
Proof.
  unfold first_pass_entry.
  destruct (negb (String.eqb (rel e) "equal")); [intros [= <- <-]; eauto|].
  destruct (map2130 !! pwn21_key e) as [k30|]; [|intros [= <- <-]; eauto].
  destruct (lookup_synset ewn k30) as [[syn key]|]; [|done]. rewrite !bind_ok.
  destruct syn as [syn|]; [|intros [= <- <-]; eauto].
  destruct (synset_ili syn); intros [= <- <-]; eauto.
Qed.

(** Resolving again a record that was resolved gives the same record. *)
Lemma first_pass_entry_again (map2130 : gmap string string) (ewn : gmap string Synset)
    (e e1 : Entry) (iss iss1 iss' : Issues) :
  first_pass_entry map2130 ewn e iss = Ok (e1, iss1) ->
  exists iss1', first_pass_entry map2130 ewn e1 iss' = Ok (e1, iss1').
Proof.
  assert (Hpair : forall (a b : Entry) (i : Issues),
             a = b -> exists i', Ok (a, i) = Ok (b, i')).
  { intros a b i ->. eauto. }
  unfold first_pass_entry.
  destruct (negb (String.eqb (rel e) "equal")) eqn:Hrel.
  { intros [= <- <-]. rewrite Hrel. eauto. }
  destruct (map2130 !! pwn21_key e) as [k30|] eqn:Hk.
  2:{ intros [= <- <-]. cbn [rel pwn21_key set_pwn30_key set_ili].
      rewrite Hrel, Hk. apply Hpair. by destruct e. }
  destruct (lookup_synset ewn k30) as [[syn key]|] eqn:Hl; [|done]. rewrite bind_ok.
  destruct syn as [syn|].
  2:{ intros [= <- <-]. cbn [rel pwn21_key set_pwn30_key set_ili].
      rewrite Hrel, Hk, Hl, bind_ok. apply Hpair. by destruct e. }
  destruct (synset_ili syn) eqn:Hi; intros [= <- <-];
    cbn [rel pwn21_key set_pwn30_key set_ili];
    rewrite Hrel, Hk, Hl, bind_ok, Hi; apply Hpair; by destruct e.
Qed.

Lemma resolved_ili_first_pass (map2130 : gmap string string) (ewn : gmap string Synset)
    (e e1 : Entry) (iss iss1 : Issues) :
  first_pass_entry map2130 ewn e iss = Ok (e1, iss1) ->
  resolved_ili map2130 ewn e = get_ili e1.
Proof.
  intros H. unfold resolved_ili.
  destruct (first_pass_entry_issues _ _ _ _ _ _ no_issues H) as [iss' ->]. done.
Qed.

(** After the first pass a record is grouped under [k] exactly when the
    record it comes from reaches [k]. *)
Lemma grouped_under_reaches (map2130 : gmap string string) (ewn : gmap string Synset)
    (e e1 : Entry) (iss iss1 : Issues) (k : string) :
  first_pass_entry map2130 ewn e iss = Ok (e1, iss1) ->
  grouped_under k e1 = reaches map2130 ewn k e.
Proof.
  intros H. unfold grouped_under, reaches.
  rewrite (resolved_ili_first_pass _ _ _ _ _ _ H).
  by destruct (first_pass_entry_keeps _ _ _ _ _ _ H) as (-> & _).
Qed.

(** The loop of the first pass visits the entries in order. *)
Lemma first_pass_spec (map2130 : gmap string string) (ewn : gmap string Synset)
    (entries done done' : list Entry) (iss iss' : Issues) :
  foldM (first_pass_step map2130 ewn) (done, iss) entries = Ok (done', iss') ->
  exists es1,
    done' = done ++ es1 /\
    Forall2 (fun e e1 => exists i i', first_pass_entry map2130 ewn e i = Ok (e1, i'))
      entries es1 /\
    duplicate_ili iss' = duplicate_ili iss.
Proof.
  revert done iss. induction entries as [|e entries IH]; intros done iss.
  - intros [= <- <-]. exists []. by rewrite app_nil_r.
  - rewrite foldM_cons.
    change (first_pass_step map2130 ewn (done, iss) e)
      with ('(e1, iss1) ← first_pass_entry map2130 ewn e iss; Ok (done ++ [e1], iss1)).
    destruct (first_pass_entry map2130 ewn e iss) as [[e1 iss1]|] eqn:He;
      [|by rewrite !bind_raise].
    rewrite !bind_ok. intros H.
    destruct (IH _ _ H) as (es1 & -> & Hall & Hdup).
    exists (e1 :: es1). rewrite <- app_assoc. split; [done|].
    split; [constructor; eauto|].
    rewrite Hdup. by destruct (first_pass_entry_keeps _ _ _ _ _ _ He) as (_ & _ & _ & _ & -> & _).
Qed.

Lemma positions_ext (p q : Entry -> bool) (j : nat) (es es' : list Entry) :
  Forall2 (fun e e' => p e = q e') es es' ->
  positions p j es = positions q j es'.
Proof.
  intros H. revert j. induction H as [|e e' es es' He _ IH]; intros j; [reflexivity|].
  simpl. rewrite He, IH. reflexivity.
Qed.

Lemma positions_lookup (p : Entry -> bool) (j0 j : nat) (es : list Entry) :
  j ∈ positions p j0 es <-> exists e, j0 <= j /\ es !! (j - j0) = Some e /\ p e = true.
Proof.
  revert j0. induction es as [|e es IH]; intros j0; simpl.
  - split; [by intros ?%elem_of_nil|by intros (? & _ & ? & _)].
  - assert (Hrest : j ∈ positions p (S j0) es <->
                    exists e', j0 < j /\ (e :: es) !! (j - j0) = Some e' /\ p e' = true).
    { rewrite IH. split.
      - intros (e' & Hle & Hl & Hp). exists e'. split; [lia|]. split; [|done].
        replace (j - j0) with (S (j - S j0)) by lia. done.
      - intros (e' & Hle & Hl & Hp). exists e'. split; [lia|]. split; [|done].
        replace (j - j0) with (S (j - S j0)) in Hl by lia. done. }
    destruct (p e) eqn:Hp.
    + rewrite elem_of_cons, Hrest. split.
      * intros [->|(e' & ? & ? & ?)].
        -- exists e. rewrite Nat.sub_diag. done.
        -- exists e'. split; [lia|done].
      * intros (e' & Hle & Hl & Hp').
        destruct (decide (j = j0)) as [->|Hne]; [by left|].
        right. exists e'. split; [lia|done].
    + rewrite Hrest. split.
      * intros (e' & ? & ? & ?). exists e'. split; [lia|done].
      * intros (e' & Hle & Hl & Hp').
        destruct (decide (j = j0)) as [->|Hne].
        -- rewrite Nat.sub_diag in Hl. simpl in Hl. congruence.
        -- exists e'. split; [lia|done].
Qed.

Lemma positions_NoDup (p : Entry -> bool) (j0 : nat) (es : list Entry) :
  NoDup (positions p j0 es).
Proof.
  revert j0. induction es as [|e es IH]; intros j0; simpl; [constructor|].
  destruct (p e); [|apply IH]. constructor; [|apply IH].
  intros (e' & Hle & _)%positions_lookup. lia.
Qed.

(** *** Marking *)

Lemma set_rel_again (r : string) (e : Entry) : set_rel r (set_rel r e) = set_rel r e.
Proof. reflexivity. Qed.

Lemma mark_dupes_cons (j : nat) (js : list nat) (es : list Entry) :
  mark_dupes (j :: js) es = mark_dupes js (alter (set_rel "dupe") j es).
Proof. reflexivity. Qed.

Lemma mark_dupes_length (js : list nat) (es : list Entry) :
  length (mark_dupes js es) = length es.
Proof.
  revert es. induction js as [|j js IH]; intros es; [reflexivity|].
  by rewrite mark_dupes_cons, IH, length_alter.
Qed.

(** Marking sets the relation of the entries of the group, and of no other. *)
Lemma mark_dupes_lookup (js : list nat) (es : list Entry) (j : nat) :
  mark_dupes js es !! j
  = if bool_decide (j ∈ js) then set_rel "dupe" <$> es !! j else es !! j.
Proof.
  revert es. induction js as [|j0 js IH]; intros es; [reflexivity|].
  rewrite mark_dupes_cons, IH.
  destruct (decide (j0 = j)) as [->|Hne].
  - rewrite list_lookup_alter_eq.
    rewrite (bool_decide_eq_true_2 (j ∈ j :: js)) by apply list_elem_of_here.
    destruct (bool_decide (j ∈ js)); [|done].
    by destruct (es !! j).
  - rewrite list_lookup_alter_ne by done.
    destruct (decide (j ∈ js)) as [Hin|Hnin].
    + rewrite !bool_decide_eq_true_2; [done|by apply list_elem_of_further|done].
    + rewrite !bool_decide_eq_false_2; [done| |done].
      intros [?|?]%elem_of_cons; done.
Qed.

Lemma mark_groups_cons (g : string * list nat) (d : list (string * list nat))
    (es : list Entry) :
  mark_groups (g :: d) es = mark_groups d (if is_big g then mark_dupes g.2 es else es).
Proof. reflexivity. Qed.

Lemma mark_groups_lookup (d : list (string * list nat)) (es : list Entry) (j : nat) :
  mark_groups d es !! j
  = if in_big_group d j then set_rel "dupe" <$> es !! j else es !! j.
Proof.
  revert es. induction d as [|g d IH]; intros es; [reflexivity|].
  rewrite mark_groups_cons, IH. cbn [in_big_group existsb].
  fold (in_big_group d j).
  destruct (is_big g); cbn [andb orb]; [|done].
  rewrite mark_dupes_lookup.
  destruct (bool_decide (j ∈ g.2)); cbn [orb]; [|done].
  destruct (in_big_group d j); [|done]. by destruct (es !! j).
Qed.

Lemma mark_groups_length (d : list (string * list nat)) (es : list Entry) :
  length (mark_groups d es) = length es.
Proof.
  revert es. induction d as [|g d IH]; intros es; [reflexivity|].
  rewrite mark_groups_cons, IH. destruct (is_big g); [|done]. apply mark_dupes_length.
Qed.

(** Marking changes the relation of an entry and nothing else of it. *)
Lemma mark_groups_same (d : list (string * list nat)) (es : list Entry) :
  Forall2 (fun a b => set_rel "" a = set_rel "" b) es (mark_groups d es).
Proof.
  apply Forall2_same_length_lookup. split; [by rewrite mark_groups_length|].
  intros j a b Ha. rewrite mark_groups_lookup, Ha.
  destruct (in_big_group d j); by intros [= <-].
Qed.

Lemma mark_dupes_same (js : list nat) (es : list Entry) :
  Forall2 (fun a b => set_rel "" a = set_rel "" b) es (mark_dupes js es).
Proof.
  apply Forall2_same_length_lookup. split; [by rewrite mark_dupes_length|].
  intros j a b Ha. rewrite mark_dupes_lookup, Ha.
  destruct (bool_decide (j ∈ js)); by intros [= <-].
Qed.

Lemma same_iwn_ref (a b : Entry) : set_rel "" a = set_rel "" b -> iwn_ref a = iwn_ref b.
Proof. intros H. change (iwn_ref (set_rel "" a) = iwn_ref (set_rel "" b)). by rewrite H. Qed.

Lemma same_iwn_key (a b : Entry) : set_rel "" a = set_rel "" b -> iwn_key a = iwn_key b.
Proof. intros H. change (iwn_key (set_rel "" a) = iwn_key (set_rel "" b)). by rewrite H. Qed.

Lemma same_get_ili (a b : Entry) : set_rel "" a = set_rel "" b -> get_ili a = get_ili b.
Proof. intros H. change (get_ili (set_rel "" a) = get_ili (set_rel "" b)). by rewrite H. Qed.

(** *** The third pass *)

Section ThirdPass.
Context {PN : PyNum}.

Lemma third_pass_step_small (st : Marking) (g : string * list nat) :
  is_big g = false -> third_pass_step st g = Ok st.
Proof. destruct g as [k js]. unfold is_big, third_pass_step. simpl. by intros ->. Qed.

Lemma sort_key_ok (E : list Entry) (j : nat) (kz : Z * nat) :
  sort_key E j = Ok kz ->
  kz.2 = j /\ exists e, E !! j = Some e /\ py_int (iwn_id e) = Some kz.1.
Proof.
  unfold sort_key, index. destruct (E !! j) as [e|]; [|done]. rewrite bind_ok.
  destruct (py_int (iwn_id e)) as [z|] eqn:Hz; [|done]. intros [= <-].
  split; [done|]. by exists e.
Qed.

Lemma iwn_ref_ok (E : list Entry) (j : nat) (r : IwnRef) :
  (e ← index E j; Ok (iwn_ref e)) = Ok r -> exists e, E !! j = Some e /\ iwn_ref e = r.
Proof.
  unfold index. destruct (E !! j) as [e|]; [|done]. rewrite bind_ok.
  intros [= <-]. eauto.
Qed.

(** The keys and the references of a sorted group go together. *)
Lemma refs_keys (E : list Entry) (keyed : list (Z * nat)) (refs : list IwnRef) :
  Forall (fun kz => exists e, E !! kz.2 = Some e /\ py_int (iwn_id e) = Some kz.1) keyed ->
  Forall2 (fun j r => exists e, E !! j = Some e /\ iwn_ref e = r) keyed.*2 refs ->
  Forall2 (fun r z => py_int (ref_iwn_id r) = Some z) refs keyed.*1.
Proof.
  revert refs. induction keyed as [|kz keyed IH]; intros refs Hk Hr.
  - inversion Hr. constructor.
  - rewrite fmap_cons in Hr. inversion Hr as [|? r ? refs' (e & He & <-) Hr']; subst.
    inversion Hk as [|? ? (e' & He' & Hz) Hk']; subst.
    rewrite fmap_cons. constructor; [|by apply IH].
    rewrite He in He'. injection He' as <-. exact Hz.
Qed.

(** One group of more than one entry: its entries are marked, the group
    and its issue are appended. *)
Lemma third_pass_step_big (st st' : Marking) (g : string * list nat) :
  is_big g = true ->
  third_pass_step st g = Ok st' ->
  m_entries st' = mark_dupes g.2 (m_entries st) /\
  (exists sorted,
      m_groups st' = m_groups st ++ [{| group_ili := g.1; group_entries := sorted |}] /\
      Permutation sorted g.2) /\
  exists D,
    m_issues st' = add_duplicate_ili D (m_issues st) /\ issue_of (m_entries st) g D.
Proof.
  destruct g as [k js]. unfold is_big, third_pass_step. cbn [fst snd]. intros ->.
  destruct (mapM_result (sort_key (m_entries st)) js) as [keyed|] eqn:Hkeyed; [|done].
  rewrite bind_ok. set (sorted := (sort_by_key keyed).*2).
  destruct (index sorted 0) as [first|]; [|done]. rewrite bind_ok.
  destruct (index (m_entries st) first) as [e0|]; [|done]. rewrite bind_ok.
  destruct (mapM_result _ sorted) as [refs|] eqn:Hrefs; [|done]. rewrite bind_ok.
  intros [= <-]. cbn [m_entries m_groups m_issues].
  apply mapM_result_ok in Hkeyed, Hrefs.
  assert (Hjs : keyed.*2 = js).
  { clear -Hkeyed. induction Hkeyed as [|j kz js keyed Hj _ IH]; [done|].
    rewrite fmap_cons, IH. f_equal. by apply sort_key_ok in Hj as [-> _]. }
  assert (Hkz : Forall (fun kz => exists e, m_entries st !! kz.2 = Some e
                                            /\ py_int (iwn_id e) = Some kz.1) keyed).
  { clear -Hkeyed. induction Hkeyed as [|j kz js keyed Hj _ IH]; constructor; [|done].
    apply sort_key_ok in Hj as [-> ?]. done. }
  assert (Hperm : Permutation sorted js).
  { unfold sorted. rewrite <- Hjs. apply fmap_Permutation, sort_by_key_perm. }
  split; [done|]. split; [eauto|].
  eexists. split; [reflexivity|]. split; [reflexivity|].
  exists sorted, (sort_by_key keyed).*1. cbn [iwn_entries fst snd].
  split; [done|]. split; [|split; [|apply sort_by_key_sorted]].
  - eapply Forall2_impl; [exact Hrefs|]. intros j r Hr. by apply iwn_ref_ok.
  - apply (refs_keys (m_entries st)).
    + eapply Forall_forall. intros kz Hin.
      rewrite Forall_forall in Hkz. apply Hkz.
      by rewrite <- (sort_by_key_perm keyed).
    + eapply Forall2_impl; [exact Hrefs|]. intros j r Hr. by apply iwn_ref_ok.
Qed.

(** The issue of a group reads the references of the entries only: it is
    the same over entries that differ in their relation. *)
Lemma issue_of_same (E E' : list Entry) (g : string * list nat) (D : DuplicateIli) :
  Forall2 (fun a b => iwn_ref a = iwn_ref b) E' E ->
  issue_of E g D -> issue_of E' g D.
Proof.
  intros Hsame (Hili & sorted & keys & Hperm & Hrefs & Hkeys & Hsorted).
  split; [done|]. exists sorted, keys. split; [done|]. split; [|done].
  eapply Forall2_impl; [exact Hrefs|]. intros j r (e & He & Hr).
  destruct (Forall2_lookup_r _ _ _ _ _ Hsame He) as (e' & He' & Hee).
  exists e'. split; [done|]. by rewrite Hee.
Qed.

Lemma third_pass_spec (d : list (string * list nat)) (st st' : Marking) :
  foldM third_pass_step st d = Ok st' ->
  m_entries st' = mark_groups d (m_entries st) /\
  (exists new,
      duplicate_ili (m_issues st') = duplicate_ili (m_issues st) ++ new /\
      Forall2 (issue_of (m_entries st)) (List.filter is_big d) new) /\
  (exists gs,
      m_groups st' = m_groups st ++ gs /\
      Forall2 (fun g G => group_ili G = g.1 /\ Permutation (group_entries G) g.2)
        (List.filter is_big d) gs).
Proof.
  revert st. induction d as [|g d IH]; intros st.
  - intros [= <-]. split; [done|]. split; exists []; by rewrite app_nil_r.
  - rewrite foldM_cons, mark_groups_cons. cbn [List.filter].
    destruct (is_big g) eqn:Hbig.
    + destruct (third_pass_step st g) as [st1|] eqn:Hstep; [|done]. rewrite bind_ok.
      intros Hrest.
      destruct (third_pass_step_big _ _ _ Hbig Hstep)
        as (Hent & (sorted & Hgs & Hperm) & D & Hiss & HD).
      destruct (IH _ Hrest) as (Hent' & (new & Hnew & Hall) & (gs & Hgs' & Hgall)).
      rewrite Hent in Hent'. split; [done|]. split.
      * exists (D :: new). rewrite Hnew, Hiss. cbn [duplicate_ili add_duplicate_ili].
        rewrite <- app_assoc. split; [done|]. constructor; [done|].
        eapply Forall2_impl; [exact Hall|]. intros g' D' HD'.
        eapply issue_of_same; [|exact HD']. rewrite Hent.
        eapply Forall2_impl; [apply mark_dupes_same|]. apply same_iwn_ref.
      * eexists (_ :: gs). rewrite Hgs', Hgs, <- app_assoc. split; [done|].
        constructor; [|done]. done.
    + rewrite (third_pass_step_small _ _ Hbig), bind_ok. apply IH.
Qed.

End ThirdPass.

(** *** The detector *)

Section Detector.
Context {PN : PyNum}.

Lemma detect_unfold (entries : list Entry) (map2130 : gmap string string)
    (ewn : gmap string Synset) (issues : Issues)
    (entries' : list Entry) (groups : list DupeGroup) (issues' : Issues) :
  detect_and_mark_dupes entries map2130 ewn issues = Ok (entries', groups, issues') ->
  exists E1 I1 st',
    foldM (first_pass_step map2130 ewn) ([], issues) entries = Ok (E1, I1) /\
    foldM third_pass_step {| m_entries := E1; m_groups := []; m_issues := I1 |}
      (group_from 0 E1 []) = Ok st' /\
    entries' = m_entries st' /\ groups = m_groups st' /\ issues' = m_issues st'.
Proof.
  unfold detect_and_mark_dupes.
  destruct (foldM (first_pass_step map2130 ewn) _ entries) as [[E1 I1]|]; [|done].
  rewrite bind_ok.
  destruct (foldM third_pass_step _ _) as [st'|] eqn:H3; [|done]. rewrite bind_ok.
  intros [= <- <- <-]. by exists E1, I1, st'.
Qed.

(** After the first pass the dict of the second pass holds, under every
    ILI, the members of its group. *)
Lemma groups_are_members (entries E1 : list Entry) (map2130 : gmap string string)
    (ewn : gmap string Synset) (k : string) :
  Forall2 (fun e e1 => exists i i', first_pass_entry map2130 ewn e i = Ok (e1, i'))
    entries E1 ->
  dd_get (group_from 0 E1 []) k = members map2130 ewn k entries.
Proof.
  intros Hall.
  destruct (group_from_spec E1 0 [] (NoDup_nil_2 : NoDup ([] : list (string * list nat)).*1))
    as [_ ->].
  cbn [dd_get app]. unfold members. symmetry. apply positions_ext.
  eapply Forall2_impl; [exact Hall|]. intros e e1 (i & i' & H).
  symmetry. by eapply grouped_under_reaches.
Qed.

Lemma filter_keys_NoDup (f : string * list nat -> bool) (d : list (string * list nat)) :
  NoDup d.*1 -> NoDup (List.filter f d).*1.
Proof.
  induction d as [|g d IH]; intros Hd; [done|].
  rewrite fmap_cons in Hd. apply NoDup_cons in Hd as [Hg Hd].
  cbn [List.filter]. destruct (f g); [|by apply IH].
  rewrite fmap_cons. apply NoDup_cons. split; [|by apply IH].
  intros Hin. apply Hg. apply list_elem_of_fmap in Hin as (g' & -> & Hg').
  apply list_elem_of_fmap. exists g'. split; [done|].
  apply list_elem_of_In. apply list_elem_of_In in Hg'.
  by apply filter_In in Hg' as [? _].
Qed.

Lemma no_issue_of_key (E : list Entry) (gs : list (string * list nat))
    (new : list DuplicateIli) (k : string) :
  Forall2 (issue_of E) gs new -> k ∉ gs.*1 ->
  List.filter (fun D => String.eqb (dup_ili D) k) new = [].
Proof.
  induction 1 as [|g D gs new (Hili & _) _ IH]; intros Hk; [done|].
  rewrite fmap_cons in Hk. apply not_elem_of_cons in Hk as [Hne Hk].
  cbn [List.filter]. rewrite Hili.
  destruct (String.eqb g.1 k) eqn:He; [|by apply IH].
  apply String.eqb_eq in He. congruence.
Qed.

(** Exactly one issue is recorded for a group. *)
Lemma one_issue_of_group (E : list Entry) (gs : list (string * list nat))
    (new : list DuplicateIli) (g : string * list nat) :
  NoDup gs.*1 -> In g gs -> Forall2 (issue_of E) gs new ->
  exists D, List.filter (fun D => String.eqb (dup_ili D) g.1) new = [D] /\ issue_of E g D.
Proof.
  intros Hnd Hin Hall. revert Hnd Hin.
  induction Hall as [|g0 D0 gs new HD0 Hall IH]; intros Hnd Hin; [done|].
  rewrite fmap_cons in Hnd. apply NoDup_cons in Hnd as [Hg0 Hnd].
  cbn [List.filter]. destruct Hin as [->|Hin].
  - exists D0. destruct HD0 as [Hili HD0]. rewrite Hili, String.eqb_refl.
    split; [|by split]. f_equal. by eapply no_issue_of_key.
  - destruct (IH Hnd Hin) as (D & Hone & HD). exists D. split; [|done].
    destruct HD0 as [-> _].
    destruct (String.eqb g0.1 g.1) eqn:He; [|done].
    apply String.eqb_eq in He. exfalso. apply Hg0. rewrite He.
    apply list_elem_of_fmap. exists g. split; [done|]. by apply list_elem_of_In.
Qed.

(** C1: when the detector returns, every interlingual identity that more
    than one Direct record reaches has its whole group marked: each member
    is the record it was with the relation [dupe]; and the issues gained
    exactly one duplicate-issue entry for that identity, which lists the
    members, each once, by ascending [int(iwn_id)]. *)
Theorem detect_marks_duplicate_groups (entries : list Entry)
    (map2130 : gmap string string) (ewn : gmap string Synset) (issues : Issues)
    (entries' : list Entry) (groups : list DupeGroup) (issues' : Issues) (i : string) :
  detect_and_mark_dupes entries map2130 ewn issues = Ok (entries', groups, issues') ->
  1 < length (members map2130 ewn i entries) ->
  (forall j, j ∈ members map2130 ewn i entries ->
     exists e e', entries !! j = Some e /\ entries' !! j = Some e' /\
                  rel e' = "dupe" /\ iwn_ref e' = iwn_ref e /\ iwn_key e' = iwn_key e) /\
  exists new D,
    duplicate_ili issues' = duplicate_ili issues ++ new /\
    List.filter (fun D => String.eqb (dup_ili D) i) new = [D] /\
    issue_of entries (i, members map2130 ewn i entries) D.
Proof.
  intros Hrun Hbig.
  destruct (detect_unfold _ _ _ _ _ _ _ Hrun) as (E1 & I1 & st' & H1 & H3 & -> & -> & ->).
  destruct (first_pass_spec _ _ _ _ _ _ _ H1) as (es1 & Hes1 & Hall & Hdup).
  rewrite app_nil_l in Hes1. subst es1.
  destruct (third_pass_spec _ _ _ H3) as (Hent & (new & Hnew & Hissues) & _).
  cbn [m_entries m_issues] in *.
  set (d := group_from 0 E1 []) in *.
  destruct (group_from_spec E1 0 [] (NoDup_nil_2 : NoDup ([] : list (string * list nat)).*1))
    as [Hnd _]. fold d in Hnd.
  pose proof (groups_are_members _ _ _ _ i Hall) as Hget. fold d in Hget.
  assert (Hin : In (i, members map2130 ewn i entries) d).
  { rewrite <- Hget. apply dd_get_nonempty_in. rewrite Hget.
    intros Hnil. rewrite Hnil in Hbig. simpl in Hbig. lia. }
  assert (Hisbig : is_big (i, members map2130 ewn i entries) = true).
  { unfold is_big. cbn [snd]. by apply Nat.ltb_lt. }
  split.
  - intros j Hj.
    pose proof Hj as (e & _ & He & _)%positions_lookup. rewrite Nat.sub_0_r in He.
    destruct (Forall2_lookup_l _ _ _ _ _ Hall He) as (e1 & He1 & iss & iss1 & Hfp).
    destruct (first_pass_entry_keeps _ _ _ _ _ _ Hfp) as (_ & Href & Hkey & _).
    exists e, (set_rel "dupe" e1). split; [done|]. split; [|done].
    rewrite Hent, mark_groups_lookup, He1.
    replace (in_big_group d j) with true; [done|].
    symmetry. apply existsb_exists. eexists. split; [exact Hin|].
    rewrite Hisbig. cbn [snd andb]. by apply bool_decide_eq_true_2.
  - destruct (one_issue_of_group E1 (List.filter is_big d) new
                (i, members map2130 ewn i entries)) as (D & Hone & HD).
    + by apply filter_keys_NoDup.
    + apply filter_In. by split.
    + done.
    + exists new, D. rewrite Hnew, Hdup. split; [done|]. split; [done|].
      eapply issue_of_same; [|exact HD].
      eapply Forall2_impl; [exact Hall|]. intros e e1 (iss & iss1 & Hfp).
      by destruct (first_pass_entry_keeps _ _ _ _ _ _ Hfp) as (_ & -> & _).
Qed.

End Detector.

(** The two records of the example that resolve to [i12345] end as
    [dupe]; the issue lists them as 3, 20. *)
Lemma detect_marks_duplicate_groups_witness :
  exists entries' groups issues',
    detect_and_mark_dupes (PN := AsciiNum) Examples.dup_entries Examples.dup_map
      Examples.dup_db no_issues = Ok (entries', groups, issues') /\
    members Examples.dup_map Examples.dup_db "i12345" Examples.dup_entries = [0; 1] /\
    rel <$> entries' = ["dupe"; "dupe"; "equal"] /\
    (fun D => ref_iwn_id <$> iwn_entries D) <$> duplicate_ili issues' = [["3"; "20"]] /\
    (forall j, j ∈ members Examples.dup_map Examples.dup_db "i12345" Examples.dup_entries ->
       exists e e', Examples.dup_entries !! j = Some e /\ entries' !! j = Some e' /\
                    rel e' = "dupe" /\ iwn_ref e' = iwn_ref e /\ iwn_key e' = iwn_key e) /\
    exists new D,
      duplicate_ili issues' = duplicate_ili no_issues ++ new /\
      List.filter (fun D => String.eqb (dup_ili D) "i12345") new = [D] /\
      issue_of (PN := AsciiNum) Examples.dup_entries
        ("i12345", members Examples.dup_map Examples.dup_db "i12345" Examples.dup_entries) D.
Proof.
  eexists _, _, _.
  split; [vm_compute; reflexivity|].
  split; [vm_compute; reflexivity|].
  split; [vm_compute; reflexivity|].
  split; [vm_compute; reflexivity|].
  eapply (detect_marks_duplicate_groups (PN := AsciiNum) Examples.dup_entries
            Examples.dup_map Examples.dup_db no_issues).
  - vm_compute. reflexivity.
  - vm_compute. lia.
Defined.

(** *** Running the detector on its own output *)

Section Again.
Context {PN : PyNum}.

Lemma first_pass_fixed (map2130 : gmap string string) (ewn : gmap string Synset)
    (l done : list Entry) (iss : Issues) :
  Forall (fun e => forall i, exists i', first_pass_entry map2130 ewn e i = Ok (e, i')) l ->
  exists iss',
    foldM (first_pass_step map2130 ewn) (done, iss) l = Ok (done ++ l, iss') /\
    duplicate_ili iss' = duplicate_ili iss.
Proof.
  intros Hall. revert done iss.
  induction Hall as [|e l He _ IH]; intros done iss.
  - exists iss. by rewrite app_nil_r.
  - rewrite foldM_cons.
    change (first_pass_step map2130 ewn (done, iss) e)
      with ('(e1, iss1) ← first_pass_entry map2130 ewn e iss; Ok (done ++ [e1], iss1)).
    destruct (He iss) as [iss1 Hfp]. rewrite Hfp, !bind_ok.
    destruct (IH (done ++ [e]) iss1) as (iss' & Hrun & Hdup).
    exists iss'. rewrite Hrun, <- app_assoc. split; [done|].
    rewrite Hdup. by destruct (first_pass_entry_keeps _ _ _ _ _ _ Hfp) as (_ & _ & _ & _ & -> & _).
Qed.

Lemma third_pass_small (d : list (string * list nat)) (st : Marking) :
  Forall (fun g => is_big g = false) d -> foldM third_pass_step st d = Ok st.
Proof.
  induction 1 as [|g d Hg _ IH]; [reflexivity|].
  by rewrite foldM_cons, (third_pass_step_small _ _ Hg), bind_ok.
Qed.

Lemma in_big_group_member (d : list (string * list nat)) (k : string) (j : nat) :
  NoDup d.*1 -> 1 < length (dd_get d k) -> j ∈ dd_get d k -> in_big_group d j = true.
Proof.
  intros Hnd Hbig Hj. apply existsb_exists. exists (k, dd_get d k). split.
  - apply dd_get_nonempty_in. intros Hnil. rewrite Hnil in Hbig. simpl in Hbig. lia.
  - unfold is_big. cbn [snd]. rewrite (proj2 (Nat.ltb_lt _ _) Hbig).
    by rewrite bool_decide_eq_true_2.
Qed.

(** In the output of the detector no ILI has two Direct records left. *)
Lemma marked_groups_small (E1 : list Entry) (k : string) :
  let d := group_from 0 E1 [] in
  length (positions (grouped_under k) 0 (mark_groups d E1)) <= 1.
Proof.
  intros d.
  destruct (group_from_spec E1 0 [] (NoDup_nil_2 : NoDup ([] : list (string * list nat)).*1))
    as [Hnd Hget]. fold d in Hnd, Hget.
  assert (Hsub : forall j, j ∈ positions (grouped_under k) 0 (mark_groups d E1) ->
                           j ∈ dd_get d k /\ in_big_group d j = false).
  { intros j (e' & _ & He' & Hp)%positions_lookup. rewrite Nat.sub_0_r in He'.
    rewrite mark_groups_lookup in He'.
    destruct (in_big_group d j) eqn:Hbig.
    - destruct (E1 !! j) as [e1|]; [|done]. injection He' as <-.
      unfold grouped_under in Hp. cbn [rel set_rel] in Hp. done.
    - split; [|done]. rewrite Hget. cbn [dd_get app].
      apply positions_lookup. exists e'. rewrite Nat.sub_0_r. split; [lia|done]. }
  destruct (decide (1 < length (dd_get d k))) as [Hbig|Hsmall].
  - destruct (positions (grouped_under k) 0 (mark_groups d E1)) as [|j js] eqn:Hpos; [simpl; lia|].
    destruct (Hsub j) as [Hj Hnot]; [apply list_elem_of_here|].
    by rewrite (in_big_group_member _ _ _ Hnd Hbig Hj) in Hnot.
  - transitivity (length (dd_get d k)); [|lia].
    apply submseteq_length, NoDup_submseteq; [apply positions_NoDup|].
    intros j Hj. by apply Hsub.
Qed.

(** C3: the detector, run on the entries it returned, returns them as they
    are, with no duplicate group and no new duplicate issue: no relation
    changes. *)
Theorem detect_twice (entries : list Entry) (map2130 : gmap string string)
    (ewn : gmap string Synset) (issues issues2 : Issues)
    (entries' : list Entry) (groups : list DupeGroup) (issues' : Issues) :
  detect_and_mark_dupes entries map2130 ewn issues = Ok (entries', groups, issues') ->
  exists issues2',
    detect_and_mark_dupes entries' map2130 ewn issues2 = Ok (entries', [], issues2') /\
    duplicate_ili issues2' = duplicate_ili issues2.
Proof.
  intros Hrun.
  destruct (detect_unfold _ _ _ _ _ _ _ Hrun) as (E1 & I1 & st' & H1 & H3 & -> & -> & ->).
  destruct (first_pass_spec _ _ _ _ _ _ _ H1) as (es1 & Hes1 & Hall & Hdup).
  rewrite app_nil_l in Hes1. subst es1.
  destruct (third_pass_spec _ _ _ H3) as (Hent & _ & _).
  cbn [m_entries] in Hent. rewrite Hent. set (d := group_from 0 E1 []).
  assert (Hfix : Forall (fun e => forall i, exists i',
                           first_pass_entry map2130 ewn e i = Ok (e, i'))
                   (mark_groups d E1)).
  { apply Forall_lookup. intros j e' He' iss.
    rewrite mark_groups_lookup in He'.
    destruct (E1 !! j) as [e1|] eqn:He1; [|by destruct (in_big_group d j)].
    destruct (Forall2_lookup_r _ _ _ _ _ Hall He1) as (e & _ & i0 & i1 & Hfp).
    destruct (in_big_group d j); injection He' as <-.
    - exists iss. by apply first_pass_entry_other.
    - by eapply first_pass_entry_again. }
  destruct (first_pass_fixed map2130 ewn _ [] issues2 Hfix) as (I2 & Hfirst & HdupI2).
  exists I2. split; [|done].
  unfold detect_and_mark_dupes. rewrite Hfirst, app_nil_l, bind_ok.
  rewrite third_pass_small; [by rewrite bind_ok|].
  apply Forall_forall. intros [k js] Hin. apply list_elem_of_In in Hin.
  destruct (group_from_spec (mark_groups d E1) 0 []
              (NoDup_nil_2 : NoDup ([] : list (string * list nat)).*1)) as [Hnd Hget].
  pose proof (dd_get_in _ _ _ Hnd Hin) as Hjs. rewrite Hget in Hjs. cbn [dd_get app] in Hjs.
  unfold is_big. cbn [snd]. apply Nat.ltb_ge. rewrite <- Hjs.
  apply marked_groups_small.
Qed.

End Again.

Lemma detect_twice_witness :
  exists entries' groups issues',
    detect_and_mark_dupes (PN := AsciiNum) Examples.dup_entries Examples.dup_map
      Examples.dup_db no_issues = Ok (entries', groups, issues') /\
    length groups = 1 /\
    exists issues2',
      detect_and_mark_dupes (PN := AsciiNum) entries' Examples.dup_map Examples.dup_db
        issues' = Ok (entries', [], issues2') /\
      duplicate_ili issues2' = duplicate_ili issues'.
Proof.
  eexists _, _, _.
  split; [vm_compute; reflexivity|].
  split; [reflexivity|].
  eapply (detect_twice (PN := AsciiNum) Examples.dup_entries Examples.dup_map
            Examples.dup_db no_issues).
  vm_compute. reflexivity.
Defined.

(** C8 fails on the code: two Direct rows whose identifiers are no numbers
    pass the parser, resolve to the same ILI, and the sort of their group
    raises [ValueError] out of the detector and out of the script. *)
Lemma detect_raises_on_named_ids :
  exists entries map2130,
    load_iwn_map (PN := AsciiNum) Examples.named_ids_fs no_issues = Ok (entries, no_issues) /\
    iwn_id <$> entries = ["IWN1"; "IWN2"] /\
    load_pwn_map (PN := AsciiNum) Examples.named_ids_fs = Ok map2130 /\
    detect_and_mark_dupes (PN := AsciiNum) entries map2130 Examples.e2e_db no_issues
    = Raise ValueError /\
    main (PN := AsciiNum) Examples.named_ids_fs (Some Examples.e2e_db) = Raise ValueError.
Proof.
  eexists _, _.
  split; [vm_compute; reflexivity|].
  split; [reflexivity|].
  split; [vm_compute; reflexivity|].
  split; vm_compute; reflexivity.
Qed.

(** *** What can raise *)

Lemma rsplit_last_some (sep : ascii) (s : string) :
  contains sep s = true -> is_Some (rsplit_last sep s).
Proof.
  induction s as [|c s IH]; intros H; [done|].
  simpl in *. destruct (rsplit_last sep s) as [[a b]|] eqn:Hr; [done|].
  destruct (Ascii.eqb c sep) eqn:Hc; [done|]. simpl in H.
  by destruct (IH H).
Qed.

(** The resolver raises on no key that holds a dash. *)
Lemma lookup_synset_total (ewn : gmap string Synset) (k : string) :
  contains dash k = true -> exists res, lookup_synset ewn k = Ok res.
Proof.
  intros Hk. unfold lookup_synset, lookup_synset_log, rsplit1.
  destruct (rsplit_last_some _ _ Hk) as [[offset pos] ->]. cbn [unpack2].
  unfold ewn_synset_log, ewn_synset.
  destruct (ewn !! _); [by eexists|].
  destruct (String.eqb pos "a"); [|by eexists].
  destruct (ewn !! _); by eexists.
Qed.

Lemma first_pass_entry_total (map2130 : gmap string string) (ewn : gmap string Synset)
    (e : Entry) (iss : Issues) :
  dashed_values map2130 ->
  exists e1 iss1, first_pass_entry map2130 ewn e iss = Ok (e1, iss1).
Proof.
  intros Hm. unfold first_pass_entry.
  destruct (negb _); [by eexists _, _|].
  destruct (map2130 !! pwn21_key e) as [k30|] eqn:Hk; [|by eexists _, _].
  destruct (lookup_synset_total ewn k30 (Hm _ _ Hk)) as [[syn key] ->]. rewrite bind_ok.
  destruct syn as [syn|]; [|by eexists _, _].
  destruct (synset_ili syn); by eexists _, _.
Qed.

Lemma first_pass_total (map2130 : gmap string string) (ewn : gmap string Synset)
    (entries done : list Entry) (iss : Issues) :
  dashed_values map2130 ->
  exists done' iss', foldM (first_pass_step map2130 ewn) (done, iss) entries
                     = Ok (done', iss').
Proof.
  intros Hm. revert done iss. induction entries as [|e entries IH]; intros done iss.
  - by eexists _, _.
  - rewrite foldM_cons.
    change (first_pass_step map2130 ewn (done, iss) e)
      with ('(e1, iss1) ← first_pass_entry map2130 ewn e iss; Ok (done ++ [e1], iss1)).
    destruct (first_pass_entry_total map2130 ewn e iss Hm) as (e1 & iss1 & ->).
    rewrite !bind_ok. apply IH.
Qed.

Lemma index_lookup {A : Type} (l : list A) (i : nat) (x : A) :
  l !! i = Some x -> index l i = Ok x.
Proof. unfold index. by intros ->. Qed.

Lemma mapM_result_total {A B : Type} (f : A -> result B) (l : list A) :
  Forall (fun x => exists y, f x = Ok y) l -> exists ys, mapM_result f l = Ok ys.
Proof.
  induction 1 as [|x l [y Hy] _ [ys IH]]; [by eexists|].
  simpl. rewrite Hy, IH. by eexists.
Qed.

Section Total.
Context {PN : PyNum}.

(** A group whose members are entries with numeric identifiers is sorted
    and marked without an exception. *)
Lemma third_pass_step_total (st : Marking) (g : string * list nat) :
  Forall (fun j => exists e, m_entries st !! j = Some e /\ is_Some (py_int (iwn_id e))) g.2 ->
  exists st', third_pass_step st g = Ok st'.
Proof.
  destruct g as [k js]. cbn [snd]. intros Hjs. unfold third_pass_step.
  destruct (1 <? length js) eqn:Hbig; [|by eexists].
  apply Nat.ltb_lt in Hbig.
  destruct (mapM_result_total (sort_key (m_entries st)) js) as [keyed Hkeyed].
  { eapply Forall_impl; [exact Hjs|]. intros j (e & He & [z Hz]).
    unfold sort_key. rewrite (index_lookup _ _ _ He), bind_ok, Hz. by eexists. }
  rewrite Hkeyed, bind_ok. apply mapM_result_ok in Hkeyed.
  assert (Hkj : keyed.*2 = js).
  { clear -Hkeyed. induction Hkeyed as [|j kz js keyed Hj _ IH]; [done|].
    rewrite fmap_cons, IH. f_equal. by apply sort_key_ok in Hj as [-> _]. }
  assert (Hperm : Permutation (sort_by_key keyed).*2 js).
  { rewrite <- Hkj. apply fmap_Permutation, sort_by_key_perm. }
  assert (Hsorted : Forall (fun j => exists e, m_entries st !! j = Some e
                                              /\ is_Some (py_int (iwn_id e)))
                      (sort_by_key keyed).*2).
  { by rewrite Hperm. }
  destruct (sort_by_key keyed).*2 as [|first sorted] eqn:Hs.
  { apply Permutation_length in Hperm. simpl in Hperm. lia. }
  change (index (first :: sorted) 0) with (Ok (A := nat) first). rewrite bind_ok.
  inversion Hsorted as [|? ? (e0 & He0 & _) _]; subst.
  rewrite (index_lookup _ _ _ He0), bind_ok.
  destruct (mapM_result_total
              (fun j => e ← index (m_entries st) j; Ok (iwn_ref e)) (first :: sorted))
    as [refs Hrefs].
  { eapply Forall_impl; [exact Hsorted|]. intros j (e & He & _).
    rewrite (index_lookup _ _ _ He), bind_ok. by eexists. }
  rewrite Hrefs, bind_ok. by eexists.
Qed.

Lemma third_pass_total (d : list (string * list nat)) (st : Marking) :
  Forall (fun g => Forall (fun j => exists e, m_entries st !! j = Some e
                                              /\ is_Some (py_int (iwn_id e))) g.2) d ->
  exists st', foldM third_pass_step st d = Ok st'.
Proof.
  revert st. induction d as [|g d IH]; intros st Hd; [by eexists|].
  inversion Hd as [|? ? Hg Hd']; subst.
  rewrite foldM_cons. destruct (third_pass_step_total st g Hg) as [st1 Hstep].
  rewrite Hstep, bind_ok. apply IH.
  assert (Hent : Forall2 (fun a b => set_rel "" a = set_rel "" b)
                   (m_entries st) (m_entries st1)).
  { destruct (is_big g) eqn:Hbig.
    - destruct (third_pass_step_big _ _ _ Hbig Hstep) as (-> & _). apply mark_dupes_same.
    - rewrite (third_pass_step_small _ _ Hbig) in Hstep. injection Hstep as <-.
      apply Forall2_same_length_lookup. split; [done|]. intros ? ? ? ? ?. congruence. }
  eapply Forall_impl; [exact Hd'|]. intros g' Hg'.
  eapply Forall_impl; [exact Hg'|]. intros j (e & He & Hnum).
  destruct (Forall2_lookup_l _ _ _ _ _ Hent He) as (e' & He' & Hee).
  exists e'. split; [done|].
  apply same_iwn_ref in Hee.
  change (iwn_id e') with (ref_iwn_id (iwn_ref e')). by rewrite <- Hee.
Qed.

Lemma groups_in_range (E : list Entry) (g : string * list nat) :
  In g (group_from 0 E []) ->
  Forall (fun j => exists e, E !! j = Some e) g.2.
Proof.
  intros Hin.
  destruct (group_from_spec E 0 [] (NoDup_nil_2 : NoDup ([] : list (string * list nat)).*1))
    as [Hnd Hget].
  destruct g as [k js]. pose proof (dd_get_in _ _ _ Hnd Hin) as Hjs.
  rewrite Hget in Hjs. cbn [dd_get app snd] in *. subst js.
  apply Forall_forall. intros j (e & _ & He & _)%positions_lookup.
  rewrite Nat.sub_0_r in He. eauto.
Qed.

(** The detector returns whenever the values of the version map are keys
    and [int] reads the identifier of every record: the conversion of
    [iwn_id] in the sort is the one place where it can raise on records. *)
Lemma detect_total (entries : list Entry)
    (map2130 : gmap string string) (ewn : gmap string Synset) (issues : Issues) :
  dashed_values map2130 ->
  numeric_ids entries ->
  exists entries' groups issues',
    detect_and_mark_dupes entries map2130 ewn issues = Ok (entries', groups, issues').
Proof.
  intros Hm Hnum. unfold detect_and_mark_dupes.
  destruct (first_pass_total map2130 ewn entries [] issues Hm) as (E1 & I1 & H1).
  rewrite H1, bind_ok.
  destruct (first_pass_spec _ _ _ _ _ _ _ H1) as (es1 & Hes1 & Hall & _).
  rewrite app_nil_l in Hes1. subst es1.
  destruct (third_pass_total (group_from 0 E1 [])
              {| m_entries := E1; m_groups := []; m_issues := I1 |}) as [st' H3].
  { apply Forall_forall. intros g Hg. apply list_elem_of_In in Hg.
    eapply Forall_impl; [exact (groups_in_range _ _ Hg)|].
    intros j [e1 He1]. exists e1. split; [done|]. cbn [m_entries] in *.
    destruct (Forall2_lookup_r _ _ _ _ _ Hall He1) as (e & He & i0 & i1 & Hfp).
    destruct (first_pass_entry_keeps _ _ _ _ _ _ Hfp) as (_ & Href & _).
    change (iwn_id e1) with (ref_iwn_id (iwn_ref e1)). rewrite Href. cbn [ref_iwn_id iwn_ref].
    unfold numeric_ids in Hnum. rewrite Forall_lookup in Hnum. by eapply Hnum. }
  rewrite H3, bind_ok. by eexists _, _, _.
Qed.

End Total.

(** *** The vocabulary, unfolded *)

Lemma resolved_ili_equal (map2130 : gmap string string) (ewn : gmap string Synset)
    (e : Entry) :
  rel e = "equal" ->
  resolved_ili map2130 ewn e
  = match map2130 !! pwn21_key e with
    | None => None
    | Some k30 =>
        match lookup_synset ewn k30 with
        | Ok (Some syn, _) =>
            match synset_ili syn with
            | Some il =>
                match ili_id il with
                | Some i => if truthy i then Some i else None
                | None => None
                end
            | None => None
            end
        | _ => None
        end
    end.
Proof.
  intros Hrel. unfold resolved_ili, first_pass_entry. rewrite Hrel.
  cbn [String.eqb Ascii.eqb Bool.eqb negb].
  destruct (map2130 !! pwn21_key e) as [k30|]; [|reflexivity].
  destruct (lookup_synset ewn k30) as [[[syn|] key]|]; [|reflexivity|reflexivity].
  rewrite bind_ok.
  destruct (synset_ili syn) as [il|]; [|reflexivity].
  destruct (ili_id il) as [i|]; reflexivity.
Qed.

(** X4: what it is for a record to reach an identity: it is a Direct record,
    its version key has a translation, the resolver finds a synset for the
    translation, and the synset has an ILI whose id is that identity, a
    non-empty string. *)
Theorem reaches_spec (map2130 : gmap string string) (ewn : gmap string Synset)
    (i : string) (e : Entry) :
  reaches map2130 ewn i e = true <->
  rel e = "equal" /\ i <> "" /\
  exists k30 syn key il,
    map2130 !! pwn21_key e = Some k30 /\
    lookup_synset ewn k30 = Ok (Some syn, key) /\
    synset_ili syn = Some il /\
    ili_id il = Some i.
Proof.
  unfold reaches.
  destruct (String.eqb (rel e) "equal") eqn:Hrel.
  2:{ apply String.eqb_neq in Hrel. split; [done|]. by intros [? _]. }
  apply String.eqb_eq in Hrel. rewrite (resolved_ili_equal _ _ _ Hrel). cbn [andb].
  split.
  - intros H. split; [done|].
    destruct (map2130 !! pwn21_key e) as [k30|] eqn:Hk; [|done].
    destruct (lookup_synset ewn k30) as [[[syn|] key]|] eqn:Hl; [|done|done].
    destruct (synset_ili syn) as [il|] eqn:Hil; [|done].
    destruct (ili_id il) as [i'|] eqn:Hid; [|done].
    unfold truthy in H. destruct (String.eqb i' "") eqn:Hempty; cbn [negb] in H; [done|]. apply String.eqb_eq in H. subst i'.
    apply String.eqb_neq in Hempty. split; [done|].
    by exists k30, syn, key, il.
  - intros (_ & Hne & k30 & syn & key & il & -> & -> & -> & ->).
    unfold truthy. apply String.eqb_neq in Hne. rewrite Hne. cbn [negb].
    apply String.eqb_refl.
Qed.

End DetectorFacts.

(** ** map2ili.py: the final mapping builder and the script *)

Module BuilderFacts.
Import Py PyFacts Map2ili DetectorFacts.

Lemma get_item2_set (r k r' k' : string) (v : option string)
    (m : gmap string (gmap string (option string))) :
  get_item2 r' k' (set_item2 r k v m)
  = if decide (r = r' /\ k = k') then Some v else get_item2 r' k' m.
Proof.
  unfold get_item2, set_item2.
  destruct (decide (r = r')) as [<-|Hr].
  - rewrite lookup_insert_eq.
    destruct (decide (k = k')) as [<-|Hk].
    + rewrite lookup_insert_eq. by rewrite decide_True.
    + rewrite lookup_insert_ne by done. rewrite decide_False by tauto.
      by destruct (m !! r).
  - rewrite lookup_insert_ne by done. by rewrite decide_False by tauto.
Qed.

(** One step of the builder writes under the relation and the key of the
    entry, or does not write. *)
Lemma final_step_mapping (map2130 : gmap string string) (ewn : gmap string Synset)
    (st st' : Final) (e : Entry) :
  final_step map2130 ewn st e = Ok st' ->
  iwn_to_ili st' = iwn_to_ili st \/
  exists v, iwn_to_ili st' = set_item2 (rel e) (iwn_key e) v (iwn_to_ili st).
Proof.
  unfold final_step.
  destruct (get_ili e); [intros [= <-]; right; eauto|].
  destruct (map2130 !! pwn21_key e) as [k30|]; [|intros [= <-]; by left].
  destruct (lookup_synset ewn k30) as [[syn key]|]; [|done]. rewrite bind_ok.
  destruct syn as [syn|]; [|intros [= <-]; by left].
  destruct (synset_ili syn); intros [= <-]; [right; eauto|by left].
Qed.



(** An entry of another relation or another key leaves the value alone. *)
Lemma final_steps_other (map2130 : gmap string string) (ewn : gmap string Synset)
    (l : list Entry) (st st' : Final) (r k : string) :
  foldM (final_step map2130 ewn) st l = Ok st' ->
  (forall e, In e l -> rel e = r -> iwn_key e <> k) ->
  get_item2 r k (iwn_to_ili st') = get_item2 r k (iwn_to_ili st).
Proof.
  revert st. induction l as [|e l IH]; intros st; [by intros [= <-]|].
  rewrite foldM_cons.
  destruct (final_step map2130 ewn st e) as [st1|] eqn:Hstep; [|done]. rewrite bind_ok.
  intros Hrest Hother. rewrite (IH _ Hrest) by (intros; apply Hother; [by right|done]).
  destruct (final_step_mapping _ _ _ _ _ Hstep) as [->|[v ->]]; [done|].
  rewrite get_item2_set. rewrite decide_False; [done|].
  intros [Hr Hk]. by apply (Hother e (or_introl eq_refl)).
Qed.



(** *** The script, end to end *)

Lemma first_pass_entry_found (map2130 : gmap string string) (ewn : gmap string Synset)
    (e : Entry) (iss : Issues) (k30 : string) (syn : Synset) (il : ILI) :
  rel e = "equal" ->
  map2130 !! pwn21_key e = Some k30 ->
  lookup_synset ewn k30 = Ok (Some syn, Some k30) ->
  synset_ili syn = Some il ->
  first_pass_entry map2130 ewn e iss
  = Ok (set_ili (ili_id il) (set_pwn30_key (Some (py_or (Some k30) k30)) e), iss).
Proof.
  intros Hrel Hk Hl Hi. unfold first_pass_entry.
  rewrite Hrel. cbn [String.eqb Ascii.eqb Bool.eqb negb]. rewrite Hk, Hl, bind_ok, Hi.
  reflexivity.
Qed.

(** C9, with the POS of the target column written as the parser reads it
    ([NOUN]): the mapping line, the one row and a database in which
    [omw-en-00001741-n] has the ILI [i900] give the final mapping
    [equal: {IWN1_n: i900}]. *)
Theorem end_to_end_mapping (ewn : gmap string Synset) (syn : Synset) :
  ewn !! "omw-en-00001741-n" = Some syn ->
  synset_ili syn = Some {| ili_id := Some "i900" |} ->
  exists run,
    main (PN := AsciiNum) Examples.e2e_fs (Some ewn) = Ok run /\
    run_iwn_to_ili run = <["equal" := <["IWN1_n" := Some "i900"]> ∅]> ∅ /\
    get_item2 "equal" "IWN1_n" (run_iwn_to_ili run) = Some (Some "i900").
Proof.
  intros Hsyn Hili. unfold main, open_wordnet. rewrite bind_ok.
  assert (Hmap : load_pwn_map (PN := AsciiNum) Examples.e2e_fs
                 = Ok (<["00001740-n" := "00001741-n"]> ∅)) by (vm_compute; reflexivity).
  rewrite Hmap, bind_ok.
  assert (Hrows : load_iwn_map (PN := AsciiNum) Examples.e2e_fs no_issues
                  = Ok ([{| iwn_id := "IWN1"; iwn_pos := "NOUN"; pwn21_offset := "1740";
                            pwn21_pos := "NOUN"; english_lemmas := "cat";
                            english_gloss := "..."; hindi_lemmas := "...";
                            hindi_gloss := "..."; original_rel := "Direct";
                            rel := "equal"; iwn_key := "IWN1_n";
                            pwn21_key := "00001740-n"; ili := None;
                            pwn30_key := None |}], no_issues))
    by (vm_compute; reflexivity).
  rewrite Hrows, bind_ok.
  unfold detect_and_mark_dupes. rewrite foldM_cons.
  match goal with
  | |- context [first_pass_step ?m ?w ([], ?i) ?e] =>
      change (first_pass_step m w ([], i) e)
        with ('(e1, iss1) ← first_pass_entry m w e i; Ok ([] ++ [e1], iss1))
  end.
  erewrite (first_pass_entry_found _ ewn _ _ "00001741-n" syn);
    [|reflexivity|vm_compute; reflexivity
     |exact (ResolverFacts.lookup_synset_direct ewn "00001741" "n" syn eq_refl Hsyn)
     |exact Hili].
  eexists. split; [vm_compute; reflexivity|].
  split; vm_compute; reflexivity.
Qed.

Lemma end_to_end_mapping_witness :
  exists run,
    main (PN := AsciiNum) Examples.e2e_fs (Some Examples.e2e_db) = Ok run /\
    run_iwn_to_ili run = <["equal" := <["IWN1_n" := Some "i900"]> ∅]> ∅ /\
    get_item2 "equal" "IWN1_n" (run_iwn_to_ili run) = Some (Some "i900").
Proof.
  apply (end_to_end_mapping Examples.e2e_db (Examples.synset_of "i900")).
  - vm_compute. reflexivity.
  - reflexivity.
Defined.

(** C9 as the spec states it fails: with [n] in the fourth column the row
    is rejected for its POS tag, no record is made, and the final mapping
    is empty. *)
Lemma end_to_end_literal_row :
  exists run,
    main (PN := AsciiNum) Examples.e2e_literal_fs (Some Examples.e2e_db) = Ok run /\
    run_entries run = [] /\
    run_iwn_to_ili run = ∅ /\
    get_item2 "equal" "IWN1_n" (run_iwn_to_ili run) = None /\
    error <$> malformed_lines (run_issues run) = ["unknown PWN POS 'n'"].
Proof.
  eexists. split; [vm_compute; reflexivity|].
  repeat split; vm_compute; reflexivity.
Qed.

(** *** What can raise in the builder and in the script *)

(** The builder raises on no record. *)
Lemma build_total (entries : list Entry) (map2130 : gmap string string)
    (ewn : gmap string Synset) (issues : Issues) :
  dashed_values map2130 ->
  exists fin, build_final_mapping entries map2130 ewn issues = Ok fin.
Proof.
  intros Hm. unfold build_final_mapping. generalize ({| iwn_to_ili := ∅; stats := ∅;
                                                        f_issues := issues |}).
  induction entries as [|e entries IH]; intros st; [by eexists|].
  rewrite foldM_cons.
  assert (Hstep : exists st1, final_step map2130 ewn st e = Ok st1).
  { unfold final_step. destruct (get_ili e); [by eexists|].
    destruct (map2130 !! pwn21_key e) as [k30|] eqn:Hk; [|by eexists].
    destruct (lookup_synset_total ewn k30 (Hm _ _ Hk)) as [[syn key] ->]. rewrite bind_ok.
    destruct syn as [syn|]; [|by eexists].
    destruct (synset_ili syn); by eexists. }
  destruct Hstep as [st1 ->]. rewrite bind_ok. apply IH.
Qed.

Section Script.
Context {PN : PyNum}.

Lemma contains_app_r (c : ascii) (a b : string) :
  contains c b = true -> contains c (a +:+ b) = true.
Proof. intros H. rewrite contains_app, H. apply orb_true_r. Qed.

Lemma pwn_line_dashed (pos line : string) (m m' : gmap string string) :
  pwn_line pos m line = Ok m' -> dashed_values m -> dashed_values m'.
Proof.
  unfold pwn_line. destruct (length _ <? 3); [by intros [= <-]|].
  destruct (index _ 0) as [offset|]; [|done]. rewrite bind_ok.
  destruct (pairs_of _) as [pairs|]; [|done]. rewrite bind_ok.
  destruct (py_max pair_gt pairs) as [best|]; [|done]. rewrite bind_ok.
  intros [= <-] Hm k v Hkv.
  apply lookup_insert_Some in Hkv as [[_ <-]|[_ Hkv]]; [|by eapply Hm].
  apply contains_app_r. reflexivity.
Qed.

Lemma foldM_invariant {A St : Type} (P : St -> Prop) (f : St -> A -> result St)
    (l : list A) (s s' : St) :
  (forall s x s', f s x = Ok s' -> P s -> P s') ->
  foldM f s l = Ok s' -> P s -> P s'.
Proof.
  intros Hf. revert s. induction l as [|x l IH]; intros s; [by intros [= <-]|].
  rewrite foldM_cons. destruct (f s x) as [s1|] eqn:Hx; [|done]. rewrite bind_ok.
  intros Hrest Hs. apply (IH _ Hrest). by eapply Hf.
Qed.

(** The values [load_pwn_map] writes are keys [offset-pos]. *)
Lemma load_pwn_map_dashed (fs : gmap string string) (m : gmap string string) :
  load_pwn_map fs = Ok m -> dashed_values m.
Proof.
  unfold load_pwn_map. intros H.
  eapply (foldM_invariant dashed_values); [|exact H|by intros k v Hkv].
  intros s [filename pos] s'. unfold pwn_file.
  destruct (open_read fs _) as [text|]; [|done]. rewrite bind_ok.
  apply foldM_invariant. intros m1 line m2. apply pwn_line_dashed.
Qed.

Lemma foldM_i_total {A St : Type} (f : nat -> St -> A -> result St) (l : list A)
    (i : nat) (s : St) :
  (forall i s x, exists s', f i s x = Ok s') -> exists s', foldM_i f i s l = Ok s'.
Proof.
  intros Hf. revert i s. induction l as [|x l IH]; intros i s; [by eexists|].
  simpl. destruct (Hf i s x) as [s1 ->]. rewrite bind_ok. apply IH.
Qed.

(** The parser returns for every TSV file that can be read. *)
Lemma load_iwn_map_total (fs : gmap string string) (issues : Issues) :
  is_Some (fs !! IWN_EN_DATA) ->
  exists entries issues', load_iwn_map fs issues = Ok (entries, issues').
Proof.
  intros [text Htext]. unfold load_iwn_map, open_read. rewrite Htext, bind_ok.
  destruct (foldM_i_total load_line (readlines text) 1 ([], issues)) as [[entries issues'] H].
  { intros i s x. apply ParserFacts.load_line_total. }
  by eexists _, _.
Qed.

(** The whole script returns when the database is there, the files are
    read, and [int] reads the identifier of every record: no other problem
    of a record aborts the run. *)
Lemma main_total (fs : gmap string string) (ewn : gmap string Synset)
    (map2130 : gmap string string) :
  load_pwn_map fs = Ok map2130 ->
  is_Some (fs !! IWN_EN_DATA) ->
  (forall entries issues,
      load_iwn_map fs no_issues = Ok (entries, issues) -> numeric_ids entries) ->
  exists run, main fs (Some ewn) = Ok run.
Proof.
  intros Hmap Hfile Hnum. unfold main, open_wordnet. rewrite bind_ok, Hmap, bind_ok.
  destruct (load_iwn_map_total fs no_issues Hfile) as (entries & issues & Hrows).
  rewrite Hrows, bind_ok.
  pose proof (load_pwn_map_dashed _ _ Hmap) as Hm.
  destruct (detect_total entries map2130 ewn issues Hm (Hnum _ _ Hrows))
    as (entries' & groups & issues' & ->). rewrite bind_ok.
  destruct (build_total entries' map2130 ewn issues' Hm) as [fin ->].
  rewrite bind_ok. by eexists.
Qed.

End Script.

(** *** Runs that return *)

Lemma dup_map_dashed : dashed_values Examples.dup_map.
Proof.
  intros k v Hkv. unfold Examples.dup_map in Hkv.
  apply lookup_insert_Some in Hkv as [[_ <-]|[_ Hkv]]; [reflexivity|].
  apply lookup_insert_Some in Hkv as [[_ <-]|[_ Hkv]]; [reflexivity|].
  by rewrite lookup_empty in Hkv.
Qed.

(** X1: the detector returns whenever the values of the version map are keys
    [offset-pos] and [int] reads the identifier of every record: the
    conversion of [iwn_id] in the sort is the one place where the detector
    can raise on a record. *)
Theorem detect_and_mark_dupes_returns {PN : PyNum} (entries : list Entry)
    (map2130 : gmap string string) (ewn : gmap string Synset) (issues : Issues) :
  dashed_values map2130 ->
  numeric_ids entries ->
  exists entries' groups issues',
    detect_and_mark_dupes entries map2130 ewn issues = Ok (entries', groups, issues').
Proof. apply detect_total. Qed.

Lemma detect_and_mark_dupes_returns_witness :
  exists entries' groups issues',
    detect_and_mark_dupes (PN := AsciiNum) Examples.dup_entries Examples.dup_map
      Examples.dup_db no_issues = Ok (entries', groups, issues').
Proof.
  apply (detect_and_mark_dupes_returns (PN := AsciiNum)).
  - exact dup_map_dashed.
  - repeat constructor; by eexists.
Defined.

(** X2: the builder raises on no record when the values of the version map
    are keys [offset-pos]. *)
Theorem build_final_mapping_returns (entries : list Entry) (map2130 : gmap string string)
    (ewn : gmap string Synset) (issues : Issues) :
  dashed_values map2130 ->
  exists fin, build_final_mapping entries map2130 ewn issues = Ok fin.
Proof. apply build_total. Qed.

Lemma build_final_mapping_returns_witness :
  exists fin,
    build_final_mapping Examples.marked_entries Examples.dup_map Examples.dup_db no_issues
    = Ok fin.
Proof.
  apply (build_final_mapping_returns Examples.marked_entries Examples.dup_map
           Examples.dup_db no_issues).
  exact dup_map_dashed.
Defined.

End BuilderFacts.

(** ** fix_malformed_tsv.py: what a run leaves as it is *)

Module FixTsvMore.
Import Py PyFacts FixTsv FixTsvFacts FixTsvWords.

Lemma readlines_nil (s : string) : readlines s = [] -> s = "".
Proof.
  destruct s as [|c s]; [done|]. simpl.
  destruct (is_nl c); [done|]. by destruct (readlines s).
Qed.

Lemma rstrip_nl_cons (c : ascii) (l : string) :
  is_nl c = false -> rstrip_nl (String c l) = String c (rstrip_nl l).
Proof.
  intros Hc. unfold rstrip_nl. simpl. rewrite Hc. by destruct (rstrip_by is_nl l).
Qed.

(** Writing every line with one newline at its end gives the text, with a
    newline at its end. *)
Lemma writelines_terminated (s : string) :
  writelines (map (fun l => rstrip_nl l +:+ String nl "") (readlines s)) = ensure_nl s.
Proof.
  induction s as [|c s IH]; [reflexivity|].
  cbn [readlines ensure_nl]. destruct (is_nl c) eqn:Hc.
  - unfold is_nl in Hc. apply Ascii.eqb_eq in Hc. subst c.
    cbn [map writelines fold_right]. fold (writelines (map (fun l => rstrip_nl l +:+ String nl "") (readlines s))).
    rewrite IH. destruct s as [|c' s']; reflexivity.
  - destruct (readlines s) as [|l ls] eqn:Hr.
    + apply readlines_nil in Hr. subst s.
      cbn [map writelines fold_right]. rewrite (rstrip_nl_cons _ _ Hc).
      vm_compute. reflexivity.
    + destruct s as [|c' s']; [done|].
      cbn [map writelines fold_right] in *.
      rewrite (rstrip_nl_cons _ _ Hc), !app_cons. f_equal. exact IH.
Qed.

Lemma ensure_nl_terminated (s : string) :
  endswith (String nl "") s = true -> ensure_nl s = s.
Proof.
  induction s as [|c s IH]; [done|].
  cbn [ensure_nl endswith]. destruct s as [|c' s'].
  - destruct (String.eqb (String c "") (String nl "")) eqn:He; [|done].
    apply String.eqb_eq in He. injection He as ->. reflexivity.
  - destruct (String.eqb _ _) eqn:He.
    + apply String.eqb_eq in He. discriminate.
    + intros H. f_equal. by apply IH.
Qed.

(** The counters of the loop never decrease, and the lines it writes when
    they stay as they are are the lines it read. *)
Lemma fix_loop_plain (lines : list string) (st st' : Loop) :
  fix_loop lines st = Ok st' ->
  n_merged st' = n_merged st -> n_wordn st' = n_wordn st ->
  fixed_lines st' = fixed_lines st ++ map (fun l => rstrip_nl l +:+ String nl "") lines.
Proof.
  remember (length lines) as n eqn:Hn.
  revert lines Hn st. induction n as [n IH] using lt_wf_ind. intros lines -> st.
  destruct lines as [|l rest].
  - intros [= <-] _ _. by rewrite app_nil_r.
  - assert (Hcols : split tab (rstrip_nl l) <> []) by apply split_nonempty.
    assert (Hplain : (st1 ← fix_single (rstrip_nl l) (split tab (rstrip_nl l)) st;
                      fix_loop rest st1) = Ok st' ->
                     n_merged st' = n_merged st -> n_wordn st' = n_wordn st ->
                     fixed_lines st' = fixed_lines st
                       ++ map (fun l => rstrip_nl l +:+ String nl "") (l :: rest)).
    { destruct (fix_loop_run rest) as (out & m & w & _ & Hrun).
      unfold fix_single. destruct (9 <=? length _).
      - rewrite (index_last_ok _ Hcols), bind_ok.
        destruct (String.eqb _ "WordN").
        + rewrite (set_last_ok _ _ Hcols), !bind_ok, Hrun. intros [= <-]. simpl. lia.
        + rewrite bind_ok. intros Hrest Hm Hw.
          rewrite (IH (length rest) ltac:(simpl; lia) rest eq_refl _ Hrest) by done.
          simpl. by rewrite <- app_assoc.
      - rewrite bind_ok. intros Hrest Hm Hw.
        rewrite (IH (length rest) ltac:(simpl; lia) rest eq_refl _ Hrest) by done.
        simpl. by rewrite <- app_assoc. }
    destruct rest as [|next rest']; [exact Hplain|].
    cbn [fix_loop]. destruct (is_split_pair _ (cols_of next)) eqn:Hpair; [|exact Hplain].
    destruct (is_split_pair_two _ _ Hpair) as (_ & c0 & c1 & Hnext & _).
    rewrite Hnext, (merge_pair_ok _ _ _ Hcols), bind_ok.
    destruct (fix_loop_run rest') as (out & m & w & _ & Hrun).
    rewrite Hrun. intros [= <-]. simpl. lia.
Qed.

(** When [fix_tsv] reports no merge and no [WordN] fix, the text it writes
    is the text it read, closed by a newline: a clean file is copied. *)
Theorem fix_tsv_unchanged (input : string) (stats : Stats) (text : string) :
  fix_tsv input = Ok (stats, text) ->
  merged_lines stats = 0 ->
  fixed_wordn stats = 0 ->
  text = ensure_nl input /\
  (endswith (String nl "") input = true -> text = input).
Proof.
  unfold fix_tsv. destruct (fix_loop (readlines input) loop_init) as [st|] eqn:Hloop; [|done].
  rewrite bind_ok. intros [= <- <-]. cbn [merged_lines fixed_wordn]. intros Hm Hw.
  assert (Htext : writelines (fixed_lines st) = ensure_nl input).
  { rewrite (fix_loop_plain _ _ _ Hloop) by done. apply writelines_terminated. }
  split; [done|]. intros Hend. by rewrite Htext, ensure_nl_terminated.
Qed.

Lemma fix_tsv_unchanged_witness :
  exists stats,
    fix_tsv Examples.ten_columns = Ok (stats, Examples.ten_columns) /\
    Examples.ten_columns = ensure_nl Examples.ten_columns /\
    (endswith (String nl "") Examples.ten_columns = true ->
     Examples.ten_columns = Examples.ten_columns).
Proof.
  eexists. split; [vm_compute; reflexivity|].
  eapply (fix_tsv_unchanged Examples.ten_columns).
  - vm_compute. reflexivity.
  - reflexivity.
  - reflexivity.
Defined.

(** A line of 9 columns or more is never part of a merge: it gives one
    line of the output, between what is written for the lines before it
    and for the lines after it. When its last column, stripped, is [WordN]
    the line written has the same columns but the last, which is
    [Hypernymy]; otherwise it is the line itself. *)
Theorem fix_tsv_long_line (input : string) (pre post : list string) (l : string) :
  readlines input = pre ++ l :: post ->
  9 <= length (cols_of l) ->
  exists st_pre st_post stats,
    fix_loop pre loop_init = Ok st_pre /\
    fix_loop post loop_init = Ok st_post /\
    fix_tsv input
    = Ok (stats,
          writelines (fixed_lines st_pre ++ [fixed_long_line l] ++ fixed_lines st_post)) /\
    (if String.eqb (strip (List.last (cols_of l) "")) "WordN"
     then cols_of (fixed_long_line l) = removelast (cols_of l) ++ ["Hypernymy"] /\
          fixed_wordn stats = n_wordn st_pre + 1 + n_wordn st_post
     else fixed_long_line l = rstrip_nl l +:+ String nl "" /\
          fixed_wordn stats = n_wordn st_pre + n_wordn st_post).
Proof.
  intros Hlines H9.
  assert (Hne : cols_of l <> []) by apply split_nonempty.
  assert (Hin : In l (readlines input)).
  { rewrite Hlines. apply in_or_app. right. by left. }
  pose proof (rstrip_nl_readlines _ _ Hin) as Hnl.
  pose proof (cols_of_fields nl l (or_intror Hnl)) as Hf.
  pose proof (cols_of_fields tab l (or_introl eq_refl)) as Ht.
  destruct (fix_loop_total pre loop_init) as [st_pre Hpre].
  destruct (fix_loop_total post loop_init) as [st_post Hpost].
  exists st_pre, st_post. eexists. split; [done|]. split; [done|].
  assert (Hstep : forall st, fix_loop (l :: post) st
                             = (st1 ← fix_single (rstrip_nl l) (cols_of l) st; fix_loop post st1)).
  { intros st. destruct post as [|next post']; [reflexivity|].
    cbn [fix_loop]. fold (cols_of l).
    replace (is_split_pair (cols_of l) (cols_of next)) with false; [reflexivity|].
    unfold is_split_pair. apply Nat.ltb_ge in H9. by rewrite H9. }
  assert (Hsingle : forall st, fix_single (rstrip_nl l) (cols_of l) st
             = Ok (extend st [fixed_long_line l]
                     0 (if String.eqb (strip (List.last (cols_of l) "")) "WordN" then 1 else 0))).
  { intros st. unfold fix_single, fixed_long_line.
    rewrite (proj2 (Nat.leb_le _ _) H9), (index_last_ok _ Hne), bind_ok.
    destruct (String.eqb _ "WordN").
    - rewrite (set_last_ok _ _ Hne), bind_ok. unfold append_line, extend. simpl.
      do 2 f_equal; lia.
    - unfold append_line, extend. simpl. do 2 f_equal; lia. }
  assert (Hrun : fix_tsv input
                 = Ok ({| total_lines := length (readlines input);
                          merged_lines := n_merged st_pre + 0 + n_merged st_post;
                          fixed_wordn := n_wordn st_pre
                            + (if String.eqb (strip (List.last (cols_of l) "")) "WordN"
                               then 1 else 0) + n_wordn st_post;
                          output_lines := length ((fixed_lines st_pre ++ [fixed_long_line l])
                                                  ++ fixed_lines st_post) |},
                       writelines ((fixed_lines st_pre ++ [fixed_long_line l])
                                   ++ fixed_lines st_post))).
  { unfold fix_tsv. rewrite Hlines at 1.
    rewrite fix_loop_app by (intros H2; rewrite H2 in H9; lia).
    rewrite Hpre, bind_ok, Hstep, Hsingle, bind_ok.
    erewrite fix_loop_from by exact Hpost. rewrite bind_ok. reflexivity. }
  rewrite Hrun. split; [by rewrite <- app_assoc|].
  cbn [fixed_wordn]. destruct (String.eqb _ "WordN") eqn:Hw.
  - split; [|lia]. unfold fixed_long_line. rewrite Hw.
    assert (Hbody : Forall (fun f => contains tab f = false) (removelast (cols_of l) ++ ["Hypernymy"])
                    /\ Forall (fun f => contains nl f = false) (removelast (cols_of l) ++ ["Hypernymy"])).
    { rewrite (cols_split_last _ Hne) in Hf, Ht.
      apply Forall_app in Hf as [Hf _]. apply Forall_app in Ht as [Ht _].
      split; apply Forall_app; (split; [done|]); by constructor. }
    destruct Hbody as [Hbt Hbn].
    unfold cols_of at 1. rewrite rstrip_nl_app_nl by (by apply contains_join).
    apply split_join; [|done]. by destruct (removelast (cols_of l)).
  - split; [|lia]. unfold fixed_long_line. by rewrite Hw.
Qed.

Lemma fix_tsv_long_line_witness :
  exists st_pre st_post stats,
    fix_loop [Examples.header] loop_init = Ok st_pre /\
    fix_loop [Examples.ten_columns] loop_init = Ok st_post /\
    fix_tsv MoreExamples.wordn_input
    = Ok (stats,
          writelines (fixed_lines st_pre ++ [fixed_long_line MoreExamples.wordn_line]
                      ++ fixed_lines st_post)) /\
    (if String.eqb (strip (List.last (cols_of MoreExamples.wordn_line) "")) "WordN"
     then cols_of (fixed_long_line MoreExamples.wordn_line)
          = removelast (cols_of MoreExamples.wordn_line) ++ ["Hypernymy"] /\
          fixed_wordn stats = n_wordn st_pre + 1 + n_wordn st_post
     else fixed_long_line MoreExamples.wordn_line
          = rstrip_nl MoreExamples.wordn_line +:+ String nl "" /\
          fixed_wordn stats = n_wordn st_pre + n_wordn st_post).
Proof.
  apply (fix_tsv_long_line MoreExamples.wordn_input [Examples.header]
           [Examples.ten_columns] MoreExamples.wordn_line).
  - vm_compute. reflexivity.
  - vm_compute. lia.
Defined.

End FixTsvMore.

(** ** map2ili.py: the whole TSV file *)

Module ParserMore.
Import Py PyFacts Map2ili Map2iliMore ParserFacts.

Lemma foldM_i_cons {A St : Type} (f : nat -> St -> A -> result St) (i : nat) (s : St)
    (x : A) (l : list A) :
  foldM_i f i s (x :: l) = (s' ← f i s x; foldM_i f (S i) s' l).
Proof. reflexivity. Qed.

Lemma with_malformed_nil (i : Issues) : with_malformed [] i = i.
Proof. destruct i. unfold with_malformed. simpl. by rewrite app_nil_r. Qed.

Lemma with_malformed_add (x : Malformed) (new : list Malformed) (i : Issues) :
  with_malformed new (add_malformed x i) = with_malformed (x :: new) i.
Proof. unfold with_malformed, add_malformed. simpl. by rewrite <- app_assoc. Qed.

Lemma enumerate_filter_length {A : Type} (p : A -> bool) (i : nat) (l : list A) :
  length (List.filter (fun nl => p nl.2) (enumerate i l)) = length (List.filter p l).
Proof.
  revert i. induction l as [|x l IH]; intros i; [done|].
  simpl. destruct (p x); simpl; by rewrite IH.
Qed.

Section Parser.
Context {PN : PyNum}.

(** The three outcomes of a line. *)
Lemma load_line_cases (lineno : nat) (entries : list Entry) (issues : Issues)
    (line : string) :
  (is_header line = true /\
   load_line lineno (entries, issues) line = Ok (entries, issues)) \/
  (is_record line = true /\
   load_line lineno (entries, issues) line
   = Ok (entries ++ [entry_of_row (row_of line)], issues)) \/
  (is_rejected line = true /\
   exists msg,
     load_line lineno (entries, issues) line
     = Ok (entries,
           add_malformed {| line_number := lineno; error := msg;
                            original_line := rstrip_nl line |} issues)).
Proof.
  unfold is_record, is_rejected, is_header, row_of, load_line, well_formed_row.
  set (row := split tab (strip line)).
  pose proof (split_length_pos tab (strip line)) as Hpos. fold row in Hpos.
  rewrite (index_nth row 0 "") by done. rewrite bind_ok.
  destruct (String.eqb _ "iwn_id"); [by left|]. right. cbn [negb andb].
  destruct (length row <? 9) eqn:H9.
  { apply Nat.ltb_lt in H9. apply Nat.leb_gt in H9. rewrite H9.
    rewrite !andb_false_l. right. eauto. }
  apply Nat.ltb_ge in H9. rewrite (proj2 (Nat.leb_le _ _) H9).
  rewrite andb_true_l.
  rewrite index_last_nonempty by (intros Hr; rewrite Hr in H9; simpl in H9; lia).
  rewrite bind_ok.
  destruct (rel_of _) as [r|] eqn:Hr; cbn [is_some andb default negb]; [|right; eauto].
  rewrite (index_nth row 1 "") by lia. rewrite bind_ok.
  destruct (PosTag !! nth 1 row "") as [t1|] eqn:Ht1; cbn [is_some andb default negb];
    [|right; eauto].
  rewrite (index_nth row 3 "") by lia. rewrite bind_ok.
  destruct (PosTag !! nth 3 row "") as [t3|] eqn:Ht3; cbn [is_some andb default negb];
    [|right; eauto].
  rewrite (index_nth row 2 "") by lia. rewrite bind_ok.
  destruct (py_int _) as [n|] eqn:Hn; cbn [is_some andb default negb]; [|right; eauto].
  rewrite (index_nth row 4 ""), (index_nth row 5 ""), (index_nth row 6 ""),
    (index_nth row 7 "") by lia. rewrite !bind_ok.
  rewrite (dict_get_some _ _ _ Ht1), (dict_get_some _ _ _ Ht3). rewrite !bind_ok.
  left. split; [done|].
  unfold entry_of_row. rewrite Hr, Ht1, Ht3, Hn. reflexivity.
Qed.

Lemma is_record_rejected (line : string) :
  is_rejected line = negb (is_header line) && negb (is_record line).
Proof.
  unfold is_rejected, is_record. by destruct (is_header line), (well_formed_row _).
Qed.

(** The loop over the lines, from any state. *)
Lemma load_lines_spec (lines : list string) (i : nat) (entries : list Entry)
    (issues : Issues) :
  exists new,
    foldM_i load_line i (entries, issues) lines
    = Ok (entries ++ map (fun l => entry_of_row (row_of l)) (List.filter is_record lines),
          with_malformed new issues) /\
    Forall2 (fun m nl => line_number m = nl.1 /\ original_line m = rstrip_nl nl.2)
      new (List.filter (fun nl => is_rejected nl.2) (enumerate i lines)).
Proof.
  revert i entries issues. induction lines as [|l lines IH]; intros i entries issues.
  - exists []. simpl. by rewrite app_nil_r, with_malformed_nil.
  - rewrite foldM_i_cons. cbn [enumerate List.filter map].
    pose proof (is_record_rejected l) as Hrej. cbn [snd] in *.
    destruct (load_line_cases i entries issues l)
      as [[Hh ->]|[[Hr ->]|[Hj (msg & ->)]]]; rewrite bind_ok.
    + rewrite Hh in Hrej. cbn in Hrej. rewrite Hrej.
      assert (is_record l = false) as -> by (unfold is_record; by rewrite Hh).
      apply IH.
    + rewrite Hr in Hrej. rewrite andb_false_r in Hrej. rewrite Hr, Hrej.
      destruct (IH (S i) (entries ++ [entry_of_row (row_of l)]) issues) as (new & -> & Hnew).
      exists new. split; [|done]. cbn [map]. by rewrite <- app_assoc.
    + rewrite Hj. rewrite Hj in Hrej.
      assert (is_record l = false) as ->.
      { destruct (is_record l); [|done]. by rewrite andb_false_r in Hrej. }
      destruct (IH (S i) entries
                  (add_malformed {| line_number := i; error := msg;
                                    original_line := rstrip_nl l |} issues))
        as (new & -> & Hnew).
      eexists (_ :: new). split; [by rewrite with_malformed_add|].
      constructor; [done|exact Hnew].
Qed.

Lemma lines_partition (lines : list string) :
  length lines
  = length (List.filter is_header lines) + length (List.filter is_record lines)
    + length (List.filter is_rejected lines).
Proof.
  induction lines as [|l lines IH]; [done|].
  cbn [List.filter]. rewrite is_record_rejected.
  assert (Hr : is_header l = true -> is_record l = false).
  { unfold is_record. by intros ->. }
  destruct (is_header l); [rewrite Hr by done|]; [|destruct (is_record l)];
    cbn [negb andb length]; lia.
Qed.

(** Every line of the TSV file is accounted for once, and nothing is
    raised: a line whose first column is [iwn_id] is skipped; a
    well-formed line gives a record, and the records are in the order of
    their lines; every other line adds one entry to the malformed lines,
    with its number in the file (from 1) and its text. The other issue
    lists are as they were. *)
Theorem load_iwn_map_accounts (fs : gmap string string) (issues : Issues) (text : string) :
  fs !! IWN_EN_DATA = Some text ->
  exists new,
    load_iwn_map fs issues
    = Ok (map (fun l => entry_of_row (row_of l)) (List.filter is_record (readlines text)),
          with_malformed new issues) /\
    Forall2 (fun m nl => line_number m = nl.1 /\ original_line m = rstrip_nl nl.2)
      new (List.filter (fun nl => is_rejected nl.2) (enumerate 1 (readlines text))) /\
    length (readlines text)
    = length (List.filter is_header (readlines text))
      + length (List.filter is_record (readlines text)) + length new.
Proof.
  intros Hfs. unfold load_iwn_map, open_read. rewrite Hfs, bind_ok.
  destruct (load_lines_spec (readlines text) 1 [] issues) as (new & -> & Hnew).
  exists new. split; [done|]. split; [done|].
  rewrite (Forall2_length _ _ _ Hnew), enumerate_filter_length. apply lines_partition.
Qed.

Lemma entry_of_row_ok (l : string) : is_record l = true -> record_ok (entry_of_row (row_of l)).
Proof.
  unfold is_record, is_header, well_formed_row, record_ok, entry_of_row.
  set (row := row_of l). cbn [original_rel rel iwn_pos iwn_key iwn_id pwn21_pos
                              pwn21_offset pwn21_key ili pwn30_key].
  intros H. apply andb_prop in H as [H Hwf].
  repeat match goal with
         | H' : _ && _ = true |- _ => apply andb_prop in H' as [? ?]
         end.
  destruct (rel_of _) as [r|] eqn:Hr; [|done].
  destruct (PosTag !! nth 1 row "") as [t1|] eqn:Ht1; [|done].
  destruct (PosTag !! nth 3 row "") as [t3|] eqn:Ht3; [|done].
  destruct (py_int _) as [z|] eqn:Hz; [|done].
  cbn [default]. split; [|split; [|split; [|split]]].
  - unfold rel_of in Hr.
    destruct (String.eqb _ "Direct") eqn:Hd.
    + apply String.eqb_eq in Hd. left. split; [done|]. by injection Hr as <-.
    + destruct (String.eqb _ "Hypernymy") eqn:Hh; [|done].
      apply String.eqb_eq in Hh. right. split; [done|]. by injection Hr as <-.
  - by exists t1.
  - by exists t3, z.
  - intros Hid. rewrite Hid, String.eqb_refl in H. done.
  - done.
Qed.

(** Every record the parser returns has the relation [equal] with the label
    [Direct] or [hyper] with the label [Hypernymy]; its two POS tags are
    keys of [PosTag], and its keys are made of them: [{iwn_id}_{tag}] and
    [{offset:08d}-{tag}] for the offset [int] reads; it has no [ili] and
    no [pwn30_key] yet. *)
Theorem load_iwn_map_records (fs : gmap string string) (issues issues' : Issues)
    (entries : list Entry) :
  load_iwn_map fs issues = Ok (entries, issues') -> Forall record_ok entries.
Proof.
  unfold load_iwn_map, open_read. destruct (fs !! IWN_EN_DATA) as [text|]; [|done].
  rewrite bind_ok.
  destruct (load_lines_spec (readlines text) 1 [] issues) as (new & -> & _).
  intros [= <- _]. apply Forall_forall. intros e He.
  apply list_elem_of_In, in_map_iff in He as (l & <- & Hl).
  apply filter_In in Hl as [_ Hl]. by apply entry_of_row_ok.
Qed.

End Parser.

Lemma load_iwn_map_accounts_witness :
  exists new,
    load_iwn_map (PN := AsciiNum) MoreExamples.mixed_fs no_issues
    = Ok (map (fun l => entry_of_row (PN := AsciiNum) (row_of l))
            (List.filter (is_record (PN := AsciiNum)) (readlines MoreExamples.mixed_tsv)),
          with_malformed new no_issues) /\
    Forall2 (fun m nl => line_number m = nl.1 /\ original_line m = rstrip_nl nl.2)
      new (List.filter (fun nl => is_rejected (PN := AsciiNum) nl.2)
             (enumerate 1 (readlines MoreExamples.mixed_tsv))) /\
    length (readlines MoreExamples.mixed_tsv)
    = length (List.filter is_header (readlines MoreExamples.mixed_tsv))
      + length (List.filter (is_record (PN := AsciiNum)) (readlines MoreExamples.mixed_tsv))
      + length new.
Proof.
  apply (load_iwn_map_accounts (PN := AsciiNum) MoreExamples.mixed_fs no_issues
           MoreExamples.mixed_tsv).
  vm_compute. reflexivity.
Defined.

Lemma load_iwn_map_records_witness :
  exists entries issues',
    load_iwn_map (PN := AsciiNum) MoreExamples.mixed_fs no_issues = Ok (entries, issues') /\
    iwn_key <$> entries = ["20_n"; "7_n"] /\
    line_number <$> malformed_lines issues' = [3] /\
    Forall (record_ok (PN := AsciiNum)) entries.
Proof.
  eexists _, _. split; [vm_compute; reflexivity|]. split; [reflexivity|].
  split; [reflexivity|].
  eapply (load_iwn_map_records (PN := AsciiNum) MoreExamples.mixed_fs no_issues).
  vm_compute. reflexivity.
Defined.

End ParserMore.

(** ** map2ili.py: the mapping files *)

Module VersionMore.
Import Py PyFacts Map2ili Map2iliMore ParserFacts DetectorFacts VersionFacts.

(** A loop whose body returns or raises whatever the state: it returns
    when the body returns for every element. *)
Lemma foldM_returns_iff {A St : Type} (f : St -> A -> result St) (ok : A -> Prop)
    (l : list A) (s : St) :
  (forall s x, (exists s', f s x = Ok s') <-> ok x) ->
  (exists s', foldM f s l = Ok s') <-> Forall ok l.
Proof.
  intros Hok. revert s. induction l as [|x l IH]; intros s.
  - split; [constructor|]. intros _. by exists s.
  - rewrite foldM_cons. split.
    + intros [s' Hs']. destruct (f s x) as [s1|e] eqn:Hf; [|done].
      rewrite bind_ok in Hs'. constructor.
      * apply (Hok s). eauto.
      * apply (IH s1). eauto.
    + intros H. apply Forall_cons in H as [Hx Hl].
      apply (Hok s) in Hx as [s1 ->]. rewrite bind_ok. by apply IH.
Qed.

(** What holds of the state at the start and is kept by every step on an
    element of the list holds at the end. *)
Lemma foldM_invariant_in {A St : Type} (P : St -> Prop) (f : St -> A -> result St)
    (l : list A) (s s' : St) :
  (forall s x s', In x l -> f s x = Ok s' -> P s -> P s') ->
  foldM f s l = Ok s' -> P s -> P s'.
Proof.
  revert s. induction l as [|x l IH]; intros s Hstep.
  - by intros [= <-].
  - rewrite foldM_cons. destruct (f s x) as [s1|e] eqn:Hf; [|done].
    rewrite bind_ok. intros Hl Hs. apply (IH s1); [|done|].
    + intros s2 y s3 Hy. apply Hstep. by right.
    + apply (Hstep s x s1); [by left|done|done].
Qed.

Lemma py_max_in {A : Type} (gt : A -> A -> bool) (l : list A) (best : A) :
  py_max gt l = Ok best -> In best l.
Proof.
  destruct l as [|x xs]; [done|]. cbn [py_max]. intros [= <-].
  revert x. induction xs as [|y ys IH]; intros x; [by left|].
  cbn [fold_left]. destruct (IH (if gt y x then y else x)) as [H|H].
  - rewrite <- H. destruct (gt y x); [right; by left|by left].
  - right. by right.
Qed.

Section Files.
Context {PN : PyNum}.

Lemma pairs_of_inv (rest : list string) (pairs : list (float * string)) :
  pairs_of rest = Ok pairs ->
  exists cands,
    rest = flat_map (fun c => [c.1; c.2]) cands /\
    Forall2 (fun c p => py_float c.2 = Some p.1 /\ p.2 = c.1) cands pairs.
Proof.
  remember (length rest) as n eqn:Hn. revert rest Hn pairs.
  induction n as [n IH] using lt_wf_ind. intros rest -> pairs.
  destruct rest as [|off [|sc rest]].
  - intros [= <-]. by exists [].
  - done.
  - cbn [pairs_of]. destruct (py_float sc) as [x|] eqn:Hx; [|done].
    destruct (pairs_of rest) as [ps|] eqn:Hps; [|done]. rewrite bind_ok.
    intros [= <-].
    destruct (IH (length rest) ltac:(simpl; lia) rest eq_refl ps Hps) as (cands & -> & Hc).
    exists ((off, sc) :: cands). split; [done|]. by constructor.
Qed.

Lemma cands_pairs (cands : list (string * string)) :
  Forall (fun c => is_Some (py_float c.2)) cands ->
  exists pairs, Forall2 (fun c p => py_float c.2 = Some p.1 /\ p.2 = c.1) cands pairs.
Proof.
  induction 1 as [|c cands [x Hx] _ (pairs & IH)]; [by exists []|].
  exists ((x, c.1) :: pairs). by constructor.
Qed.

Lemma line_parts_length (offset_21 : string) (cands : list (string * string)) :
  length (line_parts offset_21 cands) = S (2 * length cands).
Proof.
  unfold line_parts. cbn [length]. f_equal.
  induction cands as [|c cands IH]; [done|]. cbn [flat_map length app]. lia.
Qed.

(** One line: what is written when the line is read. *)
Lemma pwn_line_inv (pos line : string) (m m' : gmap string string) :
  pwn_line pos m line = Ok m' ->
  (length (split_ws (strip line)) < 3 /\ m' = m) \/
  exists offset_21 cands offset_30,
    split_ws (strip line) = line_parts offset_21 cands /\ cands <> [] /\
    Forall (fun c => is_Some (py_float c.2)) cands /\
    In offset_30 cands.*1 /\
    m' = <[offset_21 +:+ "-" +:+ pos := offset_30 +:+ "-" +:+ pos]> m.
Proof.
  unfold pwn_line. set (parts := split_ws (strip line)).
  destruct (length parts <? 3) eqn:H3.
  { apply Nat.ltb_lt in H3. intros [= <-]. by left. }
  apply Nat.ltb_ge in H3. right.
  destruct parts as [|p0 rest] eqn:Hparts; [simpl in H3; lia|].
  change (index (p0 :: rest) 0) with (Ok (A := string) p0) in H.
  rewrite bind_ok in H. change (drop 1 (p0 :: rest)) with rest in H.
  destruct (pairs_of rest) as [pairs|] eqn:Hps; [|done]. rewrite bind_ok in H.
  destruct (py_max pair_gt pairs) as [best|] eqn:Hbest; [|done]. rewrite bind_ok in H.
  injection H as <-.
  apply pairs_of_inv in Hps as (cands & -> & Hc).
  exists p0, cands, best.2. split; [done|]. split.
  { intros ->. simpl in H3. lia. }
  split.
  { clear -Hc. induction Hc as [|c p cs ps [Hp _] _ IH]; constructor; [|done].
    rewrite Hp. by eexists. }
  split; [|done].
  apply py_max_in in Hbest. clear -Hc Hbest.
  induction Hc as [|c p cs ps [_ Hp] _ IH]; [done|].
  destruct Hbest as [<-|Hb]; [left; by rewrite Hp|right; by apply IH].
Qed.

Lemma pwn_line_returns_iff (pos line : string) (m : gmap string string) :
  (exists m', pwn_line pos m line = Ok m') <-> mapping_line_ok line.
Proof.
  split.
  - intros [m' H]. apply pwn_line_inv in H as [[H _]|(o & cands & _ & H & Hne & Hf & _)].
    + by left.
    + right. by exists o, cands.
  - unfold mapping_line_ok, pwn_line. set (parts := split_ws (strip line)).
    intros [H|(o & cands & Hparts & Hne & Hf)].
    + apply Nat.ltb_lt in H. rewrite H. eauto.
    + assert (H3 : (length parts <? 3) = false).
      { apply Nat.ltb_ge. rewrite Hparts, line_parts_length.
        destruct cands; [done|]. simpl. lia. }
      rewrite H3, Hparts. unfold line_parts.
      change (index (o :: ?r) 0) with (Ok (A := string) o). rewrite bind_ok.
      change (drop 1 (o :: ?r)) with r.
      destruct (cands_pairs _ Hf) as (pairs & Hp).
      rewrite (pairs_of_parts _ _ Hp), bind_ok.
      destruct pairs as [|p ps].
      { apply Forall2_length in Hp. by destruct cands. }
      cbn [py_max]. rewrite bind_ok. eauto.
Qed.

Lemma pwn_file_returns_iff (fs : gmap string string) (m : gmap string string)
    (file : string * string) :
  (exists m', pwn_file fs m file = Ok m') <->
  exists text, fs !! (PWN_MAP_DIR +:+ file.1) = Some text /\
               Forall mapping_line_ok (readlines text).
Proof.
  destruct file as [filename pos]. unfold pwn_file, open_read. cbn [fst].
  destruct (fs !! (PWN_MAP_DIR +:+ filename)) as [text|].
  - rewrite bind_ok.
    rewrite (foldM_returns_iff (pwn_line pos) mapping_line_ok)
      by (intros; apply pwn_line_returns_iff).
    split; [eauto|]. by intros (? & [= <-] & H).
  - rewrite bind_raise. split; [by intros [? ?]|by intros (? & ? & _)].
Qed.

(** [load_pwn_map] returns exactly when the four mapping files are there
    and every line of them has fewer than three fields (it is skipped) or
    is an offset followed by one or more pairs of an offset and a score
    that [float] reads. A line of four fields or more with an offset that
    has no score, or a score that is no number, makes it raise: the script
    stops. *)
Theorem load_pwn_map_returns_iff (fs : gmap string string) :
  (exists map2130, load_pwn_map fs = Ok map2130) <-> mapping_files_ok fs.
Proof.
  unfold load_pwn_map.
  rewrite (foldM_returns_iff (pwn_file fs)
             (fun file => exists text, fs !! (PWN_MAP_DIR +:+ file.1) = Some text /\
                                       Forall mapping_line_ok (readlines text)))
    by (intros; apply pwn_file_returns_iff).
  rewrite List.Forall_forall. unfold mapping_files_ok. split.
  - intros H filename pos Hin. apply (H (filename, pos) Hin).
  - intros H [filename pos] Hin. by apply (H filename pos).
Qed.

(** Every translation of the version map is read from a line of the
    mapping file of its POS: the key is the first field of the line and the
    POS letter of the file, the value one of the candidate offsets of that
    line and the same POS letter. *)
Theorem load_pwn_map_sound (fs : gmap string string) (map2130 : gmap string string)
    (k v : string) :
  load_pwn_map fs = Ok map2130 ->
  map2130 !! k = Some v ->
  exists filename pos text line offset_21 cands offset_30,
    In (filename, pos) files /\
    fs !! (PWN_MAP_DIR +:+ filename) = Some text /\
    In line (readlines text) /\
    split_ws (strip line) = line_parts offset_21 cands /\
    In offset_30 cands.*1 /\
    k = offset_21 +:+ "-" +:+ pos /\
    v = offset_30 +:+ "-" +:+ pos.
Proof.
  intros Hload. revert k v.
  pose (P := fun m : gmap string string => forall k v, m !! k = Some v ->
    exists filename pos text line offset_21 cands offset_30,
      In (filename, pos) files /\
      fs !! (PWN_MAP_DIR +:+ filename) = Some text /\
      In line (readlines text) /\
      split_ws (strip line) = line_parts offset_21 cands /\
      In offset_30 cands.*1 /\
      k = offset_21 +:+ "-" +:+ pos /\
      v = offset_30 +:+ "-" +:+ pos).
  change (P map2130).
  eapply (foldM_invariant_in P); [|exact Hload|by intros k v].
  intros m [filename pos] m' Hfile Hm' Hm.
  unfold pwn_file, open_read in Hm'.
  destruct (fs !! (PWN_MAP_DIR +:+ filename)) as [text|] eqn:Htext; [|done].
  rewrite bind_ok in Hm'.
  eapply (foldM_invariant_in P); [|exact Hm'|exact Hm].
  intros m1 line m2 Hline Hstep Hm1.
  apply pwn_line_inv in Hstep as [[_ ->]|(o & cands & o30 & Hparts & _ & _ & Hin & ->)];
    [done|].
  intros k v Hkv. destruct (decide (o +:+ "-" +:+ pos = k)) as [<-|Hne].
  - rewrite lookup_insert_eq in Hkv. injection Hkv as <-.
    by exists filename, pos, text, line, o, cands, o30.
  - rewrite lookup_insert_ne in Hkv by done. by apply Hm1.
Qed.

End Files.

Lemma load_pwn_map_sound_witness :
  exists map2130,
    load_pwn_map (PN := AsciiNum) Examples.e2e_fs = Ok map2130 /\
    map2130 !! "00001740-n" = Some "00001741-n" /\
    exists filename pos text line offset_21 cands offset_30,
      In (filename, pos) files /\
      Examples.e2e_fs !! (PWN_MAP_DIR +:+ filename) = Some text /\
      In line (readlines text) /\
      split_ws (strip line) = line_parts offset_21 cands /\
      In offset_30 cands.*1 /\
      "00001740-n" = offset_21 +:+ "-" +:+ pos /\
      "00001741-n" = offset_30 +:+ "-" +:+ pos.
Proof.
  eexists. split; [vm_compute; reflexivity|]. split; [vm_compute; reflexivity|].
  eapply (load_pwn_map_sound (PN := AsciiNum) Examples.e2e_fs).
  - vm_compute. reflexivity.
  - vm_compute. reflexivity.
Defined.

End VersionMore.

(** ** map2ili.py: the synset resolver, for every key *)

Module ResolverMore.
Import Py PyFacts Map2ili ResolverFacts.

(** [rsplit] finds the last dash of a key that has one. *)
Lemma rsplit_last_inv (sep : ascii) (s a b : string) :
  rsplit_last sep s = Some (a, b) -> s = a +:+ String sep b /\ contains sep b = false.
Proof.
  revert a. induction s as [|c s IH]; intros a; [done|].
  cbn [rsplit_last]. destruct (rsplit_last sep s) as [[a' b']|] eqn:Hr.
  - intros [= <- <-]. destruct (IH a' eq_refl) as [-> Hb]. by rewrite app_cons.
  - destruct (Ascii.eqb c sep) eqn:Hc; [|done]. intros [= <- <-].
    apply Ascii.eqb_eq in Hc as ->. split; [done|].
    clear IH. induction s as [|c s IH]; [done|]. cbn [rsplit_last] in Hr. simpl.
    destruct (rsplit_last sep s) as [[? ?]|]; [done|].
    destruct (Ascii.eqb c sep); [done|]. by apply IH.
Qed.

Lemma rsplit_last_contains (sep : ascii) (s : string) :
  rsplit_last sep s = None -> contains sep s = false.
Proof.
  induction s as [|c s IH]; [done|]. cbn [rsplit_last]. simpl.
  destruct (rsplit_last sep s) as [[? ?]|]; [done|].
  destruct (Ascii.eqb c sep); [done|]. intros _. by apply IH.
Qed.

(** The resolver raises for a key without a dash, and for no other. For a
    key [offset-pos] it returns a synset with the key it was found under,
    or the pair of [None]; the synset is the one the database has under
    [omw-en-] and the key returned, which is the key asked for or, when
    that is not in the database and the POS is [a], the key [offset-s]. *)
Theorem lookup_synset_sound (ewn : gmap string Synset) (k : string) :
  (contains dash k = false /\ lookup_synset ewn k = Raise ValueError) \/
  exists offset pos,
    k = offset +:+ "-" +:+ pos /\ contains dash pos = false /\
    ((exists syn key,
        lookup_synset ewn k = Ok (Some syn, Some key) /\
        ewn !! ("omw-en-" +:+ key) = Some syn /\
        (key = k \/
         (pos = "a" /\ key = offset +:+ "-s" /\ ewn !! ("omw-en-" +:+ k) = None))) \/
     (lookup_synset ewn k = Ok (None, None) /\
      ewn !! ("omw-en-" +:+ k) = None /\
      (pos = "a" -> ewn !! ("omw-en-" +:+ offset +:+ "-s") = None))).
Proof.
  unfold lookup_synset, lookup_synset_log, rsplit1.
  destruct (rsplit_last dash k) as [[offset pos]|] eqn:Hr.
  - right. exists offset, pos.
    destruct (rsplit_last_inv _ _ _ _ Hr) as [Hk Hpos].
    split; [exact Hk|]. split; [done|].
    cbn [unpack2]. unfold ewn_synset_log, ewn_synset.
    destruct (ewn !! ("omw-en-" +:+ k)) as [syn|] eqn:Hd.
    + left. exists syn, k. cbn [fst]. auto.
    + destruct (String.eqb pos "a") eqn:Ha.
      * apply String.eqb_eq in Ha.
        destruct (ewn !! ("omw-en-" +:+ offset +:+ "-s")) as [syn|] eqn:Hs.
        -- left. exists syn, (offset +:+ "-s"). cbn [fst]. auto 6.
        -- right. cbn [fst]. auto.
      * right. cbn [fst]. split; [done|]. split; [done|].
        intros ->. done.
  - left. split; [by apply rsplit_last_contains|done].
Qed.

(** *** The identifiers a missing-synset issue lists *)

Lemma endswith_no_dash (p : string) : contains dash p = false -> endswith "-a" p = false.
Proof.
  induction p as [|c p IH]; [done|]. intros H. simpl in H.
  apply orb_false_elim in H as [Hc Hp]. cbn [endswith].
  destruct (String.eqb (String c p) "-a") eqn:He.
  - apply String.eqb_eq in He. injection He as -> _. done.
  - by apply IH.
Qed.

Lemma endswith_key (offset pos : string) :
  contains dash offset = false -> contains dash pos = false ->
  endswith "-a" (offset +:+ "-" +:+ pos) = String.eqb pos "a".
Proof.
  intros Ho Hp. induction offset as [|c o IH].
  - rewrite app_empty_l. change ("-" +:+ pos) with (String dash pos). cbn [endswith].
    destruct (String.eqb (String dash pos) "-a") eqn:He.
    + apply String.eqb_eq in He. injection He as ->. done.
    + rewrite (endswith_no_dash _ Hp). symmetry. apply String.eqb_neq.
      intros ->. done.
  - simpl in Ho. apply orb_false_elim in Ho as [Hc Ho].
    rewrite app_cons. cbn [endswith].
    destruct (String.eqb _ "-a") eqn:He.
    + apply String.eqb_eq in He. injection He as -> _. done.
    + by apply IH.
Qed.

Lemma replace_key (offset : string) :
  contains dash offset = false ->
  replace "-a" "-s" (offset +:+ "-a") = offset +:+ "-s".
Proof.
  unfold replace. intros Ho. induction offset as [|c o IH]; [reflexivity|].
  simpl in Ho. apply orb_false_elim in Ho as [Hc Ho].
  rewrite !app_cons. cbn [replace_go String.prefix].
  destruct (ascii_dec "-" c) as [<-|Hne]; [done|]. by rewrite IH.
Qed.

(** When the resolver finds nothing for a key [offset-pos] whose offset
    has no dash, the identifiers listed under [omw_id_tried] are the
    identifiers the database was asked for, in that order. *)
Theorem omw_id_tried_is_log (ewn : gmap string Synset) (offset pos : string)
    (log : list string) :
  contains dash offset = false ->
  contains dash pos = false ->
  lookup_synset_log ewn (offset +:+ "-" +:+ pos) [] = (Ok (None, None), log) ->
  omw_id_tried (offset +:+ "-" +:+ pos) = log.
Proof.
  intros Ho Hp. unfold lookup_synset_log, omw_id_tried.
  rewrite (unpack_key _ _ Hp), (endswith_key _ _ Ho Hp).
  unfold ewn_synset_log, ewn_synset.
  destruct (ewn !! ("omw-en-" +:+ offset +:+ "-" +:+ pos)); [done|].
  destruct (String.eqb pos "a") eqn:Ha.
  - apply String.eqb_eq in Ha as ->.
    destruct (ewn !! ("omw-en-" +:+ offset +:+ "-s")); [done|].
    intros [= <-]. change ("-" +:+ "a") with "-a". by rewrite (replace_key _ Ho).
  - by intros [= <-].
Qed.

Lemma omw_id_tried_is_log_witness :
  omw_id_tried ("00001740" +:+ "-" +:+ "a") = ["omw-en-00001740-a"; "omw-en-00001740-s"].
Proof.
  apply (omw_id_tried_is_log Examples.dup_db "00001740" "a");
    vm_compute; reflexivity.
Defined.

(** With a dash in the offset the list can name an identifier that was
    never asked for. *)
Example omw_id_tried_dashed_offset :
  lookup_synset_log Examples.dup_db "1-a2-a" []
  = (Ok (None, None), ["omw-en-1-a2-a"; "omw-en-1-a2-s"]) /\
  omw_id_tried "1-a2-a" = ["omw-en-1-a2-a"; "omw-en-1-s2-s"].
Proof. split; vm_compute; reflexivity. Qed.

End ResolverMore.

(** ** map2ili.py: what the duplicate detector changes, and what it keeps *)

Module DetectorMore.
Import Py PyFacts Map2ili Map2iliMore DetectorFacts.

Lemma grows_refl {A : Type} (l : list A) : grows l l.
Proof. exists []. by rewrite app_nil_r. Qed.

Lemma grows_trans {A : Type} (l1 l2 l3 : list A) : grows l1 l2 -> grows l2 l3 -> grows l1 l3.
Proof. intros [a ->] [b ->]. exists (a ++ b). by rewrite app_assoc. Qed.

Lemma grows_snoc {A : Type} (l : list A) (x : A) : grows l (l ++ [x]).
Proof. by exists [x]. Qed.

(** The first pass, one entry: what it keeps. *)
Lemma first_pass_entry_frame (map2130 : gmap string string) (ewn : gmap string Synset)
    (e e1 : Entry) (iss iss1 : Issues) :
  first_pass_entry map2130 ewn e iss = Ok (e1, iss1) ->
  source_fields e1 = source_fields e /\ rel e1 = rel e /\
  malformed_lines iss1 = malformed_lines iss /\
  duplicate_ili iss1 = duplicate_ili iss /\
  grows (missing_pwn30 iss) (missing_pwn30 iss1) /\
  grows (missing_omw iss) (missing_omw iss1) /\
  grows (missing_ili iss) (missing_ili iss1).
Proof.
  unfold first_pass_entry.
  destruct (negb (String.eqb (rel e) "equal")).
  { intros [= <- <-]. repeat split; apply grows_refl. }
  destruct (map2130 !! pwn21_key e) as [k30|].
  2:{ intros [= <- <-]. repeat split; try apply grows_refl. apply grows_snoc. }
  destruct (lookup_synset ewn k30) as [[syn key]|]; [|done]. rewrite bind_ok.
  destruct syn as [syn|].
  2:{ intros [= <- <-]. repeat split; try apply grows_refl. apply grows_snoc. }
  destruct (synset_ili syn); intros [= <- <-]; repeat split; try apply grows_refl.
  apply grows_snoc.
Qed.

Lemma first_pass_frame (map2130 : gmap string string) (ewn : gmap string Synset)
    (entries done done' : list Entry) (iss iss' : Issues) :
  foldM (first_pass_step map2130 ewn) (done, iss) entries = Ok (done', iss') ->
  malformed_lines iss' = malformed_lines iss /\
  grows (missing_pwn30 iss) (missing_pwn30 iss') /\
  grows (missing_omw iss) (missing_omw iss') /\
  grows (missing_ili iss) (missing_ili iss').
Proof.
  revert done iss. induction entries as [|e entries IH]; intros done iss.
  - intros [= <- <-]. repeat split; apply grows_refl.
  - rewrite foldM_cons.
    change (first_pass_step map2130 ewn (done, iss) e)
      with ('(e1, iss1) ← first_pass_entry map2130 ewn e iss; Ok (done ++ [e1], iss1)).
    destruct (first_pass_entry map2130 ewn e iss) as [[e1 iss1]|] eqn:He;
      [|by rewrite !bind_raise].
    rewrite !bind_ok. intros H.
    destruct (first_pass_entry_frame _ _ _ _ _ _ He) as (_ & _ & Hm & _ & H1 & H2 & H3).
    destruct (IH _ _ H) as (Hm' & H1' & H2' & H3').
    rewrite Hm', Hm. repeat split; eauto using grows_trans.
Qed.

Section Frame.
Context {PN : PyNum}.

Lemma third_pass_step_issues (st st' : Marking) (g : string * list nat) :
  third_pass_step st g = Ok st' ->
  malformed_lines (m_issues st') = malformed_lines (m_issues st) /\
  missing_pwn30 (m_issues st') = missing_pwn30 (m_issues st) /\
  missing_omw (m_issues st') = missing_omw (m_issues st) /\
  missing_ili (m_issues st') = missing_ili (m_issues st).
Proof.
  destruct (is_big g) eqn:Hbig.
  - intros H. destruct (third_pass_step_big _ _ _ Hbig H) as (_ & _ & D & -> & _). done.
  - rewrite (third_pass_step_small _ _ Hbig). by intros [= <-].
Qed.

Lemma third_pass_issues (d : list (string * list nat)) (st st' : Marking) :
  foldM third_pass_step st d = Ok st' ->
  malformed_lines (m_issues st') = malformed_lines (m_issues st) /\
  missing_pwn30 (m_issues st') = missing_pwn30 (m_issues st) /\
  missing_omw (m_issues st') = missing_omw (m_issues st) /\
  missing_ili (m_issues st') = missing_ili (m_issues st).
Proof.
  revert st. induction d as [|g d IH]; intros st; [by intros [= <-]|].
  rewrite foldM_cons. destruct (third_pass_step st g) as [st1|] eqn:Hstep; [|done].
  rewrite bind_ok. intros H. destruct (IH _ H) as (-> & -> & -> & ->).
  by apply (third_pass_step_issues st st1 g).
Qed.

(** The entry at a position after the detector: the entry of the first
    pass, relabelled when it is in a group of more than one. *)
Lemma detect_lookup (entries : list Entry) (map2130 : gmap string string)
    (ewn : gmap string Synset) (issues : Issues)
    (entries' : list Entry) (groups : list DupeGroup) (issues' : Issues) :
  detect_and_mark_dupes entries map2130 ewn issues = Ok (entries', groups, issues') ->
  Forall2 (fun e e' =>
             exists e1 i i',
               first_pass_entry map2130 ewn e i = Ok (e1, i') /\
               e' = if in_duplicate_group map2130 ewn entries e
                    then set_rel "dupe" e1 else e1)
    entries entries'.
Proof.
  intros Hdet.
  destruct (detect_unfold _ _ _ _ _ _ _ Hdet) as (E1 & I1 & st' & H1 & H3 & -> & _ & _).
  destruct (first_pass_spec _ _ _ _ _ _ _ H1) as (es1 & Hes & Hall & _).
  cbn [app] in Hes. subst es1.
  destruct (third_pass_spec _ _ _ H3) as (-> & _ & _). cbn [m_entries].
  set (d := group_from 0 E1 []).
  destruct (group_from_spec E1 0 [] (NoDup_nil_2 : NoDup ([] : list (string * list nat)).*1))
    as [Hnd _]. fold d in Hnd.
  apply Forall2_same_length_lookup. split.
  { rewrite mark_groups_length. by apply Forall2_length in Hall. }
  intros j e e' He He'.
  destruct (Forall2_lookup_l _ _ _ _ _ Hall He) as (e1 & He1 & i & i' & Hfp).
  exists e1, i, i'. split; [done|].
  rewrite mark_groups_lookup, He1 in He'. cbn [fmap option_fmap option_map] in He'.
  assert (Hsame : in_big_group d j = in_duplicate_group map2130 ewn entries e).
  { apply eq_true_iff_eq. split.
    - intros (g & Hg & Hbig)%existsb_exists.
      apply andb_prop in Hbig as [Hbig Hj]. apply bool_decide_eq_true in Hj.
      destruct g as [k js]. cbn [snd] in *.
      pose proof (dd_get_in _ _ _ Hnd Hg) as Hget.
      unfold d in Hget. rewrite (groups_are_members _ _ _ _ _ Hall) in Hget.
      rewrite <- Hget in Hj. unfold members in Hj.
      apply positions_lookup in Hj as (e0 & _ & He0 & Hreach).
      rewrite Nat.sub_0_r, He in He0. injection He0 as <-.
      unfold in_duplicate_group. unfold reaches in Hreach.
      apply andb_prop in Hreach as [-> Hres]. cbn [andb].
      destruct (resolved_ili map2130 ewn e) as [i0|]; [|done].
      apply String.eqb_eq in Hres as ->. rewrite Hget. exact Hbig.
    - unfold in_duplicate_group. intros [Hrel Hres]%andb_prop.
      destruct (resolved_ili map2130 ewn e) as [i0|] eqn:Hi0; [|done].
      apply Nat.ltb_lt in Hres.
      apply (in_big_group_member d i0 j Hnd).
      + unfold d. by rewrite (groups_are_members _ _ _ _ _ Hall).
      + unfold d. rewrite (groups_are_members _ _ _ _ _ Hall).
        apply positions_lookup. exists e. rewrite Nat.sub_0_r.
        split; [lia|]. split; [done|]. unfold reaches.
        by rewrite Hrel, Hi0, String.eqb_refl. }
  rewrite Hsame in He'. destruct (in_duplicate_group _ _ _ _); by injection He' as <-.
Qed.

(** The detector returns as many records as it is given, in the same
    order; of a record it changes [rel], [ili] and [pwn30_key] and nothing
    else, and a record whose relation is not [equal] is returned as it is.
    It adds no malformed line, takes nothing from the issue lists, and the
    three lists of missing links only grow at their ends. *)
Theorem detect_frame (entries : list Entry) (map2130 : gmap string string)
    (ewn : gmap string Synset) (issues : Issues)
    (entries' : list Entry) (groups : list DupeGroup) (issues' : Issues) :
  detect_and_mark_dupes entries map2130 ewn issues = Ok (entries', groups, issues') ->
  Forall2 (fun e e' => source_fields e' = source_fields e /\
                       (rel e <> "equal" -> e' = e)) entries entries' /\
  length entries' = length entries /\
  malformed_lines issues' = malformed_lines issues /\
  grows (duplicate_ili issues) (duplicate_ili issues') /\
  grows (missing_pwn30 issues) (missing_pwn30 issues') /\
  grows (missing_omw issues) (missing_omw issues') /\
  grows (missing_ili issues) (missing_ili issues').
Proof.
  intros Hdet. pose proof (detect_lookup _ _ _ _ _ _ _ Hdet) as Hall.
  split; [|split].
  - eapply Forall2_impl; [exact Hall|]. intros e e' (e1 & i & i' & Hfp & ->).
    destruct (first_pass_entry_frame _ _ _ _ _ _ Hfp) as (Hsrc & _). split.
    + by destruct (in_duplicate_group _ _ _ _).
    + intros Hrel. rewrite (first_pass_entry_other _ _ _ _ Hrel) in Hfp.
      injection Hfp as <- _. unfold in_duplicate_group.
      by rewrite (proj2 (String.eqb_neq _ _) Hrel).
  - symmetry. by apply Forall2_length in Hall.
  - destruct (detect_unfold _ _ _ _ _ _ _ Hdet) as (E1 & I1 & st' & H1 & H3 & _ & _ & ->).
    destruct (first_pass_spec _ _ _ _ _ _ _ H1) as (_ & _ & _ & Hdup).
    destruct (first_pass_frame _ _ _ _ _ _ _ H1) as (Hm & Hp & Ho & Hi).
    destruct (third_pass_issues _ _ _ H3) as (Hm' & Hp' & Ho' & Hi').
    destruct (third_pass_spec _ _ _ H3) as (_ & (new & Hnew & _) & _).
    cbn [m_issues] in *. rewrite Hm', Hp', Ho', Hi', Hnew, Hdup.
    repeat split; try done. by exists new.
Qed.

(** The relation of every record after the detector: [dupe] when the
    record is a Direct one that resolves to an identity more than one
    record reaches, and the relation it had in every other case. *)
Theorem detect_relabels (entries : list Entry) (map2130 : gmap string string)
    (ewn : gmap string Synset) (issues : Issues)
    (entries' : list Entry) (groups : list DupeGroup) (issues' : Issues) :
  detect_and_mark_dupes entries map2130 ewn issues = Ok (entries', groups, issues') ->
  Forall2 (fun e e' => rel e' = if in_duplicate_group map2130 ewn entries e
                                then "dupe" else rel e) entries entries'.
Proof.
  intros Hdet. eapply Forall2_impl; [exact (detect_lookup _ _ _ _ _ _ _ Hdet)|].
  intros e e' (e1 & i & i' & Hfp & ->).
  destruct (first_pass_entry_frame _ _ _ _ _ _ Hfp) as (_ & Hrel & _).
  by destruct (in_duplicate_group _ _ _ _).
Qed.

(** After the detector no two records at different positions are left with
    the relation [equal] and the same interlingual identity. *)
Lemma detect_equal_positions (entries : list Entry) (map2130 : gmap string string)
    (ewn : gmap string Synset) (issues : Issues)
    (entries' : list Entry) (groups : list DupeGroup) (issues' : Issues) (i : string) :
  detect_and_mark_dupes entries map2130 ewn issues = Ok (entries', groups, issues') ->
  length (positions (grouped_under i) 0 entries') <= 1.
Proof.
  intros Hdet.
  destruct (detect_unfold _ _ _ _ _ _ _ Hdet) as (E1 & I1 & st' & _ & H3 & -> & _ & _).
  destruct (third_pass_spec _ _ _ H3) as (-> & _ & _). cbn [m_entries].
  apply (marked_groups_small E1 i).
Qed.

End Frame.

Lemma positions_mono (p : Entry -> bool) (j : nat) (e : Entry) (es : list Entry) :
  length (positions p (S j) es) <= length (positions p j (e :: es)).
Proof. cbn [positions]. destruct (p e); simpl; lia. Qed.

Lemma positions_shift (p : Entry -> bool) (j j' : nat) (es : list Entry) :
  length (positions p j es) = length (positions p j' es).
Proof.
  revert j j'. induction es as [|e es IH]; intros j j'; [done|].
  cbn [positions]. destruct (p e); simpl; by rewrite (IH (S j) (S j')).
Qed.

Lemma equal_ilis_positions (i : string) (j : nat) (es : list Entry) :
  i ∈ equal_ilis es -> positions (grouped_under i) j es <> [].
Proof.
  revert j. induction es as [|e es IH]; intros j Hi; [by apply elem_of_nil in Hi|].
  unfold equal_ilis in Hi. cbn [omap list_omap] in Hi. cbn [positions].
  unfold grouped_under at 1.
  destruct (String.eqb (rel e) "equal"); cbn [andb].
  - destruct (get_ili e) as [i0|].
    + apply elem_of_cons in Hi as [->|Hi]; [by rewrite String.eqb_refl|].
      destruct (String.eqb i0 i); [done|]. by apply IH.
    + by apply IH.
  - by apply IH.
Qed.

Lemma equal_ilis_NoDup (es : list Entry) :
  (forall i, length (positions (grouped_under i) 0 es) <= 1) -> NoDup (equal_ilis es).
Proof.
  induction es as [|e es IH]; intros Hsmall; [constructor|].
  assert (Hes : NoDup (equal_ilis es)).
  { apply IH. intros i. rewrite (positions_shift _ 0 1).
    etransitivity; [apply positions_mono|apply Hsmall]. }
  unfold equal_ilis. cbn [omap list_omap]. fold (equal_ilis es).
  destruct (String.eqb (rel e) "equal") eqn:Hrel; [|done].
  destruct (get_ili e) as [i0|] eqn:Hi0; [|done].
  constructor; [|done]. intros Hin.
  apply (equal_ilis_positions i0 1) in Hin.
  specialize (Hsmall i0). cbn [positions] in Hsmall. unfold grouped_under at 1 in Hsmall.
  rewrite Hrel, Hi0, String.eqb_refl in Hsmall. cbn [andb length] in Hsmall.
  destruct (positions (grouped_under i0) 1 es); [done|simpl in Hsmall; lia].
Qed.

(** After the detector the interlingual identities of the records left
    with the relation [equal] are pairwise distinct. *)
Theorem detect_equal_unique {PN : PyNum} (entries : list Entry)
    (map2130 : gmap string string) (ewn : gmap string Synset) (issues : Issues)
    (entries' : list Entry) (groups : list DupeGroup) (issues' : Issues) :
  detect_and_mark_dupes entries map2130 ewn issues = Ok (entries', groups, issues') ->
  NoDup (equal_ilis entries').
Proof.
  intros Hdet. apply equal_ilis_NoDup. intros i.
  by eapply detect_equal_positions.
Qed.

Lemma detect_frame_witness :
  exists entries' groups issues',
    detect_and_mark_dupes (PN := AsciiNum) Examples.dup_entries Examples.dup_map
      Examples.dup_db no_issues = Ok (entries', groups, issues') /\
    Forall2 (fun e e' => source_fields e' = source_fields e /\
                         (rel e <> "equal" -> e' = e)) Examples.dup_entries entries' /\
    length entries' = length Examples.dup_entries /\
    malformed_lines issues' = malformed_lines no_issues /\
    grows (duplicate_ili no_issues) (duplicate_ili issues') /\
    grows (missing_pwn30 no_issues) (missing_pwn30 issues') /\
    grows (missing_omw no_issues) (missing_omw issues') /\
    grows (missing_ili no_issues) (missing_ili issues').
Proof.
  eexists _, _, _. split; [vm_compute; reflexivity|].
  eapply (detect_frame (PN := AsciiNum) Examples.dup_entries Examples.dup_map
            Examples.dup_db no_issues).
  vm_compute. reflexivity.
Defined.

Lemma detect_relabels_witness :
  exists entries' groups issues',
    detect_and_mark_dupes (PN := AsciiNum) Examples.dup_entries Examples.dup_map
      Examples.dup_db no_issues = Ok (entries', groups, issues') /\
    in_duplicate_group Examples.dup_map Examples.dup_db Examples.dup_entries
      <$> Examples.dup_entries = [true; true; false] /\
    Forall2 (fun e e' => rel e' = if in_duplicate_group Examples.dup_map Examples.dup_db
                                       Examples.dup_entries e
                                  then "dupe" else rel e) Examples.dup_entries entries'.
Proof.
  eexists _, _, _. split; [vm_compute; reflexivity|]. split; [vm_compute; reflexivity|].
  eapply (detect_relabels (PN := AsciiNum) Examples.dup_entries Examples.dup_map
            Examples.dup_db no_issues).
  vm_compute. reflexivity.
Defined.

Lemma detect_equal_unique_witness :
  exists entries' groups issues',
    detect_and_mark_dupes (PN := AsciiNum) Examples.dup_entries Examples.dup_map
      Examples.dup_db no_issues = Ok (entries', groups, issues') /\
    equal_ilis entries' = ["i777"] /\
    NoDup (equal_ilis entries').
Proof.
  eexists _, _, _. split; [vm_compute; reflexivity|]. split; [vm_compute; reflexivity|].
  eapply (detect_equal_unique (PN := AsciiNum) Examples.dup_entries Examples.dup_map
            Examples.dup_db no_issues).
  vm_compute. reflexivity.
Defined.

End DetectorMore.

(** ** map2ili.py: the duplicate groups and their reports *)

Module GroupFacts.
Import Py PyFacts Map2ili Map2iliMore DetectorFacts DetectorMore.

Lemma same_fields (a b : Entry) :
  set_rel "" a = set_rel "" b ->
  iwn_ref a = iwn_ref b /\ pwn30_key a = pwn30_key b /\
  english_lemmas a = english_lemmas b /\ english_gloss a = english_gloss b /\
  get_ili a = get_ili b.
Proof.
  intros H. split; [by apply same_iwn_ref|]. split; [exact (f_equal pwn30_key H)|].
  split; [exact (f_equal english_lemmas H)|]. split; [exact (f_equal english_gloss H)|].
  by apply same_get_ili.
Qed.

Lemma reports_same (E E' : list Entry) (G : DupeGroup) (D : DuplicateIli) :
  Forall2 (fun a b => set_rel "" a = set_rel "" b) E E' ->
  reports E G D -> reports E' G D.
Proof.
  intros Hsame (Hili & Hrefs & first & e0 & Hfirst & He0 & Hk & Hl & Hg).
  split; [done|]. split.
  - eapply Forall2_impl; [exact Hrefs|]. intros j r (e & He & Hr).
    destruct (Forall2_lookup_l _ _ _ _ _ Hsame He) as (e' & He' & Hee).
    exists e'. split; [done|]. by rewrite <- (proj1 (same_fields _ _ Hee)).
  - destruct (Forall2_lookup_l _ _ _ _ _ Hsame He0) as (e0' & He0' & Hee).
    destruct (same_fields _ _ Hee) as (_ & Hk' & Hl' & Hg' & _).
    exists first, e0'. by rewrite <- Hk', <- Hl', <- Hg'.
Qed.

Section Groups.
Context {PN : PyNum}.

(** Third pass, one group of more than one: the group and its report. *)
Lemma third_pass_step_report (st st' : Marking) (g : string * list nat) :
  is_big g = true ->
  third_pass_step st g = Ok st' ->
  exists G D,
    m_groups st' = m_groups st ++ [G] /\
    m_issues st' = add_duplicate_ili D (m_issues st) /\
    group_ili G = g.1 /\ Permutation (group_entries G) g.2 /\
    reports (m_entries st) G D.
Proof.
  destruct g as [k js]. unfold is_big, third_pass_step. cbn [fst snd]. intros ->.
  destruct (mapM_result (sort_key (m_entries st)) js) as [keyed|] eqn:Hkeyed; [|done].
  rewrite bind_ok. set (sorted := (sort_by_key keyed).*2).
  destruct (index sorted 0) as [first|] eqn:Hfirst; [|done]. rewrite bind_ok.
  destruct (index (m_entries st) first) as [e0|] eqn:He0; [|done]. rewrite bind_ok.
  destruct (mapM_result _ sorted) as [refs|] eqn:Hrefs; [|done]. rewrite bind_ok.
  intros [= <-]. cbn [m_entries m_groups m_issues].
  apply mapM_result_ok in Hkeyed, Hrefs.
  assert (Hjs : keyed.*2 = js).
  { clear -Hkeyed. induction Hkeyed as [|j kz js keyed Hj _ IH]; [done|].
    rewrite fmap_cons, IH. f_equal. by apply sort_key_ok in Hj as [-> _]. }
  assert (Hperm : Permutation sorted js).
  { unfold sorted. rewrite <- Hjs. apply fmap_Permutation, sort_by_key_perm. }
  eexists _, _. split; [reflexivity|]. split; [reflexivity|].
  cbn [group_ili group_entries]. split; [done|]. split; [done|].
  split; [done|]. cbn [iwn_entries dup_pwn30_key dup_english_lemmas dup_english_gloss].
  split.
  - eapply Forall2_impl; [exact Hrefs|]. intros j r Hr. by apply iwn_ref_ok.
  - exists first, e0. unfold index in Hfirst, He0.
    destruct (sorted !! 0) as [f|] eqn:Hf; [|done]. injection Hfirst as ->.
    destruct (m_entries st !! first) as [e|] eqn:He; [|done]. injection He0 as ->.
    done.
Qed.

Lemma third_pass_report (d : list (string * list nat)) (st st' : Marking) :
  foldM third_pass_step st d = Ok st' ->
  exists gs new,
    m_groups st' = m_groups st ++ gs /\
    duplicate_ili (m_issues st') = duplicate_ili (m_issues st) ++ new /\
    Forall2 (fun g G => group_ili G = g.1 /\ Permutation (group_entries G) g.2)
      (List.filter is_big d) gs /\
    Forall2 (reports (m_entries st)) gs new.
Proof.
  revert st. induction d as [|g d IH]; intros st.
  - intros [= <-]. exists [], []. by rewrite !app_nil_r.
  - rewrite foldM_cons. cbn [List.filter].
    destruct (is_big g) eqn:Hbig.
    + destruct (third_pass_step st g) as [st1|] eqn:Hstep; [|done]. rewrite bind_ok.
      intros Hrest.
      destruct (third_pass_step_report _ _ _ Hbig Hstep) as (G & D & HG & HD & Hk & Hp & Hrep).
      destruct (third_pass_step_big _ _ _ Hbig Hstep) as (Hent & _).
      destruct (IH _ Hrest) as (gs & new & Hgs & Hnew & Hall & Hreps).
      exists (G :: gs), (D :: new). rewrite Hgs, HG, Hnew, HD.
      cbn [duplicate_ili add_duplicate_ili]. rewrite <- !app_assoc.
      split; [done|]. split; [done|]. split; [by constructor|].
      constructor; [done|].
      eapply Forall2_impl; [exact Hreps|]. intros G' D'. apply reports_same.
      rewrite Hent. apply Forall2_flip.
      eapply Forall2_impl; [apply mark_dupes_same|]. by intros a b ->.
    + rewrite (third_pass_step_small _ _ Hbig), bind_ok. apply IH.
Qed.

(** The duplicate groups the detector returns and the duplicate-issue
    entries it adds go in pairs, in the same order: every group has one
    report, which names the identity of the group, its members in the
    order of the group, and the newer key and English text of the first
    member. No two groups have the same identity; the members of a group
    are more than one, each listed once, and each is a record that ends
    with the relation [dupe] and the identity of the group. *)
Theorem detect_groups_reported (entries : list Entry) (map2130 : gmap string string)
    (ewn : gmap string Synset) (issues : Issues)
    (entries' : list Entry) (groups : list DupeGroup) (issues' : Issues) :
  detect_and_mark_dupes entries map2130 ewn issues = Ok (entries', groups, issues') ->
  exists new,
    duplicate_ili issues' = duplicate_ili issues ++ new /\
    Forall2 (reports entries') groups new /\
    NoDup (group_ili <$> groups) /\
    Forall (group_ok entries') groups.
Proof.
  intros Hdet.
  destruct (detect_unfold _ _ _ _ _ _ _ Hdet) as (E1 & I1 & st' & H1 & H3 & -> & -> & ->).
  destruct (first_pass_spec _ _ _ _ _ _ _ H1) as (_ & _ & _ & Hdup).
  destruct (third_pass_spec _ _ _ H3) as (Hent & _ & _).
  destruct (third_pass_report _ _ _ H3) as (gs & new & Hgs & Hnew & Hall & Hreps).
  cbn [m_entries m_groups m_issues app] in *. subst gs.
  set (d := group_from 0 E1 []) in *.
  destruct (group_from_spec E1 0 [] (NoDup_nil_2 : NoDup ([] : list (string * list nat)).*1))
    as [Hnd Hget]. fold d in Hnd, Hget.
  exists new. rewrite Hnew, Hdup. split; [done|]. split; [|split].
  - eapply Forall2_impl; [exact Hreps|]. intros G D. apply reports_same.
    rewrite Hent. apply mark_groups_same.
  - assert (Hkeys : group_ili <$> m_groups st' = (List.filter is_big d).*1).
    { clear -Hall. induction Hall as [|g G gs Gs [HG _] _ IH]; [done|].
      rewrite !fmap_cons, IH. by f_equal. }
    rewrite Hkeys. by apply filter_keys_NoDup.
  - apply Forall_forall. intros G HG.
    apply list_elem_of_lookup in HG as [n HG].
    destruct (Forall2_lookup_r _ _ _ _ _ Hall HG) as ([k js] & Hg & Hk & Hperm).
    apply list_elem_of_lookup_2, list_elem_of_In in Hg.
    cbn [fst snd] in *. apply filter_In in Hg as [Hg Hbig].
    pose proof (dd_get_in _ _ _ Hnd Hg) as Hjs. rewrite Hget in Hjs.
    cbn [dd_get app] in Hjs.
    unfold group_ok. rewrite Hperm, Hk. split; [by apply Nat.ltb_lt in Hbig|].
    split; [rewrite <- Hjs; apply positions_NoDup|].
    apply Forall_forall. intros j Hj.
    assert (Hbigj : in_big_group d j = true).
    { apply existsb_exists. exists (k, js). split; [done|]. rewrite Hbig. cbn [andb snd].
      by apply bool_decide_eq_true. }
    rewrite <- Hjs in Hj. apply positions_lookup in Hj as (e1 & _ & He1 & Hgr).
    rewrite Nat.sub_0_r in He1. exists (set_rel "dupe" e1).
    rewrite Hent, mark_groups_lookup, Hbigj, He1. split; [done|]. split; [done|].
    unfold grouped_under in Hgr. apply andb_prop in Hgr as [_ Hgr].
    change (get_ili (set_rel "dupe" e1)) with (get_ili e1).
    destruct (get_ili e1) as [i|]; [|done]. by apply String.eqb_eq in Hgr as ->.
Qed.

End Groups.

Lemma detect_groups_reported_witness :
  exists entries' groups issues' new,
    detect_and_mark_dupes (PN := AsciiNum) Examples.dup_entries Examples.dup_map
      Examples.dup_db no_issues = Ok (entries', groups, issues') /\
    group_entries <$> groups = [[1; 0]] /\
    duplicate_ili issues' = duplicate_ili no_issues ++ new /\
    Forall2 (reports entries') groups new /\
    NoDup (group_ili <$> groups) /\
    Forall (group_ok entries') groups.
Proof.
  destruct (detect_groups_reported (PN := AsciiNum) Examples.dup_entries Examples.dup_map
              Examples.dup_db no_issues Examples.marked_entries
              [{| group_ili := "i12345"; group_entries := [1; 0] |}]
              (add_duplicate_ili
                 {| dup_ili := "i12345"; dup_pwn30_key := Some "00001741-n";
                    dup_english_lemmas := "cat"; dup_english_gloss := "feline mammal";
                    iwn_entries :=
                      [{| ref_iwn_id := "3"; ref_hindi_lemmas := "bilaav";
                          ref_hindi_gloss := "bilaav" |};
                       {| ref_iwn_id := "20"; ref_hindi_lemmas := "billi";
                          ref_hindi_gloss := "billi" |}] |} no_issues))
    as (new & H).
  { vm_compute. reflexivity. }
  eexists _, _, _, new. split; [vm_compute; reflexivity|]. split; [reflexivity|].
  exact H.
Defined.

End GroupFacts.

(** ** map2ili.py: the translation the version map holds *)

Module SelectionFacts.
Import Py PyFacts Map2ili Map2iliMore ResolverFacts DetectorFacts VersionFacts VersionMore.

(** A key [offset-pos] is read in one way when the POS holds no dash. *)
Lemma key_inj (a a' p p' : string) :
  contains dash p = false -> contains dash p' = false ->
  a +:+ "-" +:+ p = a' +:+ "-" +:+ p' -> a = a' /\ p = p'.
Proof.
  intros Hp Hp' Heq.
  pose proof (rsplit_last_app dash a p Hp) as H1.
  pose proof (rsplit_last_app dash a' p' Hp') as H2.
  change (String dash p) with ("-" +:+ p) in H1.
  change (String dash p') with ("-" +:+ p') in H2.
  rewrite Heq, H2 in H1. by injection H1 as -> ->.
Qed.

Lemma files_pos (filename pos : string) :
  In (filename, pos) files -> contains dash pos = false.
Proof. intros [[= <- <-]|[[= <- <-]|[[= <- <-]|[[= <- <-]|[]]]]]; reflexivity. Qed.

Lemma files_NoDup : NoDup files.*2.
Proof. apply (bool_decide_unpack _). vm_compute. exact I. Qed.

Lemma later_files (fpre fpost : list (string * string)) (f f' : string * string) :
  files = fpre ++ f :: fpost -> In f' fpost -> f'.2 <> f.2.
Proof.
  intros Hfiles Hin Heq. pose proof files_NoDup as Hnd.
  rewrite Hfiles, fmap_app, fmap_cons in Hnd.
  apply NoDup_app in Hnd as (_ & _ & Hnd). apply NoDup_cons in Hnd as [Hnot _].
  apply Hnot. rewrite <- Heq. apply list_elem_of_fmap. exists f'.
  split; [done|]. by apply list_elem_of_In.
Qed.

Section Selection.
Context {PN : PyNum} {PO : PyFloatOrder}.

(** A line leaves alone every key but the one it writes. *)
Lemma pwn_line_keeps (pos line k : string) (m m' : gmap string string) :
  pwn_line pos m line = Ok m' ->
  (forall o, writes_offset o line -> k <> o +:+ "-" +:+ pos) ->
  m' !! k = m !! k.
Proof.
  intros H Hk. apply pwn_line_inv in H as [[_ ->]|(o & cands & o30 & Hparts & Hne & _ & _ & ->)];
    [done|].
  apply lookup_insert_ne. intros Heq. apply (Hk o); [|done].
  unfold writes_offset. rewrite Hparts, line_parts_length. split; [|done].
  destruct cands; [done|]. simpl. lia.
Qed.

Lemma pwn_lines_keep (pos k : string) (lines : list string) (m m' : gmap string string) :
  foldM (pwn_line pos) m lines = Ok m' ->
  (forall line o, In line lines -> writes_offset o line -> k <> o +:+ "-" +:+ pos) ->
  m' !! k = m !! k.
Proof.
  intros H Hk.
  apply (foldM_invariant_in (fun m0 => m0 !! k = m !! k) (pwn_line pos) lines m m');
    [|done|done].
  intros m1 line m2 Hin Hstep <-. eapply pwn_line_keeps; [exact Hstep|].
  intros o. by apply Hk.
Qed.

(** The file of another POS leaves the key alone. *)
Lemma pwn_file_keeps (fs : gmap string string) (file : string * string)
    (offset_21 pos : string) (m m' : gmap string string) :
  pwn_file fs m file = Ok m' ->
  contains dash file.2 = false -> contains dash pos = false -> file.2 <> pos ->
  m' !! (offset_21 +:+ "-" +:+ pos) = m !! (offset_21 +:+ "-" +:+ pos).
Proof.
  destruct file as [filename pos']. cbn [snd]. unfold pwn_file, open_read.
  destruct (fs !! (PWN_MAP_DIR +:+ filename)) as [text|]; [|done]. rewrite bind_ok.
  intros H Hp' Hp Hne. eapply pwn_lines_keep; [exact H|].
  intros line o _ _ Heq. apply key_inj in Heq as [_ Heq]; [|done..]. by apply Hne.
Qed.

Lemma pwn_files_keep (fs : gmap string string) (l : list (string * string))
    (offset_21 pos : string) (m m' : gmap string string) :
  foldM (pwn_file fs) m l = Ok m' ->
  contains dash pos = false ->
  (forall f, In f l -> contains dash f.2 = false /\ f.2 <> pos) ->
  m' !! (offset_21 +:+ "-" +:+ pos) = m !! (offset_21 +:+ "-" +:+ pos).
Proof.
  intros H Hp Hl.
  apply (foldM_invariant_in
           (fun m0 => m0 !! (offset_21 +:+ "-" +:+ pos) = m !! (offset_21 +:+ "-" +:+ pos))
           (pwn_file fs) l m m'); [|done|done].
  intros m1 f m2 Hin Hstep <-. destruct (Hl f Hin) as [Hd Hne].
  by eapply pwn_file_keeps.
Qed.

(** C2, as the code has it. In the map [load_pwn_map] returns, the
    translation of an offset and a POS is the one written by the last line
    of the mapping file of that POS that is for the offset; when that line
    is the offset followed by one or more pairs of a newer offset and a
    score that [float] reads, none being a NaN, the translation is the
    newer offset of a candidate that no candidate sorts after: one of
    maximal score and, among those of that score, of the greatest offset
    string. *)
Theorem load_pwn_map_selects_max (fs : gmap string string) (map2130 : gmap string string)
    (filename pos text line offset_21 : string) (pre post : list string)
    (cands : list (string * string)) (pairs : list (float * string)) :
  load_pwn_map fs = Ok map2130 ->
  In (filename, pos) files ->
  fs !! (PWN_MAP_DIR +:+ filename) = Some text ->
  readlines text = pre ++ line :: post ->
  split_ws (strip line) = line_parts offset_21 cands ->
  cands <> [] ->
  Forall2 (fun c p => py_float c.2 = Some p.1 /\ p.2 = c.1) cands pairs ->
  Forall (fun p => is_nan p.1 = false) pairs ->
  Forall (fun l => ~ writes_offset offset_21 l) post ->
  exists best,
    In best pairs /\
    (forall p, In p pairs -> pair_le p best) /\
    map2130 !! (offset_21 +:+ "-" +:+ pos) = Some (best.2 +:+ "-" +:+ pos).
Proof.
  intros Hload Hfile Htext Hlines Hparts Hne Hpairs Hnum Hpost.
  pose proof (files_pos _ _ Hfile) as Hpos.
  destruct (in_split _ _ Hfile) as (fpre & fpost & Hfiles).
  unfold load_pwn_map in Hload. rewrite Hfiles, foldM_app in Hload.
  destruct (foldM (pwn_file fs) ∅ fpre) as [m0|]; [|done]. rewrite bind_ok, foldM_cons in Hload.
  destruct (pwn_file fs m0 (filename, pos)) as [m3|] eqn:Hm3; [|done].
  rewrite bind_ok in Hload.
  unfold pwn_file, open_read in Hm3. rewrite Htext, bind_ok, Hlines, foldM_app in Hm3.
  destruct (foldM (pwn_line pos) m0 pre) as [m1|]; [|done].
  rewrite bind_ok, foldM_cons in Hm3.
  destruct (pwn_line_max pos line offset_21 m1 cands pairs Hparts Hne Hpairs Hnum)
    as (best & Hline & Hin & Hmax).
  rewrite Hline, bind_ok in Hm3.
  exists best. split; [done|]. split; [done|].
  rewrite (pwn_files_keep _ _ _ _ _ _ Hload Hpos).
  - rewrite (pwn_lines_keep _ _ _ _ _ Hm3); [apply lookup_insert_eq|].
    intros l o Hl Ho Heq. apply key_inj in Heq as [<- _]; [|done..].
    rewrite Forall_forall in Hpost. by apply (Hpost l); [apply list_elem_of_In|].
  - intros f Hf. split.
    + destruct f as [fn p]. apply (files_pos fn). rewrite Hfiles.
      apply in_or_app. right. by right.
    + change pos with (filename, pos).2. by eapply later_files.
Qed.

End Selection.

(** The file of [upc_fs]: the second line is the last for its offset, and
    of its candidates the one of score 0.95 is taken, whatever the first
    line gave. *)
Lemma load_pwn_map_selects_max_witness :
  exists map2130 best,
    load_pwn_map (PN := AsciiNum) MoreExamples.upc_fs = Ok map2130 /\
    map2130 !! "12345678-n" = Some "00001741-n" /\
    In best [(Qmake 9 10, "00001740"); (Qmake 95 100, "00001741")] /\
    (forall p, In p [(Qmake 9 10, "00001740"); (Qmake 95 100, "00001741")] ->
               pair_le (PN := AsciiNum) p best) /\
    map2130 !! ("12345678" +:+ "-" +:+ "n") = Some (best.2 +:+ "-" +:+ "n").
Proof.
  destruct (load_pwn_map_selects_max (PN := AsciiNum) (PO := AsciiNum_order)
              MoreExamples.upc_fs
              (<["12345678-n" := "00001741-n"]> ∅)
              "wn21-30.noun" "n"
              ("12345678 00001999 0.99" +:+ String nl "" +:+ Examples.upc_line)
              Examples.upc_line "12345678"
              ["12345678 00001999 0.99" +:+ String nl ""] []
              [("00001740", "0.9"); ("00001741", "0.95")]
              [(Qmake 9 10, "00001740"); (Qmake 95 100, "00001741")])
    as (best & H).
  - vm_compute. reflexivity.
  - right. right. by left.
  - vm_compute. reflexivity.
  - vm_compute. reflexivity.
  - vm_compute. reflexivity.
  - discriminate.
  - repeat constructor.
  - repeat constructor.
  - constructor.
  - exists (<["12345678-n" := "00001741-n"]> ∅), best.
    split; [vm_compute; reflexivity|]. split; [vm_compute; reflexivity|]. exact H.
Defined.

(** C2 as the spec states it fails in two ways. An earlier line for the
    same offset gives no translation: the candidate of score 0.99 of the
    first line of [upc_fs] is not in the map. And a score that is a NaN is
    greater than nothing and smaller than nothing: of the same two
    candidates the first in the line is kept, in either order, so the
    candidate of score 0.5 is passed over for the one of score [nan]. *)
Lemma load_pwn_map_overwrites_and_nan :
  (exists map2130,
     load_pwn_map (PN := AsciiNum) MoreExamples.upc_fs = Ok map2130 /\
     pwn_line (PN := AsciiNum) "n" ∅ ("12345678 00001999 0.99" +:+ String nl "")
     = Ok (<["12345678-n" := "00001999-n"]> ∅) /\
     map2130 !! "12345678-n" = Some "00001741-n") /\
  (exists map_a map_b,
     py_float (PyNum := NanNum) "nan" = Some None /\
     py_float (PyNum := NanNum) "0.5" = Some (Some (Qmake 5 10)) /\
     float_gt (PyNum := NanNum) (Some (Qmake 5 10)) None = false /\
     load_pwn_map (PN := NanNum) MoreExamples.nan_first_fs = Ok map_a /\
     map_a !! "12345678-n" = Some "00000002-n" /\
     load_pwn_map (PN := NanNum) MoreExamples.nan_last_fs = Ok map_b /\
     map_b !! "12345678-n" = Some "00000003-n").
Proof.
  split.
  - eexists. split; [vm_compute; reflexivity|]. split; vm_compute; reflexivity.
  - eexists _, _. repeat split; vm_compute; reflexivity.
Qed.

End SelectionFacts.

(** ** map2ili.py: the whole script *)

Module ScriptFacts.
Import Py PyFacts Map2ili Map2iliMore DetectorFacts BuilderFacts.

Lemma open_write_build (dirs : list string) (file : string) :
  contains "/" file = false ->
  open_write dirs ("build/" +:+ file)
  = if bool_decide ("build" ∈ dirs) then Ok tt else Raise OSError.
Proof.
  intros Hfile. unfold open_write.
  change ("build/" +:+ file) with ("build" +:+ String "/" file).
  by rewrite (ResolverFacts.rsplit_last_app "/" "build" file Hfile).
Qed.

Section Script.
Context {PN : PyNum}.

(** X3: the script returns when the database is there, the mapping files
    are read, the TSV file is there, [int] reads the identifier of every
    record the parser makes, and the directory [build] is there: malformed
    rows and missing links abort nothing, and the two documents written are
    the final mapping and the issues with their summary. Under the same
    conditions without the directory [build], the script raises when it
    opens the first file to write. *)
Theorem script_returns (fs : gmap string string) (dirs : list string)
    (ewn : gmap string Synset) (map2130 : gmap string string) :
  load_pwn_map fs = Ok map2130 ->
  is_Some (fs !! IWN_EN_DATA) ->
  (forall entries issues,
      load_iwn_map fs no_issues = Ok (entries, issues) -> numeric_ids entries) ->
  exists run,
    main fs (Some ewn) = Ok run /\
    ("build" ∈ dirs ->
     script fs dirs (Some ewn)
     = Ok (run, {| mapping_file := run_iwn_to_ili run;
                   issues_file := (summary (run_issues run), run_issues run) |})) /\
    ("build" ∉ dirs -> script fs dirs (Some ewn) = Raise OSError).
Proof.
  intros Hmap Htsv Hnum.
  destruct (main_total fs ewn map2130 Hmap Htsv Hnum) as [run Hrun].
  exists run. split; [done|]. unfold script, write_issues.
  change "build/iwn2ili.jaml" with ("build/" +:+ "iwn2ili.jaml").
  change "build/iwn_issues.yaml" with ("build/" +:+ "iwn_issues.yaml").
  rewrite Hrun, bind_ok, !open_write_build by reflexivity. split.
  - intros Hin. by rewrite bool_decide_eq_true_2.
  - intros Hnot. by rewrite bool_decide_eq_false_2.
Qed.

End Script.

Lemma script_returns_witness :
  exists run,
    main (PN := AsciiNum) Examples.dup_fs (Some Examples.dup_db) = Ok run /\
    ("build" ∈ ["build"] ->
     script (PN := AsciiNum) Examples.dup_fs ["build"] (Some Examples.dup_db)
     = Ok (run, {| mapping_file := run_iwn_to_ili run;
                   issues_file := (summary (run_issues run), run_issues run) |})) /\
    ("build" ∉ ["build"] ->
     script (PN := AsciiNum) Examples.dup_fs ["build"] (Some Examples.dup_db)
     = Raise OSError).
Proof.
  eapply (script_returns (PN := AsciiNum) Examples.dup_fs ["build"] Examples.dup_db).
  - vm_compute. reflexivity.
  - vm_compute. by eexists.
  - intros entries issues Hrows. vm_compute in Hrows. injection Hrows as <- _.
    repeat constructor; by eexists.
Defined.

(** Without the directory [build] the run of the example is lost at the
    first write. *)
Example script_without_build :
  script (PN := AsciiNum) Examples.dup_fs [] (Some Examples.dup_db) = Raise OSError.
Proof. vm_compute. reflexivity. Qed.

End ScriptFacts.

(** ** map2ili.py: the order of the members of a duplicate group *)

Module OrderFacts.
Import Py PyFacts Map2ili Map2iliMore DetectorFacts.

Section Order.
Context {PN : PyNum}.

Lemma id_is_ext (E E' : list Entry) (z : Z) (j : nat) :
  Forall2 (fun a b => iwn_id a = iwn_id b) E E' -> id_is E z j = id_is E' z j.
Proof.
  intros Hsame. unfold id_is.
  destruct (E !! j) as [e|] eqn:He.
  - destruct (Forall2_lookup_l _ _ _ _ _ Hsame He) as (e' & -> & ->). done.
  - apply lookup_ge_None in He. rewrite (Forall2_length _ _ _ Hsame) in He.
    apply lookup_ge_None in He. by rewrite He.
Qed.

Lemma filter_id_is_ext (E E' : list Entry) (z : Z) (js : list nat) :
  Forall2 (fun a b => iwn_id a = iwn_id b) E E' ->
  List.filter (id_is E z) js = List.filter (id_is E' z) js.
Proof.
  intros Hsame. induction js as [|j js IH]; [done|].
  cbn [List.filter]. by rewrite IH, (id_is_ext _ _ _ _ Hsame).
Qed.

Lemma filter_keyed (E : list Entry) (z : Z) (l : list (Z * nat)) :
  Forall (fun kz => exists e, E !! kz.2 = Some e /\ py_int (iwn_id e) = Some kz.1) l ->
  List.filter (id_is E z) l.*2 = (List.filter (fun y => (y.1 =? z)%Z) l).*2.
Proof.
  induction 1 as [|kz l (e & He & Hz) _ IH]; [done|].
  rewrite fmap_cons. cbn [List.filter]. unfold id_is at 1. rewrite He, Hz.
  destruct (kz.1 =? z)%Z; [rewrite fmap_cons|]; by rewrite IH.
Qed.

(** Third pass, one group of more than one: among the members with the
    same [int(iwn_id)], the group returned keeps the order of the dict. *)
Lemma third_pass_step_order (st st' : Marking) (g : string * list nat) :
  is_big g = true ->
  third_pass_step st g = Ok st' ->
  exists G,
    m_groups st' = m_groups st ++ [G] /\ group_ili G = g.1 /\
    forall z, List.filter (id_is (m_entries st) z) (group_entries G)
              = List.filter (id_is (m_entries st) z) g.2.
Proof.
  destruct g as [k js]. unfold is_big, third_pass_step. cbn [fst snd]. intros ->.
  destruct (mapM_result (sort_key (m_entries st)) js) as [keyed|] eqn:Hkeyed; [|done].
  rewrite bind_ok. set (sorted := (sort_by_key keyed).*2).
  destruct (index sorted 0) as [first|]; [|done]. rewrite bind_ok.
  destruct (index (m_entries st) first) as [e0|]; [|done]. rewrite bind_ok.
  destruct (mapM_result _ sorted) as [refs|]; [|done]. rewrite bind_ok.
  intros [= <-]. cbn [m_entries m_groups m_issues].
  apply mapM_result_ok in Hkeyed.
  assert (Hjs : keyed.*2 = js).
  { clear -Hkeyed. induction Hkeyed as [|j kz js keyed Hj _ IH]; [done|].
    rewrite fmap_cons, IH. f_equal. by apply sort_key_ok in Hj as [-> _]. }
  assert (Hkz : Forall (fun kz => exists e, m_entries st !! kz.2 = Some e
                                            /\ py_int (iwn_id e) = Some kz.1) keyed).
  { clear -Hkeyed. induction Hkeyed as [|j kz js keyed Hj _ IH]; constructor; [|done].
    apply sort_key_ok in Hj as [-> ?]. done. }
  eexists. split; [reflexivity|]. split; [reflexivity|].
  intros z. cbn [group_entries]. unfold sorted.
  rewrite (filter_keyed (m_entries st) z (sort_by_key keyed)).
  - rewrite sort_by_key_stable, <- (filter_keyed (m_entries st) z keyed Hkz).
    by rewrite Hjs.
  - apply Forall_forall. intros kz Hin. rewrite Forall_forall in Hkz. apply Hkz.
    by rewrite <- (sort_by_key_perm keyed).
Qed.

Lemma third_pass_order (d : list (string * list nat)) (st st' : Marking) :
  foldM third_pass_step st d = Ok st' ->
  exists gs,
    m_groups st' = m_groups st ++ gs /\
    Forall2 (fun g G => group_ili G = g.1 /\
                        forall z, List.filter (id_is (m_entries st) z) (group_entries G)
                                  = List.filter (id_is (m_entries st) z) g.2)
      (List.filter is_big d) gs.
Proof.
  revert st. induction d as [|g d IH]; intros st.
  - intros [= <-]. exists []. by rewrite app_nil_r.
  - rewrite foldM_cons. cbn [List.filter].
    destruct (is_big g) eqn:Hbig.
    + destruct (third_pass_step st g) as [st1|] eqn:Hstep; [|done]. rewrite bind_ok.
      intros Hrest.
      destruct (third_pass_step_order _ _ _ Hbig Hstep) as (G & HG & Hk & Hord).
      destruct (third_pass_step_big _ _ _ Hbig Hstep) as (Hent & _).
      destruct (IH _ Hrest) as (gs & Hgs & Hall).
      exists (G :: gs). rewrite Hgs, HG, <- app_assoc. split; [done|].
      constructor; [done|].
      eapply Forall2_impl; [exact Hall|]. intros g' G' [Hk' Hord']. split; [done|].
      intros z.
      assert (Hsame : Forall2 (fun a b => iwn_id a = iwn_id b) (m_entries st) (m_entries st1)).
      { rewrite Hent. eapply Forall2_impl; [apply mark_dupes_same|].
        intros a b Hab. exact (f_equal iwn_id Hab). }
      rewrite !(filter_id_is_ext _ _ z _ Hsame). apply Hord'.
    + rewrite (third_pass_step_small _ _ Hbig), bind_ok. apply IH.
Qed.

(** X5: the sort of a duplicate group is stable all through the detector.
    In every group returned, the members whose [iwn_id] [int] reads as the
    same number stand in the order of the records of the input: the list
    of the group and the list of the members by position agree on every
    number. *)
Theorem detect_groups_stable (entries : list Entry) (map2130 : gmap string string)
    (ewn : gmap string Synset) (issues : Issues)
    (entries' : list Entry) (groups : list DupeGroup) (issues' : Issues) :
  detect_and_mark_dupes entries map2130 ewn issues = Ok (entries', groups, issues') ->
  Forall (fun G => forall z,
            List.filter (id_is entries z) (group_entries G)
            = List.filter (id_is entries z)
                (members map2130 ewn (group_ili G) entries)) groups.
Proof.
  intros Hdet.
  destruct (detect_unfold _ _ _ _ _ _ _ Hdet) as (E1 & I1 & st' & H1 & H3 & _ & -> & _).
  destruct (first_pass_spec _ _ _ _ _ _ _ H1) as (es1 & Hes & Hall & _).
  cbn [app] in Hes. subst es1.
  destruct (third_pass_order _ _ _ H3) as (gs & Hgs & Hord).
  cbn [m_entries m_groups app] in *. subst gs.
  set (d := group_from 0 E1 []) in *.
  destruct (group_from_spec E1 0 [] (NoDup_nil_2 : NoDup ([] : list (string * list nat)).*1))
    as [Hnd _]. fold d in Hnd.
  assert (Hsame : Forall2 (fun a b => iwn_id a = iwn_id b) entries E1).
  { eapply Forall2_impl; [exact Hall|]. intros e e1 (i & i' & Hfp).
    destruct (first_pass_entry_keeps _ _ _ _ _ _ Hfp) as (_ & Href & _).
    symmetry. exact (f_equal ref_iwn_id Href). }
  apply Forall_forall. intros G HG.
  apply list_elem_of_lookup in HG as [n HG].
  destruct (Forall2_lookup_r _ _ _ _ _ Hord HG) as ([k js] & Hg & Hk & Hz).
  apply list_elem_of_lookup_2, list_elem_of_In in Hg.
  cbn [fst snd] in *. apply filter_In in Hg as [Hg _].
  pose proof (dd_get_in _ _ _ Hnd Hg) as Hjs.
  unfold d in Hjs. rewrite (groups_are_members _ _ _ _ _ Hall) in Hjs.
  intros z. rewrite !(filter_id_is_ext _ _ z _ Hsame), Hk, Hjs. apply Hz.
Qed.

End Order.

(** Three records on the same identity, two of which have the identifier
    3: in the group they come first, in the order of the input. *)
Lemma detect_groups_stable_witness :
  exists entries' groups issues',
    detect_and_mark_dupes (PN := AsciiNum) MoreExamples.same_id_entries
      Examples.dup_map Examples.dup_db no_issues = Ok (entries', groups, issues') /\
    group_entries <$> groups = [[1; 2; 0]] /\
    Forall (fun G => forall z,
              List.filter (id_is (PN := AsciiNum) MoreExamples.same_id_entries z)
                (group_entries G)
              = List.filter (id_is (PN := AsciiNum) MoreExamples.same_id_entries z)
                  (members Examples.dup_map Examples.dup_db (group_ili G)
                     MoreExamples.same_id_entries)) groups.
Proof.
  eexists _, _, _. split; [vm_compute; reflexivity|]. split; [vm_compute; reflexivity|].
  eapply (detect_groups_stable (PN := AsciiNum) MoreExamples.same_id_entries
            Examples.dup_map Examples.dup_db no_issues).
  vm_compute. reflexivity.
Defined.

End OrderFacts.

(** ** map2ili.py: the final mapping and the statistics *)

Module BuilderMore.
Import Py PyFacts Map2ili Map2iliMore DetectorFacts BuilderFacts.

(** One step of the builder, by the outcome of the lookups: the mapping
    gains the value of the record, when it has one; the statistics count
    the record once; the issues gain at most one missing link, and only
    for a [hyper] record. *)
Lemma final_step_spec (map2130 : gmap string string) (ewn : gmap string Synset)
    (st st' : Final) (e : Entry) :
  final_step map2130 ewn st e = Ok st' ->
  iwn_to_ili st'
  = match final_value map2130 ewn e with
    | Some v => set_item2 (rel e) (iwn_key e) v (iwn_to_ili st)
    | None => iwn_to_ili st
    end /\
  stats st' = incr (stat_key map2130 ewn e) (stats st) /\
  malformed_lines (f_issues st') = malformed_lines (f_issues st) /\
  duplicate_ili (f_issues st') = duplicate_ili (f_issues st) /\
  (get_ili e = None -> resolve map2130 ewn e <> Fails).
Proof.
  unfold final_step, final_value, stat_key, resolve.
  destruct (get_ili e); [by intros [= <-]|].
  destruct (map2130 !! pwn21_key e) as [k30|].
  2:{ intros [= <-]. cbn [iwn_to_ili stats f_issues].
      by destruct (String.eqb (rel e) "hyper"). }
  destruct (lookup_synset ewn k30) as [[syn key]|]; [|done]. rewrite bind_ok.
  destruct syn as [syn|].
  2:{ intros [= <-]. cbn [iwn_to_ili stats f_issues].
      by destruct (String.eqb (rel e) "hyper"). }
  destruct (synset_ili syn); intros [= <-]; cbn [iwn_to_ili stats f_issues]; [done|].
  by destruct (String.eqb (rel e) "hyper").
Qed.

Lemma stat_incr (k key : string) (s : gmap string nat) :
  stat key (incr k s) = stat key s + if String.eqb k key then 1 else 0.
Proof.
  unfold stat, incr. destruct (String.eqb k key) eqn:Hk.
  - apply String.eqb_eq in Hk as ->. rewrite lookup_insert_eq. simpl. lia.
  - apply String.eqb_neq in Hk. rewrite lookup_insert_ne by done. lia.
Qed.

Lemma final_steps_spec (map2130 : gmap string string) (ewn : gmap string Synset)
    (l : list Entry) (st st' : Final) :
  foldM (final_step map2130 ewn) st l = Ok st' ->
  (forall key, stat key (stats st')
               = stat key (stats st)
                 + length (List.filter (fun e => String.eqb (stat_key map2130 ewn e) key) l)) /\
  malformed_lines (f_issues st') = malformed_lines (f_issues st) /\
  duplicate_ili (f_issues st') = duplicate_ili (f_issues st) /\
  (forall r k v, get_item2 r k (iwn_to_ili st') = Some v ->
     get_item2 r k (iwn_to_ili st) = Some v \/
     exists e, In e l /\ rel e = r /\ iwn_key e = k /\ final_value map2130 ewn e = Some v).
Proof.
  revert st. induction l as [|e l IH]; intros st.
  - intros [= <-]. split; [intros; simpl; lia|]. split; [done|]. split; [done|]. auto.
  - rewrite foldM_cons.
    destruct (final_step map2130 ewn st e) as [st1|] eqn:Hstep; [|done]. rewrite bind_ok.
    intros Hrest. destruct (IH _ Hrest) as (Hst & Hm & Hd & Hprov).
    destruct (final_step_spec _ _ _ _ _ Hstep) as (Hmap & Hstats & Hm1 & Hd1 & _).
    split; [|split; [|split]].
    + intros key. rewrite Hst, Hstats, stat_incr. cbn [List.filter].
      destruct (String.eqb _ key); simpl; lia.
    + by rewrite Hm.
    + by rewrite Hd.
    + intros r k v Hv. destruct (Hprov r k v Hv) as [H1|(e' & He' & H)].
      * rewrite Hmap in H1. destruct (final_value map2130 ewn e) as [v0|] eqn:Hfv; [|by left].
        rewrite get_item2_set in H1. destruct (decide _) as [[<- <-]|_]; [|by left].
        injection H1 as <-. right. exists e. split; [by left|done].
      * right. exists e'. split; [by right|done].
Qed.

(** The final mapping holds nothing but what the records give: every
    value under a relation and a key is the value of a record with that
    relation and that key, which is the ILI the record carries or, for a
    record without one, the id of the ILI of the synset that its
    [pwn21_key], translated, finds (after the satellite fallback); and a
    record that alone has its relation and key is in the mapping with
    exactly that value, or is not in it when it has none. The builder adds
    no malformed line and no duplicate issue. *)
Theorem build_final_mapping_spec (entries : list Entry) (map2130 : gmap string string)
    (ewn : gmap string Synset) (issues : Issues) (fin : Final) :
  build_final_mapping entries map2130 ewn issues = Ok fin ->
  (forall r k v, get_item2 r k (iwn_to_ili fin) = Some v ->
     exists e, In e entries /\ rel e = r /\ iwn_key e = k /\
               final_value map2130 ewn e = Some v) /\
  (forall pre e post,
     entries = pre ++ e :: post ->
     (forall e', In e' (pre ++ post) -> rel e' = rel e -> iwn_key e' <> iwn_key e) ->
     get_item2 (rel e) (iwn_key e) (iwn_to_ili fin) = final_value map2130 ewn e) /\
  malformed_lines (f_issues fin) = malformed_lines issues /\
  duplicate_ili (f_issues fin) = duplicate_ili issues.
Proof.
  unfold build_final_mapping. intros Hfin.
  destruct (final_steps_spec _ _ _ _ _ Hfin) as (_ & Hm & Hd & Hprov).
  split; [|split; [|done]].
  - intros r k v Hv. destruct (Hprov r k v Hv) as [H|H]; [|done].
    cbn [iwn_to_ili] in H. unfold get_item2 in H. by rewrite lookup_empty in H.
  - intros pre e post -> Huniq. rewrite foldM_app in Hfin.
    destruct (foldM (final_step map2130 ewn) _ pre) as [st1|] eqn:Hpre; [|done].
    rewrite bind_ok, foldM_cons in Hfin.
    destruct (final_step map2130 ewn st1 e) as [st2|] eqn:Hstep; [|done].
    rewrite bind_ok in Hfin.
    rewrite (final_steps_other _ _ _ _ _ _ _ Hfin)
      by (intros e' He'; apply Huniq, in_or_app; by right).
    destruct (final_step_spec _ _ _ _ _ Hstep) as (-> & _).
    assert (Hbefore : get_item2 (rel e) (iwn_key e) (iwn_to_ili st1) = None).
    { rewrite (final_steps_other _ _ _ _ _ _ _ Hpre)
        by (intros e' He'; apply Huniq, in_or_app; by left).
      cbn [iwn_to_ili]. unfold get_item2. by rewrite lookup_empty. }
    destruct (final_value map2130 ewn e) as [v|]; [|done].
    rewrite get_item2_set. by rewrite decide_True.
Qed.

(** The statistics count every record once: under its relation when the
    builder wrote a value for it, and under [missing_30], [missing_omw] or
    [missing_ili], by the lookup that ended the chain, when it did not. *)
Theorem build_stats_count (entries : list Entry) (map2130 : gmap string string)
    (ewn : gmap string Synset) (issues : Issues) (fin : Final) (key : string) :
  build_final_mapping entries map2130 ewn issues = Ok fin ->
  stat key (stats fin)
  = length (List.filter (fun e => String.eqb (stat_key map2130 ewn e) key) entries).
Proof.
  unfold build_final_mapping. intros Hfin.
  destruct (final_steps_spec _ _ _ _ _ Hfin) as (Hst & _).
  rewrite Hst. cbn [stats]. unfold stat at 1. by rewrite lookup_empty.
Qed.

Lemma build_final_mapping_spec_witness :
  exists fin,
    build_final_mapping Examples.marked_entries Examples.dup_map Examples.dup_db no_issues
    = Ok fin /\
    final_value Examples.dup_map Examples.dup_db <$> Examples.marked_entries
    = [Some (Some "i12345"); Some (Some "i12345"); Some (Some "i777")] /\
    (forall r k v, get_item2 r k (iwn_to_ili fin) = Some v ->
       exists e, In e Examples.marked_entries /\ rel e = r /\ iwn_key e = k /\
                 final_value Examples.dup_map Examples.dup_db e = Some v) /\
    (forall pre e post,
       Examples.marked_entries = pre ++ e :: post ->
       (forall e', In e' (pre ++ post) -> rel e' = rel e -> iwn_key e' <> iwn_key e) ->
       get_item2 (rel e) (iwn_key e) (iwn_to_ili fin)
       = final_value Examples.dup_map Examples.dup_db e) /\
    malformed_lines (f_issues fin) = malformed_lines no_issues /\
    duplicate_ili (f_issues fin) = duplicate_ili no_issues.
Proof.
  eexists. split; [vm_compute; reflexivity|]. split; [vm_compute; reflexivity|].
  eapply (build_final_mapping_spec Examples.marked_entries Examples.dup_map
            Examples.dup_db no_issues).
  vm_compute. reflexivity.
Defined.

Lemma build_stats_count_witness :
  exists fin,
    build_final_mapping Examples.marked_entries Examples.dup_map Examples.dup_db no_issues
    = Ok fin /\
    stat "dupe" (stats fin) = 2 /\
    stat "dupe" (stats fin)
    = length (List.filter
                (fun e => String.eqb (stat_key Examples.dup_map Examples.dup_db e) "dupe")
                Examples.marked_entries).
Proof.
  eexists. split; [vm_compute; reflexivity|]. split; [vm_compute; reflexivity|].
  eapply (build_stats_count Examples.marked_entries Examples.dup_map
            Examples.dup_db no_issues).
  vm_compute. reflexivity.
Defined.

End BuilderMore.

(** ** map2ili.py: the counts of the report *)

Module ReportFacts.
Import Py PyFacts Map2ili Map2iliMore.
Import DetectorFacts BuilderFacts DetectorMore BuilderMore.

(** *** Counting the records marked [dupe] *)

Lemma filter_length_Forall2 {A B : Type} (p : A -> bool) (q : B -> bool)
    (l : list A) (l' : list B) :
  Forall2 (fun a b => p a = q b) l l' ->
  length (List.filter p l) = length (List.filter q l').
Proof.
  induction 1 as [|a b l l' Hab _ IH]; [done|].
  cbn [List.filter]. rewrite Hab. destruct (q b); simpl; by rewrite IH.
Qed.

Lemma count_alter (es : list Entry) (j : nat) (e : Entry) :
  es !! j = Some e -> is_dupe e = false ->
  length (List.filter is_dupe (alter (set_rel "dupe") j es))
  = S (length (List.filter is_dupe es)).
Proof.
  revert j. induction es as [|x es IH]; intros j; [done|].
  destruct j as [|j].
  - intros [= ->] He. cbn [alter list_alter List.filter].
    change (is_dupe (set_rel "dupe" e)) with true. by rewrite He.
  - intros Hj He. cbn [alter list_alter List.filter].
    change (list_alter (set_rel "dupe") j es) with (alter (set_rel "dupe") j es).
    destruct (is_dupe x); simpl; by rewrite (IH _ Hj He).
Qed.

Lemma count_mark_dupes (js : list nat) (es : list Entry) :
  NoDup js ->
  Forall (fun j => exists e, es !! j = Some e /\ is_dupe e = false) js ->
  length (List.filter is_dupe (mark_dupes js es))
  = length (List.filter is_dupe es) + length js.
Proof.
  revert es. induction js as [|j js IH]; intros es Hnd Hall; [simpl; lia|].
  apply NoDup_cons in Hnd as [Hj Hnd]. apply Forall_cons in Hall as [(e & He & Hd) Hall].
  rewrite mark_dupes_cons, IH; [|done|].
  - rewrite (count_alter _ _ _ He Hd). simpl. lia.
  - apply Forall_forall. intros j' Hj'. rewrite Forall_forall in Hall.
    destruct (Hall j' Hj') as (e' & He' & Hd'). exists e'. split; [|done].
    rewrite list_lookup_alter_ne; [done|]. intros ->. done.
Qed.

Lemma group_from_groups_of (E : list Entry) : groups_of (group_from 0 E []) E.
Proof.
  destruct (group_from_spec E 0 [] (NoDup_nil_2 : NoDup ([] : list (string * list nat)).*1))
    as [Hnd Hget].
  split; [done|]. apply Forall_forall. intros [k js] Hin.
  apply list_elem_of_In in Hin. pose proof (dd_get_in _ _ _ Hnd Hin) as Hjs.
  rewrite Hget in Hjs. cbn [dd_get app snd fst] in *. subst js.
  split; [apply positions_NoDup|].
  apply Forall_forall. intros j (e & _ & He & Hg)%positions_lookup.
  rewrite Nat.sub_0_r in He. exists e. split; [done|].
  unfold grouped_under in Hg. apply andb_prop in Hg as [Hr Hi].
  apply String.eqb_eq in Hr. split; [done|].
  destruct (get_ili e) as [i|]; [|done]. by apply String.eqb_eq in Hi as ->.
Qed.

Lemma count_mark_groups (d : list (string * list nat)) (es : list Entry) :
  groups_of d es ->
  length (List.filter is_dupe (mark_groups d es))
  = length (List.filter is_dupe es)
    + sum_list_with (fun g => length g.2) (List.filter is_big d).
Proof.
  revert es. induction d as [|g d IH]; intros es [Hnd Hall]; [simpl; lia|].
  rewrite fmap_cons in Hnd. apply NoDup_cons in Hnd as [Hg Hnd].
  apply Forall_cons in Hall as [[Hndg Hmem] Hall].
  rewrite mark_groups_cons. cbn [List.filter]. destruct (is_big g) eqn:Hbig.
  - rewrite IH.
    + rewrite count_mark_dupes; [simpl; lia|done|].
      eapply Forall_impl; [exact Hmem|]. intros j (e & He & Hr & _).
      exists e. split; [done|]. unfold is_dupe. by rewrite Hr.
    + split; [done|]. apply Forall_forall. intros g' Hg'.
      rewrite Forall_forall in Hall. destruct (Hall g' Hg') as [Hnd' Hmem'].
      split; [done|]. apply Forall_forall. intros j Hj.
      rewrite Forall_forall in Hmem'. destruct (Hmem' j Hj) as (e & He & Hr & Hi).
      exists e. split; [|done]. rewrite mark_dupes_lookup.
      rewrite bool_decide_eq_false_2; [done|]. intros Hjg.
      rewrite Forall_forall in Hmem. destruct (Hmem j Hjg) as (e0 & He0 & _ & Hi0).
      rewrite He in He0. injection He0 as <-. rewrite Hi in Hi0. injection Hi0 as Hk.
      apply Hg. rewrite <- Hk. apply list_elem_of_fmap. by exists g'.
  - by apply IH.
Qed.

Section Counts.
Context {PN : PyNum}.

Lemma detect_counts (entries : list Entry) (map2130 : gmap string string)
    (ewn : gmap string Synset) (issues : Issues)
    (entries' : list Entry) (groups : list DupeGroup) (issues' : Issues) :
  detect_and_mark_dupes entries map2130 ewn issues = Ok (entries', groups, issues') ->
  length (List.filter is_dupe entries')
  = length (List.filter is_dupe entries) + group_sizes groups /\
  s_duplicate_ili_entries (summary issues')
  = s_duplicate_ili_entries (summary issues) + group_sizes groups /\
  s_duplicate_ili (summary issues') = s_duplicate_ili (summary issues) + length groups.
Proof.
  intros Hdet.
  destruct (detect_unfold _ _ _ _ _ _ _ Hdet) as (E1 & I1 & st' & H1 & H3 & -> & -> & ->).
  destruct (first_pass_spec _ _ _ _ _ _ _ H1) as (es1 & Hes & Hall & Hdup).
  cbn [app] in Hes. subst es1.
  destruct (third_pass_spec _ _ _ H3) as (Hent & (new & Hnew & Hiss) & (gs & Hgs & Hgall)).
  cbn [m_entries m_groups m_issues app] in *. subst gs.
  set (d := group_from 0 E1 []) in *.
  assert (Hsizes : group_sizes (m_groups st')
                   = sum_list_with (fun g => length g.2) (List.filter is_big d)).
  { unfold group_sizes. clear -Hgall.
    induction Hgall as [|g G gs Gs [_ Hp] _ IH]; [done|].
    cbn [sum_list_with]. by rewrite IH, Hp. }
  assert (Hrefs : sum_list_with (fun D => length (iwn_entries D)) new
                  = sum_list_with (fun g => length g.2) (List.filter is_big d)).
  { clear -Hiss. induction Hiss as [|g D gs Ds HD _ IH]; [done|].
    cbn [sum_list_with]. rewrite IH. f_equal.
    destruct HD as (_ & sorted & keys & Hp & Hf & _).
    by rewrite <- (Forall2_length _ _ _ Hf), Hp. }
  split; [|split].
  - rewrite Hent, (count_mark_groups d E1 (group_from_groups_of E1)), Hsizes. f_equal.
    symmetry. apply filter_length_Forall2.
    eapply Forall2_impl; [exact Hall|]. intros e e1 (i & i' & Hfp).
    destruct (first_pass_entry_frame _ _ _ _ _ _ Hfp) as (_ & Hrel & _).
    unfold is_dupe. by rewrite Hrel.
  - unfold summary. cbn [s_duplicate_ili_entries]. rewrite Hnew, Hdup.
    rewrite sum_list_with_app, Hrefs, Hsizes. done.
  - unfold summary. cbn [s_duplicate_ili]. rewrite Hnew, Hdup, length_app. f_equal.
    rewrite <- (Forall2_length _ _ _ Hiss). apply (Forall2_length _ _ _ Hgall).
Qed.

(** The counts the detector prints and the summary of [write_issues]
    tell the same: the records newly marked [dupe] are as many as the
    members of the groups returned and as the members listed in the new
    duplicate issues, and the new issues are as many as the groups. *)
Theorem detect_dupe_count (entries : list Entry) (map2130 : gmap string string)
    (ewn : gmap string Synset) (issues : Issues)
    (entries' : list Entry) (groups : list DupeGroup) (issues' : Issues) :
  detect_and_mark_dupes entries map2130 ewn issues = Ok (entries', groups, issues') ->
  length (List.filter is_dupe entries')
  = length (List.filter is_dupe entries) + group_sizes groups /\
  s_duplicate_ili_entries (summary issues')
  = s_duplicate_ili_entries (summary issues) + group_sizes groups /\
  s_duplicate_ili (summary issues') = s_duplicate_ili (summary issues) + length groups.
Proof. apply detect_counts. Qed.

End Counts.

Lemma detect_dupe_count_witness :
  exists entries' groups issues',
    detect_and_mark_dupes (PN := AsciiNum) Examples.dup_entries Examples.dup_map
      Examples.dup_db no_issues = Ok (entries', groups, issues') /\
    group_sizes groups = 2 /\
    length (List.filter is_dupe entries')
    = length (List.filter is_dupe Examples.dup_entries) + group_sizes groups /\
    s_duplicate_ili_entries (summary issues')
    = s_duplicate_ili_entries (summary no_issues) + group_sizes groups /\
    s_duplicate_ili (summary issues') = s_duplicate_ili (summary no_issues) + length groups.
Proof.
  eexists _, _, _. split; [vm_compute; reflexivity|]. split; [vm_compute; reflexivity|].
  eapply (detect_dupe_count (PN := AsciiNum) Examples.dup_entries Examples.dup_map
            Examples.dup_db no_issues).
  vm_compute. reflexivity.
Defined.

End ReportFacts.

(** ** map2ili.py: every record is counted once *)

Module AccountFacts.
Import Py PyFacts Map2ili Map2iliMore.
Import DetectorFacts BuilderFacts DetectorMore BuilderMore ReportFacts.










Section Accounts.
Context {PN : PyNum}.





End Accounts.


End AccountFacts.

(** ** Whitespace that is no ASCII character *)

Module UnicodeExamples.
Import Py Map2ili FixTsv.

(** [strip()] passes over U+00A0 and U+3000 as over a space, and leaves
    the bytes of another character alone. *)
Example strip_nbsp :
  strip ("Direct" +:+ MoreExamples.nbsp) = "Direct" /\
  strip (MoreExamples.nbsp +:+ " x y " +:+ bytes [227; 128; 128]) = "x y" /\
  strip (" a" +:+ bytes [195; 160] +:+ " ") = "a" +:+ bytes [195; 160].
Proof. repeat split; vm_compute; reflexivity. Qed.

(** A row whose relation is followed by U+00A0 is a record. *)
Example load_line_nbsp :
  load_line (PN := AsciiNum) 2 ([], no_issues)
    (Examples.tsv_line ["IWN1"; "NOUN"; "1740"; "NOUN"; "cat"; "..."; "..."; "...";
                        "Direct" +:+ MoreExamples.nbsp])
  = Ok ([{| iwn_id := "IWN1"; iwn_pos := "NOUN"; pwn21_offset := "1740";
            pwn21_pos := "NOUN"; english_lemmas := "cat"; english_gloss := "...";
            hindi_lemmas := "..."; hindi_gloss := "..."; original_rel := "Direct";
            rel := "equal"; iwn_key := "IWN1_n"; pwn21_key := "00001740-n";
            ili := None; pwn30_key := None |}], no_issues).
Proof. vm_compute. reflexivity. Qed.

(** [split()] cuts at U+00A0: the line has four fields, and its last
    offset has no score. *)
Example pwn_line_nbsp :
  split_ws (strip ("00000001" +:+ MoreExamples.nbsp +:+ "00000002 0.5"
                   +:+ MoreExamples.nbsp +:+ "x"))
  = ["00000001"; "00000002"; "0.5"; "x"] /\
  pwn_line (PN := AsciiNum) "n" ∅
    ("00000001" +:+ MoreExamples.nbsp +:+ "00000002 0.5" +:+ MoreExamples.nbsp +:+ "x")
  = Raise IndexError /\
  pwn_line (PN := AsciiNum) "n" ∅
    ("x a" +:+ MoreExamples.nbsp +:+ "1" +:+ MoreExamples.nbsp +:+ "b 2")
  = Ok (<["x-n" := "b-n"]> ∅).
Proof. repeat split; vm_compute; reflexivity. Qed.

(** A relation [WordN] followed by U+00A0 is fixed. *)
Example fix_tsv_nbsp :
  fix_tsv (Examples.tsv_line ["IWN1"; "NOUN"; "1740"; "NOUN"; "cat"; "..."; "..."; "...";
                              "WordN" +:+ MoreExamples.nbsp])
  = Ok ({| total_lines := 1; merged_lines := 0; fixed_wordn := 1; output_lines := 1 |},
        Examples.tsv_line ["IWN1"; "NOUN"; "1740"; "NOUN"; "cat"; "..."; "..."; "...";
                           "Hypernymy"]).
Proof. vm_compute. reflexivity. Qed.

End UnicodeExamples.
